(** * A shallow embedding of the AI Fitness Coach front end (src/App.jsx)

    The application is one React component.  Its handlers are embedded as
    functions over an explicit application state, the browser's local
    storage and a log of the effects the handler performs (alerts, network
    requests, speech, saved documents).  What the handlers await from the
    outside world (the text and image oracle, the speech service) is an
    environment the handlers are run against.

    The platform functions the handlers call (String.prototype.trim,
    String.prototype.replace with the regular expression of generatePlan,
    JSON.parse, JSON.stringify, template literals) are modelled after
    ECMAScript: strings are sequences of UTF-16 code units, numbers are
    binary64 values. *)

From Stdlib Require Import ZArith NArith Lia List Bool Ascii String.
From stdpp Require Import base option list strings gmap sorting.

Set Default Proof Using "Type".
Local Open Scope N_scope.

(** ** JavaScript strings *)

(** A JavaScript string is a sequence of UTF-16 code units. *)
Definition jsstring := list N.

(** The code units of an ASCII literal. *)
Fixpoint u (s : string) : jsstring :=
  match s with
  | EmptyString => []
  | String a r => N_of_ascii a :: u r
  end.

Fixpoint jsstring_eqb (a b : jsstring) : bool :=
  match a, b with
  | [], [] => true
  | x :: a', y :: b' => N.eqb x y && jsstring_eqb a' b'
  | _, _ => false
  end.

(** [s.startsWith(p)], returning what follows the prefix. *)
Fixpoint strip_prefix (p s : jsstring) : option jsstring :=
  match p, s with
  | [], _ => Some s
  | x :: p', y :: s' => if N.eqb x y then strip_prefix p' s' else None
  | _ :: _, [] => None
  end.

(** ECMAScript WhiteSpace and LineTerminator code points: what [trim]
    removes and what [\s] matches in a regular expression. *)
Definition isWhiteSpace (c : N) : bool :=
  (9 <=? c) && (c <=? 13)          (* TAB LF VT FF CR *)
  || (c =? 32)                     (* SP *)
  || (c =? 160)                    (* NBSP *)
  || (c =? 5760)                   (* U+1680 *)
  || (8192 <=? c) && (c <=? 8202)  (* U+2000 .. U+200A *)
  || (c =? 8232) || (c =? 8233)    (* LS PS *)
  || (c =? 8239) || (c =? 8287)    (* U+202F U+205F *)
  || (c =? 12288)                  (* U+3000 *)
  || (c =? 65279).                 (* ZWNBSP / BOM *)

Fixpoint skipWhiteSpace (s : jsstring) : jsstring :=
  match s with
  | c :: r => if isWhiteSpace c then skipWhiteSpace r else s
  | [] => []
  end.

(** String.prototype.trim *)
Definition trim (s : jsstring) : jsstring :=
  rev (skipWhiteSpace (rev (skipWhiteSpace s))).

(** ** The fence strip of generatePlan

    [raw.replace(/^```json\s*|\s*```$/g, "")].  The expression has two
    alternatives and neither matches the empty string.  A global replace
    scans the subject from the left; at each position it tries the first
    alternative, then the second, deletes what matched and resumes after
    the match; where neither matches, the code unit is kept. *)

Definition backtick : N := 96.
Definition fence : jsstring := [backtick; backtick; backtick].

(** First alternative, [^```json\s*]: anchored at the start of the
    subject (no [m] flag); [\s*] is greedy.  Returns the rest of the
    subject after the match. *)
Definition match_open (s : jsstring) : option jsstring :=
  skipWhiteSpace <$> strip_prefix (fence ++ u "json") s.

(** Second alternative, [\s*```$], tried at the head of [s]: the greedy
    [\s*] takes every leading white space unit (giving some back cannot
    help, a white space unit is not a backtick), then the three backticks
    must be all that is left. *)
Definition match_close (s : jsstring) : bool :=
  jsstring_eqb (skipWhiteSpace s) fence.

(** The scan past position 0, where only the second alternative can match.
    Its match always runs to the end of the subject. *)
Fixpoint strip_close (s : jsstring) : jsstring :=
  if match_close s then []
  else match s with
       | [] => []
       | c :: r => c :: strip_close r
       end.

Definition stripFence (raw : jsstring) : jsstring :=
  match match_open raw with
  | Some rest => strip_close rest
  | None => strip_close raw
  end.

(** ** JavaScript numbers

    A Number is a binary64 value.  A finite one is [±m·2^e] in canonical
    form: [2^52 <= m < 2^53] with [-1074 <= e <= 971] (normal), or
    [m < 2^52] with [e = -1074] (subnormal and zero).  JSON texts denote no
    NaN. *)
Inductive number :=
| Finite (neg : bool) (m : Z) (e : Z)
| Infinite (neg : bool).

Definition number_eqb (x y : number) : bool :=
  match x, y with
  | Finite a m e, Finite b n f => Bool.eqb a b && Z.eqb m n && Z.eqb e f
  | Infinite a, Infinite b => Bool.eqb a b
  | _, _ => false
  end.

Definition isZero (x : number) : bool :=
  match x with
  | Finite _ m _ => Z.eqb m 0
  | Infinite _ => false
  end.

Local Open Scope Z_scope.

(** The quotient [num/den] rounded to the nearest integer, ties to even. *)
Definition roundHalfEven (num den : Z) : Z :=
  let q := num / den in
  let r := num mod den in
  match 2 * r ?= den with
  | Lt => q
  | Gt => q + 1
  | Eq => if Z.even q then q else q + 1
  end.

(** [num/den] divided by [2^k], as a fraction. *)
Definition scale2 (num den k : Z) : Z * Z :=
  if 0 <=? k then (num, den * 2 ^ k) else (num * 2 ^ (- k), den).

(** The Number value of the positive rational [num/den]: round to nearest,
    ties to even, overflowing to infinity. *)
Definition roundToDouble (neg : bool) (num den : Z) : number :=
  let t0 := Z.log2 num - Z.log2 den in
  let '(a, b) := scale2 num den t0 in
  let t := if b <=? a then t0 else t0 - 1 in       (* floor (log2 (num/den)) *)
  let e := Z.max (t - 52) (-1074) in
  let '(a, b) := scale2 num den e in
  let m := roundHalfEven a b in
  let '(m, e) := if m =? 2 ^ 53 then (2 ^ 52, e + 1) else (m, e) in
  if 971 <? e then Infinite neg else Finite neg m e.

(** The Number value of the decimal [±m·10^e10] (a numeric literal). *)
Definition numberOfDecimal (neg : bool) (m e10 : Z) : number :=
  if m =? 0 then Finite neg 0 (-1074)
  else if 0 <=? e10 then roundToDouble neg (m * 10 ^ e10) 1
  else roundToDouble neg m (10 ^ (- e10)).

(** *** Number::toString (radix 10) *)

(** Decimal digits of a natural number, most significant first. *)
Fixpoint digitsFuel (fuel : nat) (n : Z) (acc : jsstring) : jsstring :=
  match fuel with
  | O => acc
  | S f =>
      let acc' := Z.to_N (48 + n mod 10) :: acc in
      if n <? 10 then acc' else digitsFuel f (n / 10) acc'
  end.

Definition digits (n : Z) : jsstring :=
  digitsFuel (S (Z.to_nat (Z.log2 n))) n [].

(** The [n] of Number::toString for the positive rational [num/den]:
    [10^(n-1) <= num/den < 10^n]. *)
Fixpoint decimalExponentUp (fuel : nat) (num den n : Z) : Z :=
  match fuel with
  | O => n
  | S f => if num <? den * 10 ^ n then n
           else decimalExponentUp f num den (n + 1)
  end.

Fixpoint decimalExponentDown (fuel : nat) (num den n : Z) : Z :=
  match fuel with
  | O => n
  | S f => if den <=? num * 10 ^ (1 - n) then n
           else decimalExponentDown f num den (n - 1)
  end.

Definition decimalExponent (num den : Z) : Z :=
  if den <=? num then decimalExponentUp 400 num den 1
  else decimalExponentDown 400 num den 0.

(** [10^z] as a fraction. *)
Definition pow10 (z : Z) : Z * Z :=
  if 0 <=? z then (10 ^ z, 1) else (1, 10 ^ (- z)).

(** Step 5 of Number::toString for the positive finite [x = num/den] and a
    digit count [k]: the pairs [(s, n)] with [10^(k-1) <= s < 10^k] whose
    decimal [s·10^(n-k)] has Number value [x].  Such an [s] is one of the
    two integers next to [x / 10^(n-k)], and [n] is the decimal exponent of
    [x] or one more (when [x] is the Number next below a power of ten). *)
Definition digitCandidates (x : number) (num den k : Z) : list (Z * Z) :=
  let n0 := decimalExponent num den in
  n ← [n0; n0 + 1];
  let '(p, q) := pow10 (n - k) in
  let lo := (num * q) / (den * p) in
  filter (fun sn : Z * Z =>
            bool_decide ((10 ^ (k - 1) <=? sn.1) && (sn.1 <? 10 ^ k)
                         && number_eqb (numberOfDecimal false sn.1 (n - k)) x
                         = true))
         [(lo, n); (lo + 1, n)].

(** [|s·10^(n-k) - num/den|] as a fraction. *)
Definition distance (num den k : Z) (sn : Z * Z) : Z * Z :=
  let '(p, q) := pow10 (sn.2 - k) in
  (Z.abs (sn.1 * p * den - num * q), q * den).

(** Among several candidates the one closest to [x]; of two equally close
    the even one. *)
Definition closer (num den k : Z) (c b : Z * Z) : Z * Z :=
  let '(a1, b1) := distance num den k c in
  let '(a2, b2) := distance num den k b in
  match a1 * b2 ?= a2 * b1 with
  | Lt => c
  | Gt => b
  | Eq => if Z.even c.1 then c else b
  end.

Fixpoint shortest (fuel : nat) (x : number) (num den k : Z) : option (Z * Z) :=
  match fuel with
  | O => None
  | S f =>
      match digitCandidates x num den k with
      | c :: cs => Some (foldl (closer num den k) c cs)
      | [] => shortest f x num den (k + 1)
      end
  end.

Definition zeros (n : Z) : jsstring := replicate (Z.to_nat n) 48%N.

(** Steps 6 to 10: the digits of [s] laid out for the exponent [n]. *)
Definition layout (s n : Z) : jsstring :=
  let ds := digits s in
  let k := Z.of_nat (length ds) in
  if (k <=? n) && (n <=? 21) then ds ++ zeros (n - k)
  else if (0 <? n) && (n <=? 21) then
    take (Z.to_nat n) ds ++ u "." ++ drop (Z.to_nat n) ds
  else if (-6 <? n) && (n <=? 0) then u "0." ++ zeros (- n) ++ ds
  else
    let e := n - 1 in
    let sign := if 0 <? e then u "+" else u "-" in
    match ds with
    | [d] => [d] ++ u "e" ++ sign ++ digits (Z.abs e)
    | d :: more => [d] ++ u "." ++ more ++ u "e" ++ sign ++ digits (Z.abs e)
    | [] => []
    end.

(** Number::toString.  Seventeen significant digits identify every
    binary64 value, so the search for the shortest digit string ends within
    its fuel. *)
Definition numberToString (x : number) : jsstring :=
  match x with
  | Infinite neg => (if neg then u "-" else []) ++ u "Infinity"
  | Finite neg m e =>
      if m =? 0 then u "0"
      else
        let '(num, den) := scale2 m 1 (- e) in
        (if neg then u "-" else []) ++
        match shortest 17 (Finite false m e) num den 1 with
        | Some (s, n) => layout s n
        | None => []
        end
  end.

(** ** JSON values

    What JSON.parse returns: null, booleans, Numbers, strings, arrays and
    plain objects.  An object is the list of its own properties in the
    order the engine enumerates them (Object.entries, JSON.stringify). *)
#[local] Unset Elimination Schemes.
Inductive json :=
| JNull
| JBool (b : bool)
| JNum (x : number)
| JStr (s : jsstring)
| JArr (items : list json)
| JObj (props : list (jsstring * json)).
#[local] Set Elimination Schemes.

(** A JavaScript value read from a plan: a JSON value or [undefined]. *)
Definition value := option json.
Definition undefined : value := None.

(** ToBoolean *)
Definition truthy (v : json) : bool :=
  match v with
  | JNull => false
  | JBool b => b
  | JNum x => negb (isZero x)
  | JStr s => negb (jsstring_eqb s [])
  | JArr _ | JObj _ => true
  end.

(** *** Property order of plain objects

    Own property keys are enumerated with the array indices first, in
    ascending numeric order, then the other strings in creation order. *)

Definition isDigit (c : N) : bool := (48 <=? c)%N && (c <=? 57)%N.

Definition decimalValue (ds : jsstring) : Z :=
  foldl (fun acc c => acc * 10 + (Z.of_N c - 48)) 0 ds.

(** An array index is a canonical numeric string up to [2^32 - 2]. *)
Definition arrayIndex (k : jsstring) : option Z :=
  if forallb isDigit k && jsstring_eqb (digits (decimalValue k)) k
     && (decimalValue k <? 2 ^ 32 - 1)
  then Some (decimalValue k) else None.

Fixpoint hasKey (k : jsstring) (props : list (jsstring * json)) : bool :=
  match props with
  | [] => false
  | (k', _) :: r => jsstring_eqb k k' || hasKey k r
  end.

(** [o[k]] for an own property. *)
Fixpoint getOwn (k : jsstring) (props : list (jsstring * json)) : value :=
  match props with
  | [] => undefined
  | (k', v) :: r => if jsstring_eqb k k' then Some v else getOwn k r
  end.

Fixpoint replaceOwn (k : jsstring) (v : json) (props : list (jsstring * json))
  : list (jsstring * json) :=
  match props with
  | [] => []
  | (k', v') :: r =>
      if jsstring_eqb k k' then (k', v) :: r else (k', v') :: replaceOwn k v r
  end.

Fixpoint insertIndex (i : Z) (k : jsstring) (v : json)
    (props : list (jsstring * json)) : list (jsstring * json) :=
  match props with
  | [] => [(k, v)]
  | (k', v') :: r =>
      match arrayIndex k' with
      | Some j => if i <? j then (k, v) :: props
                  else (k', v') :: insertIndex i k v r
      | None => (k, v) :: props
      end
  end.

(** CreateDataProperty on a plain object: an existing property keeps its
    place and takes the new value; a new one is enumerated among the
    array indices or last. *)
Definition defineOwn (props : list (jsstring * json)) (kv : jsstring * json)
  : list (jsstring * json) :=
  let '(k, v) := kv in
  if hasKey k props then replaceOwn k v props
  else match arrayIndex k with
       | Some i => insertIndex i k v props
       | None => props ++ [(k, v)]
       end.

(** The object an object literal of a JSON text denotes: its members
    defined in textual order. *)
Definition makeObject (members : list (jsstring * json)) : json :=
  JObj (foldl defineOwn [] members).

(** ** JSON.parse *)

(** The outcome of a parser run: a value and the unread input, a syntax
    error, or exhausted fuel. *)
Inductive presult (A : Type) :=
| POk (a : A) (rest : jsstring)
| PErr
| PFuel.
Arguments POk {A} a rest.
Arguments PErr {A}.
Arguments PFuel {A}.

(** JSON white space: TAB, LF, CR and SP only. *)
Definition isJSONWhiteSpace (c : N) : bool :=
  (c =? 9)%N || (c =? 10)%N || (c =? 13)%N || (c =? 32)%N.

Fixpoint skipJSONWhiteSpace (s : jsstring) : jsstring :=
  match s with
  | c :: r => if isJSONWhiteSpace c then skipJSONWhiteSpace r else s
  | [] => []
  end.

Definition hexValue (c : N) : option N :=
  if isDigit c then Some (c - 48)%N
  else if (97 <=? c)%N && (c <=? 102)%N then Some (c - 87)%N
  else if (65 <=? c)%N && (c <=? 70)%N then Some (c - 55)%N
  else None.

(** The code unit of a two-character escape. *)
Definition escapeValue (c : N) : option N :=
       if (c =? 34)%N then Some 34%N      (* escaped quote *)
  else if (c =? 92)%N then Some 92%N      (* escaped backslash *)
  else if (c =? 47)%N then Some 47%N      (* \/ *)
  else if (c =? 98)%N then Some 8%N       (* \b *)
  else if (c =? 102)%N then Some 12%N     (* \f *)
  else if (c =? 110)%N then Some 10%N     (* \n *)
  else if (c =? 114)%N then Some 13%N     (* \r *)
  else if (c =? 116)%N then Some 9%N      (* \t *)
  else None.

(** The characters of a JSON string after its opening quote, up to and
    including the closing quote. *)
Fixpoint parseStringBody (s : jsstring) : option (jsstring * jsstring) :=
  match s with
  | [] => None
  | c :: r =>
      if (c =? 34)%N then Some ([], r)
      else if (c =? 92)%N then
        match r with
        | [] => None
        | e :: r1 =>
            if (e =? 117)%N then               (* \uXXXX *)
              match r1 with
              | h1 :: h2 :: h3 :: h4 :: r2 =>
                  match hexValue h1, hexValue h2, hexValue h3, hexValue h4 with
                  | Some a, Some b, Some c', Some d =>
                      match parseStringBody r2 with
                      | Some (str, rest) =>
                          Some ((((a * 16 + b) * 16 + c') * 16 + d)%N :: str, rest)
                      | None => None
                      end
                  | _, _, _, _ => None
                  end
              | _ => None
              end
            else
              match escapeValue e with
              | Some x =>
                  match parseStringBody r1 with
                  | Some (str, rest) => Some (x :: str, rest)
                  | None => None
                  end
              | None => None
              end
        end
      else if (c <? 32)%N then None
      else
        match parseStringBody r with
        | Some (str, rest) => Some (c :: str, rest)
        | None => None
        end
  end.

Fixpoint spanDigits (s : jsstring) : jsstring * jsstring :=
  match s with
  | c :: r => if isDigit c then let '(ds, rest) := spanDigits r in (c :: ds, rest)
              else ([], s)
  | [] => ([], [])
  end.

(** JSONNumber: an optional minus sign; the integer part, a single 0 or a
    non-zero digit followed by digits; an optional fraction, a point and at
    least one digit; an optional exponent, e or E, an optional sign and at
    least one digit. *)

(** The sign: whether it is there, and what follows it. *)
Definition parseSign (minus : N) (s : jsstring) : bool * jsstring :=
  match s with
  | c :: r => if (c =? minus)%N then (true, r) else (false, s)
  | [] => (false, s)
  end.

Definition parseInteger (s : jsstring) : option (jsstring * jsstring) :=
  match s with
  | c :: r => if (c =? 48)%N then Some ([48%N], r)
              else if isDigit c then Some (spanDigits s)
              else None
  | [] => None
  end.

Definition parseFraction (s : jsstring) : option (jsstring * jsstring) :=
  match s with
  | c :: r =>
      if (c =? 46)%N then
        match spanDigits r with
        | ([], _) => None
        | (fds, r') => Some (fds, r')
        end
      else Some ([], s)
  | [] => Some ([], s)
  end.

Definition parseExponent (s : jsstring) : option (Z * jsstring) :=
  match s with
  | c :: r =>
      if (c =? 101)%N || (c =? 69)%N then
        let '(eneg, r1) := match r with
                           | d :: r' => if (d =? 43)%N then (false, r')
                                        else if (d =? 45)%N then (true, r')
                                        else (false, r)
                           | [] => (false, r)
                           end in
        match spanDigits r1 with
        | ([], _) => None
        | (eds, r2) =>
            Some (if eneg then - decimalValue eds else decimalValue eds, r2)
        end
      else Some (0, s)
  | [] => Some (0, s)
  end.

Definition parseNumber (s : jsstring) : option (number * jsstring) :=
  let '(neg, s1) := parseSign 45 s in
  '(ids, s2) ← parseInteger s1;
  '(fds, s3) ← parseFraction s2;
  '(e10, s4) ← parseExponent s3;
  Some (numberOfDecimal neg (decimalValue (ids ++ fds))
                        (e10 - Z.of_nat (length fds)), s4).

(** What follows an element or a member: a comma and more, or the closing
    bracket [close]. *)
Definition parseMore {A} (close : N) (x : A) (r : jsstring)
    (more : jsstring -> presult (list A)) : presult (list A) :=
  match skipJSONWhiteSpace r with
  | c :: r' =>
      if (c =? 44)%N then
        match more (skipJSONWhiteSpace r') with
        | POk xs r'' => POk (x :: xs) r''
        | PErr => PErr
        | PFuel => PFuel
        end
      else if (c =? close)%N then POk [x] r'
      else PErr
  | [] => PErr
  end.

(** A non-empty list of items separated by commas, after the opening
    bracket and white space, up to the bracket [close].  [n] bounds the
    number of items. *)
Fixpoint parseList {A} (item : jsstring -> presult A) (close : N) (n : nat)
    (s : jsstring) : presult (list A) :=
  match n with
  | O => PFuel
  | S n' =>
      match item s with
      | POk x r => parseMore close x r (parseList item close n')
      | PErr => PErr
      | PFuel => PFuel
      end
  end.

(** A member: a string, a colon and a value read by [parseNested]. *)
Definition parseMember (parseNested : jsstring -> presult json) (s : jsstring)
  : presult (jsstring * json) :=
  match s with
  | q :: r0 =>
      if (q =? 34)%N then
        match parseStringBody r0 with
        | Some (k, r1) =>
            match skipJSONWhiteSpace r1 with
            | c :: r2 =>
                if (c =? 58)%N then
                  match parseNested (skipJSONWhiteSpace r2) with
                  | POk v r3 => POk (k, v) r3
                  | PErr => PErr
                  | PFuel => PFuel
                  end
                else PErr
            | [] => PErr
            end
        | None => PErr
        end
      else PErr
  | [] => PErr
  end.

(** The elements of a non-empty array, and the members of a non-empty
    object, over the parser of the nested values. *)
Definition parseElements (parseNested : jsstring -> presult json)
  : nat -> jsstring -> presult (list json) :=
  parseList parseNested 93.

Definition parseMembers (parseNested : jsstring -> presult json)
  : nat -> jsstring -> presult (list (jsstring * json)) :=
  parseList (parseMember parseNested) 125.

(** The literals [null], [true] and [false], else a number. *)
Definition parseLiteral (s : jsstring) : presult json :=
  match strip_prefix (u "null") s with
  | Some r => POk JNull r
  | None =>
  match strip_prefix (u "true") s with
  | Some r => POk (JBool true) r
  | None =>
  match strip_prefix (u "false") s with
  | Some r => POk (JBool false) r
  | None =>
  match parseNumber s with
  | Some (x, r) => POk (JNum x) r
  | None => PErr
  end end end end.

(** A JSON value at the head of [s].  [fuel] bounds the nesting depth. *)
Fixpoint parseValue (fuel : nat) (s : jsstring) : presult json :=
  match fuel with
  | O => PFuel
  | S f =>
      match s with
      | c :: r =>
          if (c =? 123)%N then                               (* object *)
            match skipJSONWhiteSpace r with
            | [] => PErr
            | d :: r' =>
                if (d =? 125)%N then POk (JObj []) r'
                else
                  match parseMembers (parseValue f) (S (length r)) (d :: r') with
                  | POk ms r'' => POk (makeObject ms) r''
                  | PErr => PErr
                  | PFuel => PFuel
                  end
            end
          else if (c =? 91)%N then                           (* array *)
            match skipJSONWhiteSpace r with
            | [] => PErr
            | d :: r' =>
                if (d =? 93)%N then POk (JArr []) r'
                else
                  match parseElements (parseValue f) (S (length r)) (d :: r') with
                  | POk vs r'' => POk (JArr vs) r''
                  | PErr => PErr
                  | PFuel => PFuel
                  end
            end
          else if (c =? 34)%N then                           (* string *)
            match parseStringBody r with
            | Some (str, r') => POk (JStr str) r'
            | None => PErr
            end
          else parseLiteral s
      | [] => PErr
      end
  end.

(** A JSON text: one value between optional white space. *)
Definition parseText (fuel : nat) (text : jsstring) : presult json :=
  match parseValue fuel (skipJSONWhiteSpace text) with
  | POk v r => match skipJSONWhiteSpace r with
               | [] => POk v []
               | _ => PErr
               end
  | PErr => PErr
  | PFuel => PFuel
  end.

(** JSON.parse.  Every nesting level costs a bracket, so the length of the
    text bounds the depth. *)
Definition JSON_parse (text : jsstring) : presult json :=
  parseText (S (length text)) text.

(** ** JSON.stringify *)

Definition hexDigit (n : N) : N :=
  (if n <? 10 then 48 + n else 87 + n)%N.

(** UnicodeEscape: [\u] and four lower case hexadecimal digits. *)
Definition unicodeEscape (c : N) : jsstring :=
  [92; 117; hexDigit (c / 4096 mod 16); hexDigit (c / 256 mod 16);
   hexDigit (c / 16 mod 16); hexDigit (c mod 16)]%N.

Definition isLeadingSurrogate (c : N) : bool :=
  (55296 <=? c)%N && (c <=? 56319)%N.
Definition isTrailingSurrogate (c : N) : bool :=
  (56320 <=? c)%N && (c <=? 57343)%N.

(** The two-character escapes of QuoteJSONString. *)
Definition shortEscape (c : N) : option N :=
       if (c =? 8)%N then Some 98%N
  else if (c =? 9)%N then Some 116%N
  else if (c =? 10)%N then Some 110%N
  else if (c =? 12)%N then Some 102%N
  else if (c =? 13)%N then Some 114%N
  else if (c =? 34)%N then Some 34%N
  else if (c =? 92)%N then Some 92%N
  else None.

(** QuoteJSONString walks the code points of the string: a surrogate pair
    is copied, a lone surrogate and a control character are escaped. *)
Fixpoint quoteBody (s : jsstring) : jsstring :=
  match s with
  | [] => []
  | c :: r =>
      if isLeadingSurrogate c then
        match r with
        | d :: r' =>
            if isTrailingSurrogate d then c :: d :: quoteBody r'
            else unicodeEscape c ++ quoteBody r
        | [] => unicodeEscape c
        end
      else if isTrailingSurrogate c then unicodeEscape c ++ quoteBody r
      else
        match shortEscape c with
        | Some e => 92%N :: e :: quoteBody r
        | None => if (c <? 32)%N then unicodeEscape c ++ quoteBody r
                  else c :: quoteBody r
        end
  end.

Definition quoteJSONString (s : jsstring) : jsstring :=
  34%N :: quoteBody s ++ [34%N].

(** [parts.join(",")] *)
Fixpoint joinComma (parts : list jsstring) : jsstring :=
  match parts with
  | [] => []
  | [p] => p
  | p :: more => p ++ 44%N :: joinComma more
  end.

(** JSON.stringify of a JSON value, without indentation.  A Number that is
    not finite is written [null]. *)
Fixpoint JSON_stringify (v : json) : jsstring :=
  match v with
  | JNull => u "null"
  | JBool true => u "true"
  | JBool false => u "false"
  | JNum (Infinite _) => u "null"
  | JNum x => numberToString x
  | JStr s => quoteJSONString s
  | JArr items => 91%N :: joinComma (map JSON_stringify items) ++ [93%N]
  | JObj props =>
      123%N :: joinComma (map (fun kv : jsstring * json =>
                                 let '(k, x) := kv in
                                 quoteJSONString k ++ 58%N :: JSON_stringify x)
                              props) ++ [125%N]
  end.

(** ** Exceptions and values at run time *)

Inductive exn :=
| TypeError                         (* raised by the engine *)
| SyntaxError (text : jsstring)     (* raised by JSON.parse on [text] *)
| Error (message : jsstring)        (* [new Error(message)] *)
| Rejection (message : jsstring).   (* an awaited promise was rejected *)

Inductive result (A : Type) :=
| Ok (a : A)
| Throw (e : exn).
Arguments Ok {A} a.
Arguments Throw {A} e.

Definition bindR {A B} (r : result A) (k : A -> result B) : result B :=
  match r with
  | Ok a => k a
  | Throw e => Throw e
  end.

(** [v.k] for a key that none of the built-in prototypes defines, as are
    all keys the handlers read: the own property of a plain object,
    [undefined] on an array or a primitive, a TypeError on [null] and
    [undefined]. *)
Definition getProp (v : value) (k : string) : result value :=
  match v with
  | None | Some JNull => Throw TypeError
  | Some (JObj props) => Ok (getOwn (u k) props)
  | Some _ => Ok undefined
  end.

(** [v?.k] *)
Definition getOpt (v : value) (k : string) : value :=
  match v with
  | Some (JObj props) => getOwn (u k) props
  | _ => undefined
  end.

(** [v || d] *)
Definition orElse (v : value) (d : json) : json :=
  match v with
  | Some j => if truthy j then j else d
  | None => d
  end.

(** ToString of a JSON value, as a template literal applies it.  An array
    joins its elements with commas, [null] elements as the empty string.  A
    plain object is [[object Object]], unless it has an own property
    [toString]: that property is no function, and neither it nor [valueOf]
    yields a primitive, which is a TypeError. *)
Fixpoint toStringJSON (v : json) : result jsstring :=
  match v with
  | JNull => Ok (u "null")
  | JBool true => Ok (u "true")
  | JBool false => Ok (u "false")
  | JNum x => Ok (numberToString x)
  | JStr s => Ok s
  | JArr items =>
      (fix join (l : list json) : result jsstring :=
         match l with
         | [] => Ok []
         | x :: more =>
             bindR (match x with JNull => Ok [] | _ => toStringJSON x end)
               (fun sx =>
                  match more with
                  | [] => Ok sx
                  | _ => bindR (join more) (fun sm => Ok (sx ++ 44%N :: sm))
                  end)
         end) items
  | JObj props =>
      if hasKey (u "toString") props then Throw TypeError
      else Ok (u "[object Object]")
  end.

Definition toStringValue (v : value) : result jsstring :=
  match v with
  | Some j => toStringJSON j
  | None => Ok (u "undefined")
  end.

(** ** The outside world *)

(** The eleven fields of the form. *)
Record UserProfile := {
  name : jsstring;
  age : jsstring;
  gender : jsstring;
  height : jsstring;
  weight : jsstring;
  fitnessGoal : jsstring;
  fitnessLevel : jsstring;
  workoutLocation : jsstring;
  dietaryPreference : jsstring;
  medicalHistory : jsstring;
  stressLevel : jsstring;
}.

(** What is sent to the oracle as [contents].  The plan prompt is the fixed
    instruction text around [JSON.stringify(formData, null, 2)]; it is kept
    as the form it is built from. *)
Inductive contents :=
| PlanPrompt (formData : UserProfile)
| TextPrompt (text : jsstring).

(** The oracle's response, as far as the handlers read it:
    [res?.candidates?.[0]?.content?.parts], each part with an optional
    [text] and an optional [inlineData] carrying optional [data]. *)
Record inlineData := { data : option jsstring }.
Record part := { text : option jsstring; inline : option inlineData }.
Record content := { parts : option (list part) }.
Record candidate := { contentOf : option content }.
Record response := { candidates : option (list candidate) }.

(** An awaited promise settles. *)
Inductive outcome (A : Type) :=
| Resolved (a : A)
| Rejected (message : jsstring).
Arguments Resolved {A} a.
Arguments Rejected {A} message.

Definition blob := list N.

(** A fetch resolves with a response for every HTTP status; the body is
    read by a second promise. *)
Record httpResponse := { status : N; body : outcome blob }.

Record env := {
  (** [ai.models.generateContent({ model, contents })]: the SDK rejects on a
      transport failure and on a status outside 2xx. *)
  generateContent : string -> contents -> outcome response;
  (** [fetch(url, { method: POST, headers: { xi-api-key }, body })]: rejects
      on a transport failure only. *)
  fetch : jsstring -> jsstring -> jsstring -> outcome httpResponse;
  createObjectURL : blob -> jsstring;
  (** [new Date().toLocaleDateString()] *)
  today : jsstring;
  (** The message the engine gives a TypeError or a SyntaxError. *)
  engineMessage : exn -> jsstring;
  (** jsPDF's [doc.splitTextToSize(txt, maxlen)] under the current font size
      and style: the lines of the wrapped text. *)
  splitTextToSize : Z -> bool -> value -> Z -> result (list jsstring);
}.

(** [err.message] *)
Definition message (E : env) (e : exn) : jsstring :=
  match e with
  | Error m | Rejection m => m
  | _ => engineMessage E e
  end.

(** ** Application state *)

Inductive step := FormStep | PlanStep.

Record image := { imageName : value; dataUrl : jsstring }.

(** What a handler does to the world besides updating the state. *)
Inductive docOp :=
| SetFontSize (size : Z)
| SetFont (family : string) (style : string)
| AddPage
| Text (line : jsstring) (x y : Z).

Inductive effect :=
| Alert (text : jsstring)
| DarkClass (on : bool)                            (* classList.toggle of the root *)
| ConsoleError (e : exn)
| ConsoleWarn (text : jsstring) (e : exn)
| Request (model : string) (c : contents)          (* to the text or image oracle *)
| Fetch (url key body : jsstring)                  (* to the speech service *)
| Speak (text : json) (rate : Z)                   (* speechSynthesis.speak *)
| PlayLater (delay : Z)                            (* setTimeout: play the audio *)
| Save (filename : string) (ops : list docOp).     (* doc.save *)

Record state := {
  darkMode : bool;
  loading : bool;
  imageLoading : bool;
  ttsLoading : bool;
  plan : json;
  currentStep : step;
  expandedDay : option nat;
  expandedMeal : option jsstring;
  dailyQuote : jsstring;
  quoteLoading : bool;
  selectedImage : option image;
  apiKey : jsstring;
  elevenKey : jsstring;
  elevenVoiceId : jsstring;
  audioBlobUrl : option jsstring;
  isPlaying : bool;
  formData : UserProfile;
  localStorage : gmap string jsstring;
  effects : list effect;
}.

(** Field updates. *)
Definition with_darkMode (x : bool) (s : state) : state :=
  {| darkMode := x; loading := loading s; imageLoading := imageLoading s;
  ttsLoading := ttsLoading s; plan := plan s; currentStep := currentStep s;
  expandedDay := expandedDay s; expandedMeal := expandedMeal s; dailyQuote
  := dailyQuote s; quoteLoading := quoteLoading s; selectedImage :=
  selectedImage s; apiKey := apiKey s; elevenKey := elevenKey s;
  elevenVoiceId := elevenVoiceId s; audioBlobUrl := audioBlobUrl s;
  isPlaying := isPlaying s; formData := formData s; localStorage :=
  localStorage s; effects := effects s |}.
Definition with_loading (x : bool) (s : state) : state :=
  {| darkMode := darkMode s; loading := x; imageLoading := imageLoading s;
  ttsLoading := ttsLoading s; plan := plan s; currentStep := currentStep s;
  expandedDay := expandedDay s; expandedMeal := expandedMeal s; dailyQuote
  := dailyQuote s; quoteLoading := quoteLoading s; selectedImage :=
  selectedImage s; apiKey := apiKey s; elevenKey := elevenKey s;
  elevenVoiceId := elevenVoiceId s; audioBlobUrl := audioBlobUrl s;
  isPlaying := isPlaying s; formData := formData s; localStorage :=
  localStorage s; effects := effects s |}.
Definition with_imageLoading (x : bool) (s : state) : state :=
  {| darkMode := darkMode s; loading := loading s; imageLoading := x;
  ttsLoading := ttsLoading s; plan := plan s; currentStep := currentStep s;
  expandedDay := expandedDay s; expandedMeal := expandedMeal s; dailyQuote
  := dailyQuote s; quoteLoading := quoteLoading s; selectedImage :=
  selectedImage s; apiKey := apiKey s; elevenKey := elevenKey s;
  elevenVoiceId := elevenVoiceId s; audioBlobUrl := audioBlobUrl s;
  isPlaying := isPlaying s; formData := formData s; localStorage :=
  localStorage s; effects := effects s |}.
Definition with_ttsLoading (x : bool) (s : state) : state :=
  {| darkMode := darkMode s; loading := loading s; imageLoading :=
  imageLoading s; ttsLoading := x; plan := plan s; currentStep :=
  currentStep s; expandedDay := expandedDay s; expandedMeal := expandedMeal
  s; dailyQuote := dailyQuote s; quoteLoading := quoteLoading s;
  selectedImage := selectedImage s; apiKey := apiKey s; elevenKey :=
  elevenKey s; elevenVoiceId := elevenVoiceId s; audioBlobUrl :=
  audioBlobUrl s; isPlaying := isPlaying s; formData := formData s;
  localStorage := localStorage s; effects := effects s |}.
Definition with_plan (x : json) (s : state) : state :=
  {| darkMode := darkMode s; loading := loading s; imageLoading :=
  imageLoading s; ttsLoading := ttsLoading s; plan := x; currentStep :=
  currentStep s; expandedDay := expandedDay s; expandedMeal := expandedMeal
  s; dailyQuote := dailyQuote s; quoteLoading := quoteLoading s;
  selectedImage := selectedImage s; apiKey := apiKey s; elevenKey :=
  elevenKey s; elevenVoiceId := elevenVoiceId s; audioBlobUrl :=
  audioBlobUrl s; isPlaying := isPlaying s; formData := formData s;
  localStorage := localStorage s; effects := effects s |}.
Definition with_currentStep (x : step) (s : state) : state :=
  {| darkMode := darkMode s; loading := loading s; imageLoading :=
  imageLoading s; ttsLoading := ttsLoading s; plan := plan s; currentStep :=
  x; expandedDay := expandedDay s; expandedMeal := expandedMeal s;
  dailyQuote := dailyQuote s; quoteLoading := quoteLoading s; selectedImage
  := selectedImage s; apiKey := apiKey s; elevenKey := elevenKey s;
  elevenVoiceId := elevenVoiceId s; audioBlobUrl := audioBlobUrl s;
  isPlaying := isPlaying s; formData := formData s; localStorage :=
  localStorage s; effects := effects s |}.
Definition with_expandedDay (x : option nat) (s : state) : state :=
  {| darkMode := darkMode s; loading := loading s; imageLoading :=
  imageLoading s; ttsLoading := ttsLoading s; plan := plan s; currentStep :=
  currentStep s; expandedDay := x; expandedMeal := expandedMeal s;
  dailyQuote := dailyQuote s; quoteLoading := quoteLoading s; selectedImage
  := selectedImage s; apiKey := apiKey s; elevenKey := elevenKey s;
  elevenVoiceId := elevenVoiceId s; audioBlobUrl := audioBlobUrl s;
  isPlaying := isPlaying s; formData := formData s; localStorage :=
  localStorage s; effects := effects s |}.
Definition with_expandedMeal (x : option jsstring) (s : state) : state :=
  {| darkMode := darkMode s; loading := loading s; imageLoading :=
  imageLoading s; ttsLoading := ttsLoading s; plan := plan s; currentStep :=
  currentStep s; expandedDay := expandedDay s; expandedMeal := x; dailyQuote
  := dailyQuote s; quoteLoading := quoteLoading s; selectedImage :=
  selectedImage s; apiKey := apiKey s; elevenKey := elevenKey s;
  elevenVoiceId := elevenVoiceId s; audioBlobUrl := audioBlobUrl s;
  isPlaying := isPlaying s; formData := formData s; localStorage :=
  localStorage s; effects := effects s |}.
Definition with_dailyQuote (x : jsstring) (s : state) : state :=
  {| darkMode := darkMode s; loading := loading s; imageLoading :=
  imageLoading s; ttsLoading := ttsLoading s; plan := plan s; currentStep :=
  currentStep s; expandedDay := expandedDay s; expandedMeal := expandedMeal
  s; dailyQuote := x; quoteLoading := quoteLoading s; selectedImage :=
  selectedImage s; apiKey := apiKey s; elevenKey := elevenKey s;
  elevenVoiceId := elevenVoiceId s; audioBlobUrl := audioBlobUrl s;
  isPlaying := isPlaying s; formData := formData s; localStorage :=
  localStorage s; effects := effects s |}.
Definition with_quoteLoading (x : bool) (s : state) : state :=
  {| darkMode := darkMode s; loading := loading s; imageLoading :=
  imageLoading s; ttsLoading := ttsLoading s; plan := plan s; currentStep :=
  currentStep s; expandedDay := expandedDay s; expandedMeal := expandedMeal
  s; dailyQuote := dailyQuote s; quoteLoading := x; selectedImage :=
  selectedImage s; apiKey := apiKey s; elevenKey := elevenKey s;
  elevenVoiceId := elevenVoiceId s; audioBlobUrl := audioBlobUrl s;
  isPlaying := isPlaying s; formData := formData s; localStorage :=
  localStorage s; effects := effects s |}.
Definition with_selectedImage (x : option image) (s : state) : state :=
  {| darkMode := darkMode s; loading := loading s; imageLoading :=
  imageLoading s; ttsLoading := ttsLoading s; plan := plan s; currentStep :=
  currentStep s; expandedDay := expandedDay s; expandedMeal := expandedMeal
  s; dailyQuote := dailyQuote s; quoteLoading := quoteLoading s;
  selectedImage := x; apiKey := apiKey s; elevenKey := elevenKey s;
  elevenVoiceId := elevenVoiceId s; audioBlobUrl := audioBlobUrl s;
  isPlaying := isPlaying s; formData := formData s; localStorage :=
  localStorage s; effects := effects s |}.
Definition with_apiKey (x : jsstring) (s : state) : state :=
  {| darkMode := darkMode s; loading := loading s; imageLoading :=
  imageLoading s; ttsLoading := ttsLoading s; plan := plan s; currentStep :=
  currentStep s; expandedDay := expandedDay s; expandedMeal := expandedMeal
  s; dailyQuote := dailyQuote s; quoteLoading := quoteLoading s;
  selectedImage := selectedImage s; apiKey := x; elevenKey := elevenKey s;
  elevenVoiceId := elevenVoiceId s; audioBlobUrl := audioBlobUrl s;
  isPlaying := isPlaying s; formData := formData s; localStorage :=
  localStorage s; effects := effects s |}.
Definition with_elevenKey (x : jsstring) (s : state) : state :=
  {| darkMode := darkMode s; loading := loading s; imageLoading :=
  imageLoading s; ttsLoading := ttsLoading s; plan := plan s; currentStep :=
  currentStep s; expandedDay := expandedDay s; expandedMeal := expandedMeal
  s; dailyQuote := dailyQuote s; quoteLoading := quoteLoading s;
  selectedImage := selectedImage s; apiKey := apiKey s; elevenKey := x;
  elevenVoiceId := elevenVoiceId s; audioBlobUrl := audioBlobUrl s;
  isPlaying := isPlaying s; formData := formData s; localStorage :=
  localStorage s; effects := effects s |}.
Definition with_elevenVoiceId (x : jsstring) (s : state) : state :=
  {| darkMode := darkMode s; loading := loading s; imageLoading :=
  imageLoading s; ttsLoading := ttsLoading s; plan := plan s; currentStep :=
  currentStep s; expandedDay := expandedDay s; expandedMeal := expandedMeal
  s; dailyQuote := dailyQuote s; quoteLoading := quoteLoading s;
  selectedImage := selectedImage s; apiKey := apiKey s; elevenKey :=
  elevenKey s; elevenVoiceId := x; audioBlobUrl := audioBlobUrl s; isPlaying
  := isPlaying s; formData := formData s; localStorage := localStorage s;
  effects := effects s |}.
Definition with_audioBlobUrl (x : option jsstring) (s : state) : state :=
  {| darkMode := darkMode s; loading := loading s; imageLoading :=
  imageLoading s; ttsLoading := ttsLoading s; plan := plan s; currentStep :=
  currentStep s; expandedDay := expandedDay s; expandedMeal := expandedMeal
  s; dailyQuote := dailyQuote s; quoteLoading := quoteLoading s;
  selectedImage := selectedImage s; apiKey := apiKey s; elevenKey :=
  elevenKey s; elevenVoiceId := elevenVoiceId s; audioBlobUrl := x;
  isPlaying := isPlaying s; formData := formData s; localStorage :=
  localStorage s; effects := effects s |}.
Definition with_isPlaying (x : bool) (s : state) : state :=
  {| darkMode := darkMode s; loading := loading s; imageLoading :=
  imageLoading s; ttsLoading := ttsLoading s; plan := plan s; currentStep :=
  currentStep s; expandedDay := expandedDay s; expandedMeal := expandedMeal
  s; dailyQuote := dailyQuote s; quoteLoading := quoteLoading s;
  selectedImage := selectedImage s; apiKey := apiKey s; elevenKey :=
  elevenKey s; elevenVoiceId := elevenVoiceId s; audioBlobUrl :=
  audioBlobUrl s; isPlaying := x; formData := formData s; localStorage :=
  localStorage s; effects := effects s |}.
Definition with_formData (x : UserProfile) (s : state) : state :=
  {| darkMode := darkMode s; loading := loading s; imageLoading :=
  imageLoading s; ttsLoading := ttsLoading s; plan := plan s; currentStep :=
  currentStep s; expandedDay := expandedDay s; expandedMeal := expandedMeal
  s; dailyQuote := dailyQuote s; quoteLoading := quoteLoading s;
  selectedImage := selectedImage s; apiKey := apiKey s; elevenKey :=
  elevenKey s; elevenVoiceId := elevenVoiceId s; audioBlobUrl :=
  audioBlobUrl s; isPlaying := isPlaying s; formData := x; localStorage :=
  localStorage s; effects := effects s |}.
Definition with_localStorage (x : gmap string jsstring) (s : state) : state :=
  {| darkMode := darkMode s; loading := loading s; imageLoading :=
  imageLoading s; ttsLoading := ttsLoading s; plan := plan s; currentStep :=
  currentStep s; expandedDay := expandedDay s; expandedMeal := expandedMeal
  s; dailyQuote := dailyQuote s; quoteLoading := quoteLoading s;
  selectedImage := selectedImage s; apiKey := apiKey s; elevenKey :=
  elevenKey s; elevenVoiceId := elevenVoiceId s; audioBlobUrl :=
  audioBlobUrl s; isPlaying := isPlaying s; formData := formData s;
  localStorage := x; effects := effects s |}.
Definition with_effects (x : list effect) (s : state) : state :=
  {| darkMode := darkMode s; loading := loading s; imageLoading :=
  imageLoading s; ttsLoading := ttsLoading s; plan := plan s; currentStep :=
  currentStep s; expandedDay := expandedDay s; expandedMeal := expandedMeal
  s; dailyQuote := dailyQuote s; quoteLoading := quoteLoading s;
  selectedImage := selectedImage s; apiKey := apiKey s; elevenKey :=
  elevenKey s; elevenVoiceId := elevenVoiceId s; audioBlobUrl :=
  audioBlobUrl s; isPlaying := isPlaying s; formData := formData s;
  localStorage := localStorage s; effects := x |}.

(** ** Handlers

    A handler runs against the state; it returns normally or throws, and the
    state updates and effects it made before throwing stay. *)
Definition M (A : Type) : Type := state -> result A * state.

#[local] Instance M_ret : MRet M := fun A a s => (Ok a, s).
#[local] Instance M_bind : MBind M := fun A B k m s =>
  match m s with
  | (Ok a, s') => k a s'
  | (Throw e, s') => (Throw e, s')
  end.

Definition gets {A} (f : state -> A) : M A := fun s => (Ok (f s), s).
Definition modify (f : state -> state) : M unit := fun s => (Ok tt, f s).
Definition throw {A} (e : exn) : M A := fun s => (Throw e, s).
Definition emit (e : effect) : M unit :=
  modify (fun s => with_effects (effects s ++ [e]) s).

(** [try { body } catch (err) { handler(err) } finally { final }] *)
Definition tryCatchFinally {A} (body : M A) (handler : exn -> M A)
    (final : M unit) : M A := fun s =>
  let '(r, s1) := match body s with
                  | (Throw e, s') => handler e s'
                  | done => done
                  end in
  match final s1 with
  | (Ok _, s2) => (r, s2)
  | (Throw e, s2) => (Throw e, s2)
  end.

(** [await p]: resume with the value, or throw the rejection. *)
Definition await {A} (p : outcome A) : M A :=
  match p with
  | Resolved a => mret a
  | Rejected m => throw (Rejection m)
  end.

Definition alert (text : jsstring) : M unit := emit (Alert text).

Definition setLoading (b : bool) : M unit := modify (with_loading b).
Definition setImageLoading (b : bool) : M unit := modify (with_imageLoading b).
Definition setTtsLoading (b : bool) : M unit := modify (with_ttsLoading b).
Definition setPlan (v : json) : M unit := modify (with_plan v).
Definition setCurrentStep (x : step) : M unit := modify (with_currentStep x).
Definition setExpandedDay (x : option nat) : M unit := modify (with_expandedDay x).
Definition setExpandedMeal (x : option jsstring) : M unit :=
  modify (with_expandedMeal x).
Definition setSelectedImage (x : option image) : M unit :=
  modify (with_selectedImage x).
Definition setAudioBlobUrl (x : option jsstring) : M unit :=
  modify (with_audioBlobUrl x).
Definition setIsPlaying (b : bool) : M unit := modify (with_isPlaying b).
Definition setDarkMode (b : bool) : M unit := modify (with_darkMode b).
Definition setDailyQuote (q : jsstring) : M unit := modify (with_dailyQuote q).
Definition setQuoteLoading (b : bool) : M unit := modify (with_quoteLoading b).
Definition setApiKey (k : jsstring) : M unit := modify (with_apiKey k).
Definition setElevenKey (k : jsstring) : M unit := modify (with_elevenKey k).
Definition setElevenVoiceId (k : jsstring) : M unit :=
  modify (with_elevenVoiceId k).
Definition setFormData (f : UserProfile) : M unit := modify (with_formData f).

(** localStorage.setItem, removeItem.  The storage takes every write: its
    quota is not modelled. *)
Definition setItem (key : string) (v : jsstring) : M unit :=
  modify (fun s => with_localStorage (<[key := v]> (localStorage s)) s).
Definition removeItem (key : string) : M unit :=
  modify (fun s => with_localStorage (delete key (localStorage s)) s).

(** A string in a condition: the empty string is falsy. *)
Definition nonEmpty (s : jsstring) : bool := negb (jsstring_eqb s []).

(** [x || d] for what localStorage.getItem returns. *)
Definition orDefault (x : option jsstring) (d : jsstring) : jsstring :=
  match x with
  | Some s => if nonEmpty s then s else d
  | None => d
  end.

(** *** Start-up: the initial values given to useState *)

(** The initial plan (lines 72-77): the cached entry parsed, [null] when
    there is none, when it is empty, and when parsing throws. *)
Definition initialPlan (ls : gmap string jsstring) : json :=
  match ls !! "fitness_plan"%string with
  | Some cached =>
      if nonEmpty cached then
        match JSON_parse cached with
        | POk v _ => v
        | _ => JNull
        end
      else JNull
  | None => JNull
  end.

Definition initialStep (p : json) : step :=
  if truthy p then PlanStep else FormStep.

Definition initialFormData : UserProfile :=
  {| name := []; age := []; gender := u "male"; height := []; weight := [];
     fitnessGoal := u "weight_loss"; fitnessLevel := u "beginner";
     workoutLocation := u "gym"; dietaryPreference := u "non_veg";
     medicalHistory := []; stressLevel := u "moderate" |}.

Definition initialState (ls : gmap string jsstring) : state :=
  {| darkMode := bool_decide (ls !! "theme"%string = Some (u "dark"));
     loading := false; imageLoading := false; ttsLoading := false;
     plan := initialPlan ls;
     currentStep := initialStep (initialPlan ls);
     expandedDay := None; expandedMeal := None;
     dailyQuote := orDefault (ls !! "daily_quote"%string)
                             (u "Stay strong and consistent!");
     quoteLoading := false;
     selectedImage := None;
     apiKey := orDefault (ls !! "gemini_api"%string) [];
     elevenKey := orDefault (ls !! "eleven_key"%string) [];
     elevenVoiceId := orDefault (ls !! "eleven_voice"%string)
                                (u "21m00Tcm4TlvDq8ikWAM");
     audioBlobUrl := None; isPlaying := false;
     formData := initialFormData;
     localStorage := ls;
     effects := [] |}.

(** *** Plan generation (lines 136-196) *)

Definition getGemini : M unit :=
  k ← gets apiKey;
  if nonEmpty k then mret tt
  else throw (Error (u "Please enter your Gemini API key first!")).

(** [ai.models.generateContent(...)], awaited: the request goes out, then
    the handler resumes or throws. *)
Definition askOracle (E : env) (model : string) (c : contents) : M response :=
  emit (Request model c);;
  await (generateContent E model c).

(** [res?.candidates?.[0]?.content?.parts] *)
Definition responseParts (res : response) : option (list part) :=
  cs ← candidates res; c ← head cs; ct ← contentOf c; parts ct.

(** [res?.candidates?.[0]?.content?.parts?.[0]?.text?.trim() || ""] *)
Definition responseText (res : response) : jsstring :=
  default [] (trim <$> (ps ← responseParts res; p ← head ps; text p)).

(** U+274C, the cross mark that opens the failure notifications. *)
Definition crossMark : jsstring := [10060%N].

Definition generatePlan (E : env) : M unit :=
  k ← gets apiKey;
  if negb (nonEmpty k) then alert (u "Enter your Gemini API key first!")
  else
    setLoading true;;
    tryCatchFinally
      (getGemini;;
       form ← gets formData;
       res ← askOracle E "gemini-2.5-flash" (PlanPrompt form);
       let raw := responseText res in
       let clean := stripFence raw in
       json ← match JSON_parse clean with
              | POk v _ => mret v
              | _ => throw (SyntaxError clean)
              end;
       setPlan json;;
       setItem "fitness_plan" (JSON_stringify json);;
       setCurrentStep PlanStep)
      (fun err =>
         emit (ConsoleError err);;
         alert (crossMark ++ u " Failed to generate plan: " ++ message E err))
      (setLoading false).

(** *** The daily quote (lines 199-217) and the effects (lines 110-133) *)

Definition quotePrompt : jsstring :=
  u "Give one short motivational fitness quote under 15 words. Return only the quote, no quotation marks.".

Definition generateDailyQuote (E : env) : M unit :=
  k ← gets apiKey;
  if negb (nonEmpty k) then mret tt
  else
    setQuoteLoading true;;
    tryCatchFinally
      (getGemini;;
       res ← askOracle E "gemini-2.5-flash" (TextPrompt quotePrompt);
       let quote := orDefault (Some (responseText res)) (u "Stay consistent!") in
       setDailyQuote quote;;
       setItem "daily_quote" quote;;
       setItem "daily_quote_date" (today E))
      (fun err => emit (ConsoleError err))
      (setQuoteLoading false).

(** The effect on [darkMode]. *)
Definition themeEffect : M unit :=
  dark ← gets darkMode;
  emit (DarkClass dark);;
  setItem "theme" (if dark : bool then u "dark" else u "light").

(** The effect on [apiKey]: a quote a day, once a key is there. *)
Definition quoteEffect (E : env) : M unit :=
  ls ← gets localStorage;
  k ← gets apiKey;
  if bool_decide (ls !! "daily_quote_date"%string <> Some (today E)) && nonEmpty k
  then generateDailyQuote E
  else mret tt.

(** U+2705, the check mark of saveKeys. *)
Definition checkMark : jsstring := [9989%N].

Definition saveKeys : M unit :=
  k ← gets apiKey;
  setItem "gemini_api" (trim k);;
  ek ← gets elevenKey;
  setItem "eleven_key" (trim ek);;
  voice ← gets elevenVoiceId;
  setItem "eleven_voice" (trim voice);;
  alert (checkMark ++ u " API keys saved locally.").

(** *** Image generation (lines 220-249) *)

(** The template literal of the prompt; [name] is converted with
    ToString. *)
Definition imagePrompt (name : value) (type : jsstring) : result jsstring :=
  bindR (toStringValue name) (fun n =>
    Ok (if jsstring_eqb type (u "exercise")
        then u "Create a realistic high-quality photo of " ++ [34%N] ++ n
             ++ [34%N] ++ u " being performed in a modern gym. Dynamic lighting, crisp details, 4k."
        else u "Create a realistic high-quality food photo of " ++ [34%N] ++ n
             ++ [34%N] ++ u " plated beautifully, natural light, restaurant style, 4k.")).

(** The loop over the parts: the first part with an [inlineData] gives the
    data URL, [null] when no part has one. *)
Fixpoint findImage (ps : list part) : option jsstring :=
  match ps with
  | [] => None
  | p :: more =>
      match inline p with
      | Some d => Some (u "data:image/png;base64," ++ default (u "undefined") (data d))
      | None => findImage more
      end
  end.

Definition generateImage (E : env) (name : value) (type : jsstring) : M unit :=
  k ← gets apiKey;
  if negb (nonEmpty k) then alert (u "Enter your Gemini API key first!")
  else
    setImageLoading true;;
    tryCatchFinally
      (getGemini;;
       basePrompt ← match imagePrompt name type with
                    | Ok p => mret p
                    | Throw e => throw e
                    end;
       res ← askOracle E "gemini-2.5-flash-image" (TextPrompt basePrompt);
       match findImage (default [] (responseParts res)) with
       | None => throw (Error (u "No image data returned."))
       | Some url => setSelectedImage (Some {| imageName := name; dataUrl := url |})
       end)
      (fun err =>
         alert (crossMark ++ u " Image generation failed: " ++ message E err))
      (setImageLoading false).

(** *** Speech (lines 252-296) *)

(** The text of a section: its overview, or a fixed sentence. *)
Definition sectionText (p : json) (section : jsstring) : json :=
  if jsstring_eqb section (u "workout")
  then orElse (getOpt (getOpt (Some p) "workoutPlan") "overview")
              (JStr (u "Workout details."))
  else orElse (getOpt (getOpt (Some p) "dietPlan") "overview")
              (JStr (u "Diet details.")).

Definition speechUrl (voice : jsstring) : jsstring :=
  u "https://api.elevenlabs.io/v1/text-to-speech/" ++ voice ++ u "/stream".

(** The browser's synthesizer. *)
Definition speakNative (text : json) : M unit :=
  emit (Speak text 1);;
  setIsPlaying true.

Definition speakSection (E : env) (section : jsstring) : M unit :=
  p ← gets plan;
  if negb (truthy p) then mret tt
  else
    let text := sectionText p section in
    key ← gets elevenKey;
    returned ←
      (if nonEmpty key then
         tryCatchFinally
           (setTtsLoading true;;
            voice ← gets elevenVoiceId;
            let request := JSON_stringify (JObj [(u "text", text)]) in
            emit (Fetch (speechUrl voice) key request);;
            res ← await (fetch E (speechUrl voice) key request);
            b ← await (body res);
            setAudioBlobUrl (Some (createObjectURL E b));;
            emit (PlayLater 200);;
            mret true)
           (fun e =>
              emit (ConsoleWarn (u "ElevenLabs failed, using browser speech.") e);;
              mret false)
           (setTtsLoading false)
       else mret false);
    if returned : bool then mret tt else speakNative text.

(** *** Panels (lines 79-80, 542, 589) and the plan's buttons *)

(** [expandedDay === idx], [expandedMeal === meal]: the panel is drawn
    open. *)
Definition dayExpanded (s : state) (idx : nat) : bool :=
  bool_decide (expandedDay s = Some idx).
Definition mealExpanded (s : state) (meal : jsstring) : bool :=
  bool_decide (expandedMeal s = Some meal).

Definition toggleDay (idx : nat) : M unit :=
  s ← gets id;
  setExpandedDay (if dayExpanded s idx then None else Some idx).

Definition toggleMeal (meal : jsstring) : M unit :=
  s ← gets id;
  setExpandedMeal (if mealExpanded s meal then None else Some meal).

(** The Regenerate button (lines 501-505). *)
Definition regenerate : M unit :=
  removeItem "fitness_plan";;
  setPlan JNull;;
  setCurrentStep FormStep.

(** Closing the image overlay (lines 638, 648). *)
Definition closeImage : M unit := setSelectedImage None.

(** *** Document export (lines 299-350) *)

(** The export writes into a fresh jsPDF document and keeps the vertical
    position [y]; a step returns the calls it made on the document. *)
Definition pdfM (A : Type) : Type := Z -> result (A * list docOp * Z).

#[local] Instance pdfM_ret : MRet pdfM := fun A a y => Ok (a, [], y).
#[local] Instance pdfM_bind : MBind pdfM := fun A B k m y =>
  match m y with
  | Ok (a, ops, y1) =>
      match k a y1 with
      | Ok (b, ops', y2) => Ok (b, ops ++ ops', y2)
      | Throw e => Throw e
      end
  | Throw e => Throw e
  end.

Definition call (op : docOp) : pdfM unit := fun y => Ok (tt, [op], y).
Definition liftR {A} (r : result A) : pdfM A := fun y =>
  match r with
  | Ok a => Ok (a, [], y)
  | Throw e => Throw e
  end.

Definition margin : Z := 40.

(** [y += dy] *)
Definition advance (dy : Z) : pdfM unit := fun y => Ok (tt, [], y + dy).

(** One line of addLine: a new page when [y] has passed 780, the text at
    the margin, and [y] moved down by the line height. *)
Definition putLine (fontSize : Z) (line : jsstring) : pdfM unit := fun y =>
  let '(ops, y1) := if 780 <? y then ([AddPage], margin) else ([], y) in
  Ok (tt, ops ++ [Text line margin y1], y1 + (fontSize + 4)).

(** [lines.forEach(line => ...)] of addLine. *)
Fixpoint putLines (fontSize : Z) (lines : list jsstring) : pdfM unit :=
  match lines with
  | [] => mret tt
  | line :: more => putLine fontSize line;; putLines fontSize more
  end.

Definition addLine (E : env) (txt : value) (fontSize : Z) (bold : bool)
  : pdfM unit :=
  call (SetFontSize fontSize);;
  call (SetFont "helvetica" (if bold then "bold" else "normal"));;
  lines ← liftR (splitTextToSize E fontSize bold txt 515);
  putLines fontSize lines;;
  advance 6.

(** [arr.forEach((x, i) => f(x, i))]: a TypeError unless [arr] is an
    array. *)
Fixpoint forEachFrom (i : nat) (items : list json)
    (f : json -> nat -> pdfM unit) : pdfM unit :=
  match items with
  | [] => mret tt
  | x :: more => f x i;; forEachFrom (S i) more f
  end.

Definition forEach (arr : value) (f : json -> nat -> pdfM unit) : pdfM unit :=
  match arr with
  | Some (JArr items) => forEachFrom 0 items f
  | _ => liftR (Throw TypeError)
  end.

(** U+2022 and U+00D7 *)
Definition bullet : jsstring := [8226%N].
Definition times : jsstring := [215%N].

Definition str (s : jsstring) : value := Some (JStr s).

(** The template literal of an exercise line. *)
Definition exerciseLine (ex : json) : result jsstring :=
  bindR (getProp (Some ex) "name") (fun n =>
  bindR (toStringValue n) (fun sn =>
  bindR (getProp (Some ex) "sets") (fun v =>
  bindR (toStringValue v) (fun ss =>
  bindR (getProp (Some ex) "reps") (fun v =>
  bindR (toStringValue v) (fun sr =>
  bindR (getProp (Some ex) "rest") (fun v =>
  bindR (toStringValue v) (fun st =>
  Ok (bullet ++ u " " ++ sn ++ u ": " ++ ss ++ u " sets " ++ times ++ u " "
      ++ sr ++ u " reps (Rest: " ++ st ++ u ")"))))))))).

Definition dayHeading (day : json) : result jsstring :=
  bindR (getProp (Some day) "day") (fun d =>
  bindR (toStringValue d) (fun sd =>
  bindR (getProp (Some day) "focus") (fun f =>
  bindR (toStringValue f) (fun sf =>
  Ok (sd ++ u " - " ++ sf))))).

Definition mealBlock (E : env) (title : string) (arr : json) : pdfM unit :=
  addLine E (str (u title)) 12 true;;
  forEach (Some arr) (fun i _ =>
    line ← liftR (toStringJSON i);
    addLine E (str (bullet ++ u " " ++ line)) 12 false).

Definition natToString (n : nat) : jsstring := digits (Z.of_nat n).

(** The body of exportPDF once a plan is held. *)
Definition exportDocument (E : env) (p : json) (form : UserProfile)
  : pdfM unit :=
  addLine E (str (u "AI FITNESS COACH - PERSONALIZED PLAN")) 16 true;;
  addLine E (str (u "Generated for: "
                  ++ (if nonEmpty (name form) then name form else u "Anonymous")))
          12 false;;
  addLine E (str (u "Date: " ++ today E)) 12 false;;
  addLine E (str (u " ")) 12 false;;

  addLine E (str (u "MOTIVATIONAL QUOTE")) 14 true;;
  quote ← liftR (getProp (Some p) "motivationalQuote");
  addLine E quote 12 false;;

  addLine E (str (u "WORKOUT PLAN")) 14 true;;
  workoutPlan ← liftR (getProp (Some p) "workoutPlan");
  overview ← liftR (getProp workoutPlan "overview");
  addLine E overview 12 false;;
  workoutPlan ← liftR (getProp (Some p) "workoutPlan");
  days ← liftR (getProp workoutPlan "days");
  forEach days (fun day _ =>
    heading ← liftR (dayHeading day);
    addLine E (str heading) 12 true;;
    exercises ← liftR (getProp (Some day) "exercises");
    forEach exercises (fun ex _ =>
      line ← liftR (exerciseLine ex);
      addLine E (str line) 12 false));;

  addLine E (str (u "DIET PLAN")) 14 true;;
  dietPlan ← liftR (getProp (Some p) "dietPlan");
  overview ← liftR (getProp dietPlan "overview");
  addLine E overview 12 false;;
  dietPlan ← liftR (getProp (Some p) "dietPlan");
  m ← liftR (getProp dietPlan "meals");
  breakfast ← liftR (getProp m "breakfast");
  mealBlock E "Breakfast" (orElse breakfast (JArr []));;
  lunch ← liftR (getProp m "lunch");
  mealBlock E "Lunch" (orElse lunch (JArr []));;
  dinner ← liftR (getProp m "dinner");
  mealBlock E "Dinner" (orElse dinner (JArr []));;
  snacks ← liftR (getProp m "snacks");
  mealBlock E "Snacks" (orElse snacks (JArr []));;

  addLine E (str (u "LIFESTYLE TIPS")) 14 true;;
  tips ← liftR (getProp (Some p) "lifestyleTips");
  forEach (Some (orElse tips (JArr []))) (fun tip i =>
    line ← liftR (toStringJSON tip);
    addLine E (str (natToString (i + 1) ++ u ". " ++ line)) 12 false).

(** exportPDF: nothing without a plan; otherwise the document is written
    and saved.  An exception leaves the handler before [doc.save]. *)
Definition exportPDF (E : env) : M unit :=
  p ← gets plan;
  if negb (truthy p) then mret tt
  else
    form ← gets formData;
    match exportDocument E p form margin with
    | Ok (_, ops, _) => emit (Save "AI_Fitness_Plan.pdf" ops)
    | Throw e => throw e
    end.

(** ** Vocabulary of the properties *)

(** An effect that reaches the network. *)
Definition isNetwork (e : effect) : bool :=
  match e with
  | Request _ _ | Fetch _ _ _ => true
  | _ => false
  end.

(** Running a handler for its final state. *)
Definition after {A} (h : M A) (s : state) : state := (h s).2.

(** The notification of a failed plan generation. *)
Definition planFailure (E : env) (e : exn) : effect :=
  Alert (crossMark ++ u " Failed to generate plan: " ++ message E e).

(** A plan generation attempt that fails, with the exception the handler
    catches: the SDK rejects (a transport failure and a status outside 2xx
    alike), or the stripped response text is no JSON text. *)
Inductive attemptFails (E : env) (s : state) : exn -> Prop :=
| fails_rejected m :
    generateContent E "gemini-2.5-flash" (PlanPrompt (formData s)) = Rejected m ->
    attemptFails E s (Rejection m)
| fails_malformed res :
    generateContent E "gemini-2.5-flash" (PlanPrompt (formData s)) = Resolved res ->
    (forall v r, JSON_parse (stripFence (responseText res)) <> POk v r) ->
    attemptFails E s (SyntaxError (stripFence (responseText res))).

(** The clicks on the panels. *)
Inductive panelEvent :=
| ClickDay (idx : nat)
| ClickMeal (meal : jsstring).

Definition click (ev : panelEvent) : M unit :=
  match ev with
  | ClickDay idx => toggleDay idx
  | ClickMeal meal => toggleMeal meal
  end.

(** What happens to the running application: the effects of the first
    rendering and the user's actions, each with the effects it sets off. *)
Inductive action :=
| Mount
| Click (ev : panelEvent)
| GeneratePlan
| NewQuote
| GenerateImage (name : value) (type : jsstring)
| SpeakSection (section : jsstring)
| ExportPDF
| Regenerate
| CloseImage
| ToggleDarkMode
| SaveKeys
| TypeApiKey (k : jsstring)
| TypeElevenKey (k : jsstring)
| TypeElevenVoiceId (k : jsstring)
| EditForm (f : UserProfile).

Definition perform (E : env) (a : action) : M unit :=
  match a with
  | Mount => themeEffect;; quoteEffect E
  | Click ev => click ev
  | GeneratePlan => generatePlan E
  | NewQuote => generateDailyQuote E
  | GenerateImage n t => generateImage E n t
  | SpeakSection sec => speakSection E sec
  | ExportPDF => exportPDF E
  | Regenerate => regenerate
  | CloseImage => closeImage
  | ToggleDarkMode => dark ← gets darkMode; setDarkMode (negb dark);; themeEffect
  | SaveKeys => saveKeys
  | TypeApiKey k => setApiKey k;; quoteEffect E
  | TypeElevenKey k => setElevenKey k
  | TypeElevenVoiceId k => setElevenVoiceId k
  | EditForm f => setFormData f
  end.

(** The states the application reaches from start-up. *)
Inductive reachable (E : env) (ls : gmap string jsstring) : state -> Prop :=
| reach_start : reachable E ls (initialState ls)
| reach_step s a : reachable E ls s -> reachable E ls (after (perform E a) s).

(** ** Plans

    The shape the prompt of generatePlan demands of the oracle (lines
    153-177): every leaf is a string.  The meal mapping is the member list
    of its object literal; the tips may be missing. *)
Record Exercise := {
  exName : jsstring;
  exSets : jsstring;
  exReps : jsstring;
  exRest : jsstring;
}.

Record Day := {
  dayLabel : jsstring;
  dayFocus : jsstring;
  dayExercises : list Exercise;
}.

Record Plan := {
  motivationalQuote : jsstring;
  workoutOverview : jsstring;
  days : list Day;
  dietOverview : jsstring;
  meals : list (jsstring * list jsstring);
  lifestyleTips : option (list jsstring);
}.

Definition exerciseJSON (ex : Exercise) : json :=
  JObj [(u "name", JStr (exName ex)); (u "sets", JStr (exSets ex));
        (u "reps", JStr (exReps ex)); (u "rest", JStr (exRest ex))].

Definition dayJSON (d : Day) : json :=
  JObj [(u "day", JStr (dayLabel d)); (u "focus", JStr (dayFocus d));
        (u "exercises", JArr (map exerciseJSON (dayExercises d)))].

Definition itemsJSON (items : list jsstring) : json := JArr (map JStr items).

Definition mealsJSON (ms : list (jsstring * list jsstring)) : json :=
  makeObject (map (fun m : jsstring * list jsstring => (m.1, itemsJSON m.2)) ms).

(** The JSON value of a plan, as JSON.parse builds it from the oracle's
    text. *)
Definition planJSON (P : Plan) : json :=
  JObj ([(u "motivationalQuote", JStr (motivationalQuote P));
         (u "workoutPlan",
          JObj [(u "overview", JStr (workoutOverview P));
                (u "days", JArr (map dayJSON (days P)))]);
         (u "dietPlan",
          JObj [(u "overview", JStr (dietOverview P));
                (u "meals", mealsJSON (meals P))])]
        ++ match lifestyleTips P with
           | Some tips => [(u "lifestyleTips", itemsJSON tips)]
           | None => []
           end).

Fixpoint hasSlot (k : jsstring) (ms : list (jsstring * list jsstring)) : bool :=
  match ms with
  | [] => false
  | (k', _) :: more => jsstring_eqb k k' || hasSlot k more
  end.

(** The items of a meal slot: those of its last member in the mapping,
    none when the mapping has no such slot. *)
Fixpoint slot (k : jsstring) (ms : list (jsstring * list jsstring))
  : list jsstring :=
  match ms with
  | [] => []
  | (k', items) :: more =>
      if hasSlot k more then slot k more
      else if jsstring_eqb k k' then items else []
  end.

(** *** The document, paragraph by paragraph

    What exportPDF hands to addLine, in order: the text with its font size
    and weight. *)
Definition paragraph : Type := jsstring * Z * bool.

Definition exerciseText (ex : Exercise) : jsstring :=
  bullet ++ u " " ++ exName ex ++ u ": " ++ exSets ex ++ u " sets " ++ times
  ++ u " " ++ exReps ex ++ u " reps (Rest: " ++ exRest ex ++ u ")".

Definition itemText (item : jsstring) : jsstring := bullet ++ u " " ++ item.

Definition dayParagraphs (d : Day) : list paragraph :=
  (dayLabel d ++ u " - " ++ dayFocus d, 12, true)
  :: map (fun ex => (exerciseText ex, 12, false)) (dayExercises d).

Definition mealParagraphs (title : string) (items : list jsstring)
  : list paragraph :=
  (u title, 12, true) :: map (fun i => (itemText i, 12, false)) items.

Definition tipParagraphs (tips : list jsstring) : list paragraph :=
  imap (fun i tip => (natToString (i + 1) ++ u ". " ++ tip, 12, false)) tips.

Definition documentParagraphs (E : env) (form : UserProfile) (P : Plan)
  : list paragraph :=
  [(u "AI FITNESS COACH - PERSONALIZED PLAN", 16, true);
   (u "Generated for: "
      ++ (if nonEmpty (name form) then name form else u "Anonymous"), 12, false);
   (u "Date: " ++ today E, 12, false);
   (u " ", 12, false);
   (u "MOTIVATIONAL QUOTE", 14, true);
   (motivationalQuote P, 12, false);
   (u "WORKOUT PLAN", 14, true);
   (workoutOverview P, 12, false)]
  ++ concat (map dayParagraphs (days P))
  ++ [(u "DIET PLAN", 14, true);
      (dietOverview P, 12, false)]
  ++ mealParagraphs "Breakfast" (slot (u "breakfast") (meals P))
  ++ mealParagraphs "Lunch" (slot (u "lunch") (meals P))
  ++ mealParagraphs "Dinner" (slot (u "dinner") (meals P))
  ++ mealParagraphs "Snacks" (slot (u "snacks") (meals P))
  ++ [(u "LIFESTYLE TIPS", 14, true)]
  ++ tipParagraphs (default [] (lifestyleTips P)).

(** The paragraphs handed to addLine one after the other. *)
Fixpoint addLines (E : env) (ps : list paragraph) : pdfM unit :=
  match ps with
  | [] => mret tt
  | p :: more => addLine E (str p.1.1) p.1.2 p.2;; addLines E more
  end.

(** Two steps of the export that do the same from every position. *)
Definition sameRun {A} (m m' : pdfM A) : Prop := forall y, m y = m' y.

(** The lines a document shows, in the order they were written. *)
Definition textLines (ops : list docOp) : list jsstring :=
  omap (fun op => match op with Text line _ _ => Some line | _ => None end) ops.

(** jsPDF wraps every string it is given into the lines [wrap] names. *)
Definition wrapsStrings (E : env) (wrap : Z -> bool -> jsstring -> list jsstring)
  : Prop :=
  forall size bold s, splitTextToSize E size bold (str s) 515 = Ok (wrap size bold s).

(** The lines of the paragraphs, each wrapped under its font. *)
Definition wrapped (wrap : Z -> bool -> jsstring -> list jsstring)
    (ps : list paragraph) : list jsstring :=
  concat (map (fun p : paragraph => wrap p.1.2 p.2 p.1.1) ps).

(** The document exportPDF saved last, if it saved one. *)
Definition savedDocument (s : state) : option (list docOp) :=
  match last (effects s) with
  | Some (Save _ ops) => Some ops
  | _ => None
  end.

(** A plan with every slot and list the exporter reads present: a missing
    breakfast, lunch, dinner or snacks slot is added empty, missing tips
    become the empty list. *)
Definition addSlot (k : string) (ms : list (jsstring * list jsstring))
  : list (jsstring * list jsstring) :=
  if hasSlot (u k) ms then ms else ms ++ [(u k, [])].

Definition withDefaults (P : Plan) : Plan :=
  {| motivationalQuote := motivationalQuote P;
     workoutOverview := workoutOverview P;
     days := days P;
     dietOverview := dietOverview P;
     meals := addSlot "snacks" (addSlot "dinner" (addSlot "lunch"
                (addSlot "breakfast" (meals P))));
     lifestyleTips := Some (default [] (lifestyleTips P)) |}.

(** *** What the specification claims of the export

    One output line for each exercise and each meal item, in the order of
    the day list, the exercise lists, the meal mapping and the item
    lists. *)
Definition entriesInPlanOrder (P : Plan) : list jsstring :=
  map exerciseText (concat (map dayExercises (days P)))
  ++ match mealsJSON (meals P) with
     | JObj slots =>
         concat (map (fun kv : jsstring * json =>
                        match kv.2 with
                        | JArr items =>
                            omap (fun i => match i with
                                           | JStr t => Some (itemText t)
                                           | _ => None
                                           end) items
                        | _ => []
                        end) slots)
     | _ => []
     end.

(** The entry lines of a document: those that open with the bullet. *)
Definition entryLines (ops : list docOp) : list jsstring :=
  filter (fun line => strip_prefix bullet line <> None) (textLines ops).

(** ** Scripted surroundings, for the examples *)

(** A jsPDF that never wraps: every text is one line. *)
Definition oneLine (size : Z) (bold : bool) (v : value) (maxlen : Z)
  : result (list jsstring) :=
  bindR (toStringValue v) (fun s => Ok [s]).

(** An environment whose oracle and speech service answer as scripted. *)
Definition scripted (oracle : outcome response) (speech : outcome httpResponse)
  : env :=
  {| generateContent := fun _ _ => oracle;
     fetch := fun _ _ _ => speech;
     createObjectURL := fun _ => u "blob:audio";
     today := u "1/1/2026";
     engineMessage := fun e => match e with
                               | SyntaxError _ => u "Unexpected token"
                               | _ => u "Cannot read properties"
                               end;
     splitTextToSize := oneLine |}.

(** The oracle answers with one text part. *)
Definition textResponse (t : jsstring) : response :=
  {| candidates := Some [{| contentOf := Some {| parts :=
       Some [{| text := Some t; inline := None |}] |} |}] |}.

Definition offline : outcome httpResponse := Rejected (u "Failed to fetch").

Definition lineFeed : jsstring := [10%N].

Definition benchPress : Exercise :=
  {| exName := u "Bench Press"; exSets := u "3"; exReps := u "12";
     exRest := u "60s" |}.

Definition chestDay : Day :=
  {| dayLabel := u "Day 1"; dayFocus := u "Chest"; dayExercises := [benchPress] |}.

(** A plan whose oracle listed lunch before breakfast. *)
Definition lunchFirst : Plan :=
  {| motivationalQuote := u "Go";
     workoutOverview := u "Push";
     days := [chestDay];
     dietOverview := u "Eat";
     meals := [(u "lunch", [u "Rice"]); (u "breakfast", [u "Oats"]);
               (u "dinner", [u "Salmon"]); (u "snacks", [u "Nuts"])];
     lifestyleTips := Some [u "Sleep"] |}.

(** A plan without dinner, snacks and tips. *)
Definition sparsePlan : Plan :=
  {| motivationalQuote := u "Go";
     workoutOverview := u "Push";
     days := [chestDay];
     dietOverview := u "Eat";
     meals := [(u "breakfast", [u "Oats"]); (u "lunch", [u "Rice"])];
     lifestyleTips := None |}.

(** The application with a plan on display and both keys entered. *)
Definition showing (p : json) : state :=
  with_elevenKey (u "speech-key")
    (with_apiKey (u "text-key")
       (with_currentStep PlanStep (with_plan p (initialState ∅)))).

(** The prompt of the image request for the bench press. *)
Definition benchPressPrompt : jsstring :=
  match imagePrompt (str (u "Bench Press")) (u "exercise") with
  | Ok p => p
  | Throw _ => []
  end.

(** The application at start-up with the text key entered. *)
Definition keyed : state := with_apiKey (u "text-key") (initialState ∅).

(** The oracle's text for [lunchFirst], bare, in a fence tagged json and in
    a fence without a tag. *)
Definition planText : jsstring := JSON_stringify (planJSON lunchFirst).
Definition taggedFence (t : jsstring) : jsstring :=
  fence ++ u "json" ++ lineFeed ++ t ++ lineFeed ++ fence.
Definition bareFence (t : jsstring) : jsstring :=
  fence ++ lineFeed ++ t ++ lineFeed ++ fence.

Definition answering (t : jsstring) : env :=
  scripted (Resolved (textResponse t)) offline.

(** The speech service refuses the key: status 401 and an error body. *)
Definition unauthorized : outcome httpResponse :=
  Resolved {| status := 401; body := Resolved (u "invalid_api_key") |}.

Definition isSpeak (e : effect) : bool :=
  match e with
  | Speak _ _ => true
  | _ => false
  end.

(** ** Well-formed values and reloading *)

(** The enumeration order of two distinct own keys: array indices ascend
    and come before the other keys. *)
Definition keyBefore (k1 k2 : jsstring) : Prop :=
  k1 <> k2
  /\ match arrayIndex k1, arrayIndex k2 with
     | Some i, Some j => (i < j)%Z
     | None, Some _ => False
     | _, _ => True
     end.

(** The properties of an object as the engine holds them. *)
Definition canonical (props : list (jsstring * json)) : Prop :=
  StronglySorted keyBefore (map fst props).

(** A value all of whose objects are canonical. *)
Fixpoint wfJSON (v : json) : Prop :=
  match v with
  | JArr items =>
      (fix all (l : list json) : Prop :=
         match l with
         | [] => True
         | x :: r => wfJSON x /\ all r
         end) items
  | JObj props =>
      canonical props
      /\ (fix all (l : list (jsstring * json)) : Prop :=
            match l with
            | [] => True
            | kv :: r => wfJSON kv.2 /\ all r
            end) props
  | _ => True
  end.

(** A Number that JSON.stringify writes as a numeric literal denoting that
    same Number.  The infinities are written [null], and negative zero is
    written [0]. *)
Definition numberSurvives (x : number) : bool :=
  match x with
  | Infinite _ => false
  | Finite _ _ _ =>
      match parseNumber (numberToString x) with
      | Some (y, []) => number_eqb y x
      | _ => false
      end
  end.

Fixpoint numbersSurvive (v : json) : bool :=
  match v with
  | JNum x => numberSurvives x
  | JArr items => forallb numbersSurvive items
  | JObj props => forallb (fun kv : jsstring * json => numbersSurvive kv.2) props
  | _ => true
  end.

(** The nesting depth of a value, from 1. *)
Fixpoint depth (v : json) : nat :=
  match v with
  | JArr items => S (foldr (fun x d => Nat.max (depth x) d) 0%nat items)
  | JObj props =>
      S (foldr (fun (kv : jsstring * json) d => Nat.max (depth kv.2) d) 0%nat props)
  | _ => 1%nat
  end.

(** What may follow a value inside a JSON text written by
    JSON.stringify: nothing, a comma or a closing bracket. *)
Definition delimited (rest : jsstring) : Prop :=
  match rest with
  | [] => True
  | c :: _ => c = 44%N \/ c = 93%N \/ c = 125%N
  end.

(** The first code unit of a written value: no white space and no closing
    bracket. *)
Definition opensValue (s : jsstring) : Prop :=
  exists c r, s = c :: r
    /\ isJSONWhiteSpace c = false /\ (c =? 93)%N = false /\ (c =? 125)%N = false
    /\ (c =? 44)%N = false.

(** A value that reads back wherever a delimiter follows it. *)
Definition readsBack (f : nat) (x : json) : Prop :=
  forall rest, delimited rest ->
    parseValue f (JSON_stringify x ++ rest) = POk x rest.

(** The text of a member. *)
Definition memberText (kv : jsstring * json) : jsstring :=
  quoteJSONString kv.1 ++ 58%N :: JSON_stringify kv.2.

(** Reloading the page: the state is initialised anew from the storage. *)
Definition reload (s : state) : state := initialState (localStorage s).

(** A code unit between quotes. *)
Definition quoted (s : jsstring) : jsstring := 34%N :: s ++ [34%N].

(** An oracle text whose exercise has a number of sets too large for a
    Number: the plan of one exercise, Plank, with sets 1e999. *)
Definition overflowText : jsstring :=
  u "{" ++ quoted (u "workoutPlan") ++ u ":{" ++ quoted (u "days") ++ u ":[{"
  ++ quoted (u "exercises") ++ u ":[{" ++ quoted (u "name") ++ u ":"
  ++ quoted (u "Plank") ++ u "," ++ quoted (u "sets") ++ u ":1e999}]}]}}".

Definition overflowPlan (sets : json) : json :=
  JObj [(u "workoutPlan",
         JObj [(u "days",
                JArr [JObj [(u "exercises",
                             JArr [JObj [(u "name", JStr (u "Plank"));
                                         (u "sets", sets)]])]])])].

(** An oracle text with numbers for sets and reps. *)
Definition numericText : jsstring :=
  u "{" ++ quoted (u "name") ++ u ":" ++ quoted (u "Bench Press") ++ u ","
  ++ quoted (u "sets") ++ u ":3," ++ quoted (u "reps") ++ u ":12,"
  ++ quoted (u "load") ++ u ":62.5}".

(** The value of [numericText]. *)
Definition numericPlan : json :=
  Eval vm_compute in
    match JSON_parse numericText with
    | POk v _ => v
    | _ => JNull
    end.

(** The request speakSection sends for a section. *)
Definition speechBody (s : state) (section : jsstring) : jsstring :=
  JSON_stringify (JObj [(u "text", sectionText (plan s) section)]).

Definition speechAnswer (E : env) (s : state) (section : jsstring)
  : outcome httpResponse :=
  fetch E (speechUrl (elevenVoiceId s)) (elevenKey s) (speechBody s section).

Definition speechRequest (s : state) (section : jsstring) : effect :=
  Fetch (speechUrl (elevenVoiceId s)) (elevenKey s) (speechBody s section).

Definition speechWarning (m : jsstring) : effect :=
  ConsoleWarn (u "ElevenLabs failed, using browser speech.") (Rejection m).

(** The speech service is reached and its body cannot be read. *)
Definition brokenBody : outcome httpResponse :=
  Resolved {| status := 200; body := Rejected (u "network error") |}.

(** ** The view (lines 413-630)

    What the component hands to React for the main area: the form, or the
    plan view.  The expressions between the braces of the JSX are evaluated
    while the component function runs; one that throws ends the rendering.
    The values are recorded as they are handed over. *)

(** [items.map((x, i) => f(x, i))] *)
Fixpoint mapFrom {A B} (i : nat) (items : list A) (f : A -> nat -> result B)
  : result (list B) :=
  match items with
  | [] => Ok []
  | x :: more =>
      bindR (f x i) (fun y =>
      bindR (mapFrom (S i) more f) (fun ys => Ok (y :: ys)))
  end.

(** [arr.map(f)]: a TypeError unless [arr] is an array. *)
Definition mapArray {B} (arr : value) (f : json -> nat -> result B)
  : result (list B) :=
  match arr with
  | Some (JArr items) => mapFrom 0 items f
  | _ => Throw TypeError
  end.

(** [Object.entries(v)]: the own enumerable properties; those of a string
    are its code units, a boolean and a number have none, [null] and
    [undefined] are a TypeError. *)
Definition entries (v : value) : result (list (jsstring * json)) :=
  match v with
  | None | Some JNull => Throw TypeError
  | Some (JObj props) => Ok props
  | Some (JArr items) => Ok (imap (fun i x => (natToString i, x)) items)
  | Some (JStr s) => Ok (imap (fun i c => (natToString i, JStr [c])) s)
  | Some _ => Ok []
  end.

(** An exercise of an open day panel (lines 555-570). *)
Record exerciseRow := {
  rowKey : jsstring;
  shownName : value;
  shownSets : value;
  shownReps : value;
  shownRest : value;
}.

(** A day panel (lines 539-574); its rows are built when it is open. *)
Record dayPanel := {
  dayKey : jsstring;
  shownDay : value;
  shownFocus : value;
  dayRows : option (list exerciseRow);
}.

Record mealRow := { itemKey : jsstring; shownItem : json }.

(** A meal panel (lines 586-613). *)
Record mealPanel := {
  mealTitle : jsstring;
  mealRows : option (list mealRow);
}.

Record planView := {
  shownQuote : value;
  speechBusy : bool;
  audioSource : option jsstring;
  shownWorkout : value;
  dayPanels : list dayPanel;
  shownDiet : value;
  mealPanels : list mealPanel;
  shownTips : list (nat * json);
}.

Definition renderExercise (ex : json) (i : nat) : result exerciseRow :=
  bindR (getProp (Some ex) "name") (fun n =>
  bindR (toStringValue n) (fun sn =>
  bindR (getProp (Some ex) "sets") (fun sets =>
  bindR (getProp (Some ex) "reps") (fun reps =>
  bindR (getProp (Some ex) "rest") (fun rest =>
  Ok {| rowKey := sn ++ u "-" ++ natToString i;
        shownName := n; shownSets := sets; shownReps := reps;
        shownRest := rest |}))))).

Definition renderDay (open : option nat) (day : json) (idx : nat)
  : result dayPanel :=
  bindR (getProp (Some day) "day") (fun d =>
  bindR (toStringValue d) (fun sd =>
  bindR (getProp (Some day) "focus") (fun f =>
  bindR (if bool_decide (open = Some idx)
         then bindR (getProp (Some day) "exercises") (fun exercises =>
              bindR (mapArray exercises renderExercise) (fun rows =>
              Ok (Some rows)))
         else Ok None) (fun rows =>
  Ok {| dayKey := sd ++ u "-" ++ natToString idx;
        shownDay := d; shownFocus := f; dayRows := rows |})))).

Definition renderMeal (open : option jsstring) (entry : jsstring * json)
    (_ : nat) : result mealPanel :=
  let '(meal, items) := entry in
  bindR (if bool_decide (open = Some meal)
         then bindR (mapArray (Some items) (fun item i =>
                       Ok {| itemKey := meal ++ u "-" ++ natToString i;
                             shownItem := item |})) (fun rows =>
              Ok (Some rows))
         else Ok None) (fun rows =>
  Ok {| mealTitle := meal; mealRows := rows |}).

(** [audioBlobUrl && ...]: the audio element is there once a URL is. *)
Definition audioOf (s : state) : option jsstring :=
  match audioBlobUrl s with
  | Some url => if nonEmpty url then Some url else None
  | None => None
  end.

(** The plan view (lines 472-629), for a truthy plan. *)
Definition renderPlan (s : state) : result planView :=
  let p := Some (plan s) in
  bindR (getProp p "motivationalQuote") (fun quote =>
  bindR (getProp p "workoutPlan") (fun workoutPlan =>
  bindR (getProp workoutPlan "overview") (fun workout =>
  bindR (getProp workoutPlan "days") (fun days =>
  bindR (mapArray days (renderDay (expandedDay s))) (fun dayPanels =>
  bindR (getProp p "dietPlan") (fun dietPlan =>
  bindR (getProp dietPlan "overview") (fun diet =>
  bindR (getProp dietPlan "meals") (fun meals =>
  bindR (entries meals) (fun slots =>
  bindR (mapFrom 0 slots (renderMeal (expandedMeal s))) (fun mealPanels =>
  bindR (getProp p "lifestyleTips") (fun tips =>
  bindR (mapArray tips (fun tip i => Ok ((i + 1)%nat, tip))) (fun shownTips =>
  Ok {| shownQuote := quote;
        speechBusy := ttsLoading s;
        audioSource := audioOf s;
        shownWorkout := workout;
        dayPanels := dayPanels;
        shownDiet := diet;
        mealPanels := mealPanels;
        shownTips := shownTips |})))))))))))).

(** The main area: [currentStep === form && ...] gives the form, and
    [currentStep === plan && plan && ...] the plan view, or the falsy plan
    itself as the child. *)
Inductive mainView :=
| FormView (form : UserProfile) (busy : bool)
| PlanView (v : planView)
| Child (p : json).

Definition render (s : state) : result mainView :=
  match currentStep s with
  | FormStep => Ok (FormView (formData s) (loading s))
  | PlanStep =>
      if truthy (plan s) then bindR (renderPlan s) (fun v => Ok (PlanView v))
      else Ok (Child (plan s))
  end.

(** *** The view of a plan of the demanded shape *)

Definition rowOf (i : nat) (ex : Exercise) : exerciseRow :=
  {| rowKey := exName ex ++ u "-" ++ natToString i;
     shownName := str (exName ex); shownSets := str (exSets ex);
     shownReps := str (exReps ex); shownRest := str (exRest ex) |}.

Definition dayPanelOf (open : option nat) (idx : nat) (d : Day) : dayPanel :=
  {| dayKey := dayLabel d ++ u "-" ++ natToString idx;
     shownDay := str (dayLabel d);
     shownFocus := str (dayFocus d);
     dayRows := if bool_decide (open = Some idx)
                then Some (imap rowOf (dayExercises d)) else None |}.

Definition itemRows (meal : jsstring) (items : list jsstring) : list mealRow :=
  imap (fun i item => {| itemKey := meal ++ u "-" ++ natToString i;
                         shownItem := JStr item |}) items.

(** The properties of the meal mapping, as the engine enumerates them, and
    their names. *)
Definition mealSlots (P : Plan) : list (jsstring * json) :=
  foldl defineOwn []
    (map (fun m : jsstring * list jsstring => (m.1, itemsJSON m.2)) (meals P)).

Definition mealNames (P : Plan) : list jsstring := map fst (mealSlots P).

Definition mealPanelOf (P : Plan) (open : option jsstring) (meal : jsstring)
  : mealPanel :=
  {| mealTitle := meal;
     mealRows := if bool_decide (open = Some meal)
                 then Some (itemRows meal (slot meal (meals P))) else None |}.

Definition planViewOf (s : state) (P : Plan) : planView :=
  {| shownQuote := str (motivationalQuote P);
     speechBusy := ttsLoading s;
     audioSource := audioOf s;
     shownWorkout := str (workoutOverview P);
     dayPanels := imap (dayPanelOf (expandedDay s)) (days P);
     shownDiet := str (dietOverview P);
     mealPanels := map (mealPanelOf P (expandedMeal s)) (mealNames P);
     shownTips := imap (fun i tip => ((i + 1)%nat, JStr tip))
                       (default [] (lifestyleTips P)) |}.

(** ** Vocabulary of the further properties *)

Definition isRequest (e : effect) : bool :=
  match e with
  | Request _ _ => true
  | _ => false
  end.

Definition isFetch (e : effect) : bool :=
  match e with
  | Fetch _ _ _ => true
  | _ => false
  end.

(** The requests made to the oracle, and to the speech service, so far. *)
Definition requests (s : state) : list effect :=
  filter (fun e => isRequest e = true) (effects s).
Definition fetches (s : state) : list effect :=
  filter (fun e => isFetch e = true) (effects s).

Definition isAlert (e : effect) : bool :=
  match e with
  | Alert _ => true
  | _ => false
  end.

Definition alerts (s : state) : list effect :=
  filter (fun e => isAlert e = true) (effects s).

(** The key the handlers of an action see. *)
Definition keyInForce (a : action) (s : state) : jsstring :=
  match a with
  | TypeApiKey k => k
  | _ => apiKey s
  end.

(** The storage entries an action may write. *)
Definition writes (a : action) : list string :=
  match a with
  | Mount => ["theme"; "daily_quote"; "daily_quote_date"]
  | GeneratePlan | Regenerate => ["fitness_plan"]
  | NewQuote | TypeApiKey _ => ["daily_quote"; "daily_quote_date"]
  | ToggleDarkMode => ["theme"]
  | SaveKeys => ["gemini_api"; "eleven_key"; "eleven_voice"]
  | _ => []
  end%string.

(** No handler is at work. *)
Definition idle (s : state) : Prop :=
  loading s = false /\ imageLoading s = false
  /\ ttsLoading s = false /\ quoteLoading s = false.

(** A call that puts text on the page puts it at the left margin, between
    the top margin and the bound of addLine. *)
Definition onPage (op : docOp) : Prop :=
  match op with
  | Text _ x y => x = margin /\ (margin <= y <= 780)%Z
  | _ => True
  end.

(** A step of the export that, begun at or below the top margin, puts its
    text on the page and ends at or below the top margin. *)
Definition paginates {A} (m : pdfM A) : Prop :=
  forall y a ops y',
    (margin <= y)%Z -> m y = Ok (a, ops, y') ->
    Forall onPage ops /\ (margin <= y')%Z.

(** A plan without one of the parts exportPDF reads unguarded: the days are
    no array, or there is no meal mapping. *)
Definition lacksRequired (p : json) : Prop :=
  (forall items,
     getOpt (getOpt (Some p) "workoutPlan") "days" <> Some (JArr items))
  \/ getOpt (getOpt (Some p) "dietPlan") "meals" = undefined
  \/ getOpt (getOpt (Some p) "dietPlan") "meals" = Some JNull.

(** A handler that leaves an observation of the state as it was, however
    it ends. *)
Definition leaves {A B} (f : state -> B) (m : M A) : Prop :=
  forall s, f (after m s) = f s.

(** A plan whose tips are no array. *)
Definition lacksTips (p : json) : Prop :=
  forall items, getOpt (Some p) "lifestyleTips" <> Some (JArr items).

(** An evaluation whose only exception is the engine's TypeError. *)
Definition onlyTypeError {A} (r : result A) : Prop :=
  forall e, r = Throw e -> e = TypeError.

(** The state a successful generation ends in (lines 186-189, 194). *)
Definition accepted (v : json) (s : state) : state :=
  with_loading false
    (with_currentStep PlanStep
       (with_localStorage
          (<["fitness_plan"%string := JSON_stringify v]> (localStorage s))
          (with_plan v
             (with_effects
                (effects s ++ [Request "gemini-2.5-flash"
                                 (PlanPrompt (formData s))])
                (with_loading true s))))).

(** The voice a blank voice field is replaced with at start-up. *)
Definition defaultVoice : jsstring := u "21m00Tcm4TlvDq8ikWAM".

(** The quote generateDailyQuote shows for a response. *)
Definition quoteOf (res : response) : jsstring :=
  if nonEmpty (responseText res) then responseText res
  else u "Stay consistent!".

(** The oracle answers with the given parts. *)
Definition partsResponse (ps : list part) : response :=
  {| candidates := Some [{| contentOf := Some {| parts := Some ps |} |}] |}.

Definition picture (d : jsstring) : part :=
  {| text := None; inline := Some {| data := Some d |} |}.

Definition caption (t : jsstring) : part :=
  {| text := Some t; inline := None |}.

(** An answer that is an object with a quote and nothing else. *)
Definition quoteOnly : json := JObj [(u "motivationalQuote", JStr (u "Go"))].

(** The oracle draws: a caption, then two pictures. *)
Definition drawing : response :=
  partsResponse [caption (u "Here it is"); picture (u "iVBORw0KGgo=");
                 picture (u "AAAA")].

(** The application after the text key has been typed at start-up. *)
Definition typed (E : env) : state :=
  after (perform E (TypeApiKey (u "text-key"))) (initialState ∅).

(** ** The prompt of generatePlan (lines 147-177) *)

(** [parts.join(sep)] *)
Fixpoint joinWith (sep : jsstring) (parts : list jsstring) : jsstring :=
  match parts with
  | [] => []
  | [p] => p
  | p :: more => p ++ sep ++ joinWith sep more
  end.

(** JSON.stringify(value, null, gap) at the indentation [indent]: an empty
    array and an empty object are written closed; otherwise every element
    and member has a line of its own, indented by one more gap, and a colon
    is followed by a space. *)
Fixpoint stringifyIndented (gap indent : jsstring) (v : json) : jsstring :=
  match v with
  | JArr [] => u "[]"
  | JArr items =>
      91%N :: 10%N :: (indent ++ gap)
      ++ joinWith (44%N :: 10%N :: indent ++ gap)
           (map (stringifyIndented gap (indent ++ gap)) items)
      ++ 10%N :: indent ++ [93%N]
  | JObj [] => u "{}"
  | JObj props =>
      123%N :: 10%N :: (indent ++ gap)
      ++ joinWith (44%N :: 10%N :: indent ++ gap)
           (map (fun kv : jsstring * json =>
                   quoteJSONString kv.1 ++ 58%N :: 32%N
                   :: stringifyIndented gap (indent ++ gap) kv.2)
                props)
      ++ 10%N :: indent ++ [125%N]
  | _ => JSON_stringify v
  end.

(** The fields of the form, in the order of the object of line 95. *)
Definition formFields (f : UserProfile) : list (jsstring * jsstring) :=
  [(u "name", name f); (u "age", age f); (u "gender", gender f);
   (u "height", height f); (u "weight", weight f);
   (u "fitnessGoal", fitnessGoal f); (u "fitnessLevel", fitnessLevel f);
   (u "workoutLocation", workoutLocation f);
   (u "dietaryPreference", dietaryPreference f);
   (u "medicalHistory", medicalHistory f); (u "stressLevel", stressLevel f)].

(** [formData] as a value. *)
Definition formObject (f : UserProfile) : json :=
  JObj (map (fun kv : jsstring * jsstring => (kv.1, JStr kv.2)) (formFields f)).

(** [JSON.stringify(formData, null, 2)] *)
Definition dataBlock (f : UserProfile) : jsstring :=
  stringifyIndented (u "  ") [] (formObject f).

(** The structure the prompt shows to the oracle (lines 153-177). *)
Definition promptExample : jsstring :=
  joinWith lineFeed
    [
     u "{";
     u "  " ++ quoted (u "motivationalQuote") ++ u ": "
       ++ quoted (u "A powerful motivational quote") ++ u ",";
     u "  " ++ quoted (u "workoutPlan") ++ u ": {";
     u "    " ++ quoted (u "overview") ++ u ": "
       ++ quoted (u "Brief overview of the workout philosophy") ++ u ",";
     u "    " ++ quoted (u "days") ++ u ": [";
     u "      {";
     u "        " ++ quoted (u "day") ++ u ": " ++ quoted (u "Day 1")
       ++ u ",";
     u "        " ++ quoted (u "focus") ++ u ": "
       ++ quoted (u "Chest & Triceps") ++ u ",";
     u "        " ++ quoted (u "exercises") ++ u ": [";
     u "          { " ++ quoted (u "name") ++ u ": "
       ++ quoted (u "Bench Press") ++ u ", " ++ quoted (u "sets") ++ u ": "
       ++ quoted (u "3") ++ u ", " ++ quoted (u "reps") ++ u ": "
       ++ quoted (u "12") ++ u ", " ++ quoted (u "rest") ++ u ": "
       ++ quoted (u "60s") ++ u " }";
     u "        ]";
     u "      }";
     u "    ]";
     u "  },";
     u "  " ++ quoted (u "dietPlan") ++ u ": {";
     u "    " ++ quoted (u "overview") ++ u ": "
       ++ quoted (u "Diet philosophy and calorie target") ++ u ",";
     u "    " ++ quoted (u "meals") ++ u ": {";
     u "      " ++ quoted (u "breakfast") ++ u ": ["
       ++ quoted (u "Oatmeal with fruits") ++ u ", "
       ++ quoted (u "Protein shake") ++ u "],";
     u "      " ++ quoted (u "lunch") ++ u ": ["
       ++ quoted (u "Grilled chicken breast") ++ u ", "
       ++ quoted (u "Brown rice") ++ u ", " ++ quoted (u "Vegetables") ++ u "],";
     u "      " ++ quoted (u "dinner") ++ u ": [" ++ quoted (u "Salmon")
       ++ u ", " ++ quoted (u "Sweet potato") ++ u ", " ++ quoted (u "Salad")
       ++ u "],";
     u "      " ++ quoted (u "snacks") ++ u ": ["
       ++ quoted (u "Greek yogurt") ++ u ", " ++ quoted (u "Nuts") ++ u "]";
     u "    }";
     u "  },";
     u "  " ++ quoted (u "lifestyleTips") ++ u ": [" ++ quoted (u "Tip 1")
       ++ u ", " ++ quoted (u "Tip 2") ++ u ", " ++ quoted (u "Tip 3") ++ u "]";
     u "}"
    ].

(** The template literal of the prompt. *)
Definition promptText (f : UserProfile) : jsstring :=
  lineFeed
  ++ u "You are an expert AI fitness coach. Create a personalized fitness plan based on the following user data:"
  ++ lineFeed ++ lineFeed ++ dataBlock f ++ lineFeed ++ lineFeed
  ++ u "Return ONLY valid JSON with this exact structure (no markdown, no extra text):"
  ++ lineFeed ++ promptExample.

(** The string handed to the oracle as [contents]. *)
Definition contentsText (c : contents) : jsstring :=
  match c with
  | PlanPrompt f => promptText f
  | TextPrompt t => t
  end.

(** A member of an object of strings, as written with a gap. *)
Definition stringMember (kv : jsstring * jsstring) : jsstring :=
  quoteJSONString kv.1 ++ 58%N :: 32%N :: quoteJSONString kv.2.

(** * Properties *)

(** ** Handlers step by step *)

Lemma jsstring_eqb_eq (a b : jsstring) : jsstring_eqb a b = true <-> a = b.
Proof.
  revert b; induction a as [|x a IH]; intros [|y b]; simpl; try easy.
  rewrite andb_true_iff, N.eqb_eq, IH. split.
  - intros [-> ->]; reflexivity.
  - intros [= -> ->]; auto.
Qed.

Lemma jsstring_eqb_refl (a : jsstring) : jsstring_eqb a a = true.
Proof. apply jsstring_eqb_eq; reflexivity. Qed.

Lemma nonEmpty_false (k : jsstring) : nonEmpty k = false <-> k = [].
Proof. unfold nonEmpty; destruct k; simpl; split; congruence. Qed.

#[local] Arguments u : simpl never.
#[local] Arguments stripFence : simpl never.
#[local] Arguments JSON_parse : simpl never.
#[local] Arguments JSON_stringify : simpl never.
#[local] Arguments responseText : simpl never.
#[local] Arguments responseParts : simpl never.
#[local] Arguments imagePrompt : simpl never.
#[local] Arguments message : simpl never.
#[local] Arguments nonEmpty : simpl never.
#[local] Arguments truthy : simpl never.
#[local] Arguments sectionText : simpl never.
#[local] Arguments speechUrl : simpl never.
#[local] Arguments exportDocument : simpl never.

(** Unfolds a handler down to the state it returns. *)
Ltac run_handler :=
  cbv [after generatePlan generateImage generateDailyQuote speakSection
       speakNative exportPDF regenerate closeImage toggleDay toggleMeal click
       perform getGemini askOracle await alert emit gets modify throw
       tryCatchFinally themeEffect quoteEffect saveKeys
       setLoading setImageLoading setTtsLoading setPlan setCurrentStep
       setExpandedDay setExpandedMeal setSelectedImage setAudioBlobUrl
       setIsPlaying setDarkMode setDailyQuote setQuoteLoading setApiKey
       setElevenKey setElevenVoiceId setFormData setItem removeItem
       mbind mret M_bind M_ret];
  cbn [fst snd darkMode loading imageLoading ttsLoading plan currentStep
       expandedDay expandedMeal dailyQuote quoteLoading selectedImage apiKey
       elevenKey elevenVoiceId audioBlobUrl isPlaying formData localStorage
       effects
       with_darkMode with_loading with_imageLoading with_ttsLoading with_plan
       with_currentStep with_expandedDay with_expandedMeal with_dailyQuote
       with_quoteLoading with_selectedImage with_apiKey with_elevenKey
       with_elevenVoiceId with_audioBlobUrl with_isPlaying with_formData
       with_localStorage with_effects].

(** C1.  With an empty text-generation key, generatePlan issues no request:
    all it does is raise the missing-credential alert.  The held plan, the
    stored plan and the view step are as before. *)
Theorem generatePlan_missing_credential (E : env) (s : state) :
  apiKey s = [] ->
  let s' := after (generatePlan E) s in
  effects s' = effects s ++ [Alert (u "Enter your Gemini API key first!")]
  /\ filter (fun e => isNetwork e = true) (effects s')
     = filter (fun e => isNetwork e = true) (effects s)
  /\ plan s' = plan s
  /\ localStorage s' = localStorage s
  /\ currentStep s' = currentStep s.
Proof.
  intros Hk%nonEmpty_false. run_handler. rewrite Hk. cbn.
  repeat split. rewrite filter_app. cbn. apply app_nil_r.
Qed.

(** C3.  A generation attempt that fails (the SDK rejects, or the stripped
    response is no JSON text) is reported by the failure alert, after the
    one request and the console trace; the held plan, the stored plan and
    the view step are as before the attempt. *)
Theorem generatePlan_failure_preserves (E : env) (s : state) (e : exn) :
  nonEmpty (apiKey s) = true ->
  attemptFails E s e ->
  let s' := after (generatePlan E) s in
  effects s' = effects s ++ [Request "gemini-2.5-flash" (PlanPrompt (formData s));
                             ConsoleError e; planFailure E e]
  /\ plan s' = plan s
  /\ localStorage s' = localStorage s
  /\ currentStep s' = currentStep s.
Proof.
  intros Hk Hfail. run_handler. rewrite Hk. cbn. rewrite Hk. cbn.
  destruct Hfail as [m Hrej | res Hres Hbad].
  - rewrite Hrej. cbn. rewrite <- !app_assoc. auto.
  - rewrite Hres. cbn.
    destruct (JSON_parse (stripFence (responseText res))) as [v r| |] eqn:Hp.
    + destruct (Hbad v r); reflexivity.
    + cbn. rewrite <- !app_assoc. auto.
    + cbn. rewrite <- !app_assoc. auto.
Qed.

(** C8.  When no part of the image oracle's response carries inline data,
    generateImage raises the failure alert and the displayed image is the
    one selected before. *)
Theorem generateImage_no_payload (E : env) (s : state)
    (name : value) (type prompt : jsstring) (res : response) :
  nonEmpty (apiKey s) = true ->
  imagePrompt name type = Ok prompt ->
  generateContent E "gemini-2.5-flash-image" (TextPrompt prompt) = Resolved res ->
  Forall (fun p => inline p = None) (default [] (responseParts res)) ->
  let s' := after (generateImage E name type) s in
  selectedImage s' = selectedImage s
  /\ effects s' = effects s ++
       [Request "gemini-2.5-flash-image" (TextPrompt prompt);
        Alert (crossMark ++ u " Image generation failed: No image data returned.")].
Proof.
  intros Hk Hp Hres Hnone. run_handler. rewrite Hk. cbn. rewrite Hk. cbn.
  rewrite Hp. cbn. rewrite Hres. cbn.
  assert (findImage (default [] (responseParts res)) = None) as ->.
  { induction Hnone as [|p ps Hp' _ IH]; cbn; [reflexivity|].
    rewrite Hp'. exact IH. }
  cbn. rewrite <- !app_assoc. auto.
Qed.



(** C10, as stated, fails: the stored text [null] is valid JSON, and the
    application starts on the form. *)
Lemma startup_valid_entry_on_form :
  JSON_parse (u "null") = POk JNull []
  /\ currentStep (initialState {[ "fitness_plan"%string := u "null" ]}) = FormStep.
Proof.
  split; [vm_compute; reflexivity|].
  cbn. unfold initialPlan. rewrite lookup_singleton_eq. vm_compute. reflexivity.
Qed.

(** C10, amended.  Start-up never fails.  Without a stored plan, and with
    one that is no JSON text, the held plan is [null] and the view is the
    form.  A stored JSON text gives its value as the held plan, and the
    plan view exactly when that value is truthy, as every object is; [null],
    [false], [0] and the empty string give the form. *)
Theorem startup_plan_and_step (ls : gmap string jsstring) :
  let s := initialState ls in
  match ls !! "fitness_plan"%string with
  | None => plan s = JNull /\ currentStep s = FormStep
  | Some cached =>
      match JSON_parse cached with
      | POk v _ => plan s = v
                   /\ currentStep s = (if truthy v then PlanStep else FormStep)
      | _ => plan s = JNull /\ currentStep s = FormStep
      end
  end.
Proof.
  cbn. unfold initialPlan, initialStep.
  destruct (ls !! "fitness_plan"%string) as [cached|]; [|split; reflexivity].
  destruct (nonEmpty cached) eqn:Hc.
  - destruct (JSON_parse cached); split; reflexivity.
  - apply nonEmpty_false in Hc. subst cached.
    change (JSON_parse []) with (@PErr json). split; reflexivity.
Qed.

(** ** Own properties of plain objects *)

Lemma jsstring_eqb_decide (a b : jsstring) :
  jsstring_eqb a b = bool_decide (a = b).
Proof.
  destruct (jsstring_eqb a b) eqn:H.
  - apply jsstring_eqb_eq in H. subst. symmetry. apply bool_decide_eq_true. reflexivity.
  - symmetry. apply bool_decide_eq_false. intros ->.
    rewrite jsstring_eqb_refl in H. discriminate.
Qed.

(** Decides the comparisons of keys met in a goal. *)
Ltac key_cases :=
  rewrite ?jsstring_eqb_decide in *;
  repeat case_bool_decide; subst; cbn in *; try congruence; try reflexivity.

Lemma hasKey_false_getOwn k ps : hasKey k ps = false -> getOwn k ps = None.
Proof.
  induction ps as [|[k0 v0] r IH]; cbn; [reflexivity|].
  intros [H1 H2]%orb_false_elim. rewrite H1. auto.
Qed.

Lemma getOwn_replaceOwn k k' v ps :
  hasKey k' ps = true ->
  getOwn k (replaceOwn k' v ps) = if jsstring_eqb k k' then Some v else getOwn k ps.
Proof.
  induction ps as [|[k0 v0] r IH]; cbn; [discriminate|].
  destruct (jsstring_eqb k' k0) eqn:H0; cbn.
  - intros _. apply jsstring_eqb_eq in H0. subst. key_cases.
  - intros Hr. rewrite (IH Hr). key_cases.
Qed.

Lemma getOwn_insertIndex i k k' v ps :
  hasKey k' ps = false ->
  getOwn k (insertIndex i k' v ps) = if jsstring_eqb k k' then Some v else getOwn k ps.
Proof.
  induction ps as [|[k0 v0] r IH]; cbn; [reflexivity|].
  intros [H1 H2]%orb_false_elim.
  destruct (arrayIndex k0) as [j|]; [destruct (i <? j)%Z|]; cbn; try reflexivity.
  rewrite (IH H2). key_cases.
Qed.

Lemma getOwn_snoc k k' v ps :
  hasKey k' ps = false ->
  getOwn k (ps ++ [(k', v)]) = if jsstring_eqb k k' then Some v else getOwn k ps.
Proof.
  induction ps as [|[k0 v0] r IH]; cbn; [reflexivity|].
  intros [H1 H2]%orb_false_elim. rewrite (IH H2). key_cases.
Qed.

(** Reading a property after CreateDataProperty. *)
Lemma getOwn_defineOwn k k' v ps :
  getOwn k (defineOwn ps (k', v))
  = if jsstring_eqb k k' then Some v else getOwn k ps.
Proof.
  unfold defineOwn. destruct (hasKey k' ps) eqn:Hk.
  - apply getOwn_replaceOwn, Hk.
  - destruct (arrayIndex k').
    + apply getOwn_insertIndex, Hk.
    + apply getOwn_snoc, Hk.
Qed.

(** A slot of the meal mapping, read from the object built of it. *)
Lemma getOwn_meals k ms acc :
  getOwn k (foldl defineOwn acc
              (map (fun m : jsstring * list jsstring => (m.1, itemsJSON m.2)) ms))
  = if hasSlot k ms then Some (itemsJSON (slot k ms)) else getOwn k acc.
Proof.
  revert acc. induction ms as [|[k' items] more IH]; intros acc;
    cbn [map foldl fst snd hasSlot slot]; [reflexivity|].
  rewrite IH, getOwn_defineOwn.
  destruct (hasSlot k more); [rewrite orb_true_r; reflexivity|].
  rewrite orb_false_r. destruct (jsstring_eqb k k'); reflexivity.
Qed.

(** ** The document export *)

Section ExportSteps.
Context (E : env).

Lemma sameRun_refl {A} (m : pdfM A) : sameRun m m.
Proof. intros y; reflexivity. Qed.

Lemma sameRun_sym {A} (m m' : pdfM A) : sameRun m m' -> sameRun m' m.
Proof. intros H y; symmetry; apply H. Qed.

Lemma sameRun_trans {A} (m1 m2 m3 : pdfM A) :
  sameRun m1 m2 -> sameRun m2 m3 -> sameRun m1 m3.
Proof. intros H1 H2 y. rewrite H1. apply H2. Qed.

Lemma pdf_bind_cong {A B} (m m' : pdfM A) (k k' : A -> pdfM B) :
  sameRun m m' -> (forall a, sameRun (k a) (k' a)) ->
  sameRun (m ≫= k) (m' ≫= k').
Proof.
  intros Hm Hk y. unfold mbind, pdfM_bind. rewrite Hm.
  destruct (m' y) as [[[a ops] y1]|e]; [|reflexivity].
  rewrite Hk. reflexivity.
Qed.

Lemma pdf_ret_bind {A B} (a : A) (k : A -> pdfM B) :
  sameRun (mret a ≫= k) (k a).
Proof.
  intros y. unfold mbind, mret, pdfM_bind, pdfM_ret.
  destruct (k a y) as [[[b ops] y1]|e]; reflexivity.
Qed.

Lemma pdf_bind_ret (m : pdfM unit) : sameRun (m;; mret tt) m.
Proof.
  intros y. unfold mbind, mret, pdfM_bind, pdfM_ret.
  destruct (m y) as [[[[] ops] y1]|e]; [|reflexivity].
  rewrite app_nil_r. reflexivity.
Qed.

Lemma pdf_bind_assoc {A B C} (m : pdfM A) (k : A -> pdfM B) (k' : B -> pdfM C) :
  sameRun ((m ≫= k) ≫= k') (m ≫= (fun a => k a ≫= k')).
Proof.
  intros y. unfold mbind, pdfM_bind.
  destruct (m y) as [[[a ops] y1]|e]; [|reflexivity].
  destruct (k a y1) as [[[b ops1] y2]|e]; [|reflexivity].
  destruct (k' b y2) as [[[c ops2] y3]|e]; [|reflexivity].
  rewrite app_assoc. reflexivity.
Qed.

(** Reading a property that is there costs nothing. *)
Lemma pdf_liftR_ok {A B} (r : result A) (a : A) (k : A -> pdfM B) :
  r = Ok a -> sameRun (liftR r ≫= k) (k a).
Proof. intros ->. apply pdf_ret_bind. Qed.

Lemma addLines_app (ps qs : list paragraph) :
  sameRun (addLines E (ps ++ qs)) (addLines E ps;; addLines E qs).
Proof.
  induction ps as [|p ps IH]; cbn [app addLines].
  - apply sameRun_sym, (pdf_ret_bind tt (fun _ => addLines E qs)).
  - eapply sameRun_trans; [|apply sameRun_sym, pdf_bind_assoc].
    apply pdf_bind_cong; [apply sameRun_refl|]. intros _. exact IH.
Qed.

(** A step that does what [addLines ps] does, before a rest that does
    what [addLines qs] does. *)
Lemma addLines_seq (m rest : pdfM unit) (ps qs : list paragraph) :
  sameRun m (addLines E ps) -> sameRun rest (addLines E qs) ->
  sameRun (m;; rest) (addLines E (ps ++ qs)).
Proof.
  intros Hm Hr. eapply sameRun_trans; [|apply sameRun_sym, addLines_app].
  apply pdf_bind_cong; [exact Hm|]. intros _. exact Hr.
Qed.

Lemma addLines_cons (t : jsstring) (size : Z) (bold : bool)
    (rest : pdfM unit) (qs : list paragraph) :
  sameRun rest (addLines E qs) ->
  sameRun (addLine E (str t) size bold;; rest) (addLines E ((t, size, bold) :: qs)).
Proof.
  intros Hr. cbn [addLines fst snd].
  apply pdf_bind_cong; [apply sameRun_refl|]. intros _. exact Hr.
Qed.

(** Steps over a property read that succeeds. *)
Ltac read_ok :=
  eapply sameRun_trans; [apply pdf_liftR_ok; reflexivity|]; cbn beta.

Lemma exerciseLine_exerciseJSON ex :
  exerciseLine (exerciseJSON ex) = Ok (exerciseText ex).
Proof. reflexivity. Qed.

Lemma dayHeading_dayJSON d :
  dayHeading (dayJSON d) = Ok (dayLabel d ++ u " - " ++ dayFocus d).
Proof. reflexivity. Qed.

Lemma forEach_exercises i exs :
  sameRun
    (forEachFrom i (map exerciseJSON exs) (fun ex _ =>
       line ← liftR (exerciseLine ex);
       addLine E (str line) 12 false))
    (addLines E (map (fun ex => (exerciseText ex, 12, false)) exs)).
Proof.
  revert i. induction exs as [|ex exs IH]; intros i; cbn [map forEachFrom addLines fst snd].
  - apply sameRun_refl.
  - apply pdf_bind_cong; [|intros _; apply IH].
    read_ok. apply sameRun_refl.
Qed.

Lemma forEach_days i ds :
  sameRun
    (forEachFrom i (map dayJSON ds) (fun day _ =>
       heading ← liftR (dayHeading day);
       addLine E (str heading) 12 true;;
       exercises ← liftR (getProp (Some day) "exercises");
       forEach exercises (fun ex _ =>
         line ← liftR (exerciseLine ex);
         addLine E (str line) 12 false)))
    (addLines E (concat (map dayParagraphs ds))).
Proof.
  revert i. induction ds as [|d ds IH]; intros i;
    cbn [map forEachFrom concat].
  - apply sameRun_refl.
  - apply addLines_seq; [|apply IH].
    read_ok. apply addLines_cons.
    read_ok. apply forEach_exercises.
Qed.

Lemma forEach_items i items :
  sameRun
    (forEachFrom i (map JStr items) (fun item _ =>
       line ← liftR (toStringJSON item);
       addLine E (str (bullet ++ u " " ++ line)) 12 false))
    (addLines E (map (fun it => (itemText it, 12, false)) items)).
Proof.
  revert i. induction items as [|it items IH]; intros i;
    cbn [map forEachFrom addLines fst snd].
  - apply sameRun_refl.
  - apply pdf_bind_cong; [|intros _; apply IH].
    read_ok. apply sameRun_refl.
Qed.

Lemma mealBlock_items title items :
  sameRun (mealBlock E title (itemsJSON items))
          (addLines E (mealParagraphs title items)).
Proof.
  unfold mealBlock, mealParagraphs. apply addLines_cons.
  apply forEach_items.
Qed.

Lemma forEach_tips i tips :
  sameRun
    (forEachFrom i (map JStr tips) (fun tip j =>
       line ← liftR (toStringJSON tip);
       addLine E (str (natToString (j + 1) ++ u ". " ++ line)) 12 false))
    (addLines E (imap (fun j tip =>
                         (natToString (i + j + 1) ++ u ". " ++ tip, 12, false))
                      tips)).
Proof.
  revert i. induction tips as [|tip tips IH]; intros i;
    cbn [map forEachFrom addLines imap fst snd].
  - apply sameRun_refl.
  - rewrite Nat.add_0_r. apply pdf_bind_cong.
    + read_ok. apply sameRun_refl.
    + intros _. eapply sameRun_trans; [apply IH|].
      erewrite imap_ext; [apply sameRun_refl|].
      intros j x _. unfold compose.
      replace (S i + j + 1)%nat with (i + S j + 1)%nat by lia. reflexivity.
Qed.

Lemma slot_absent k ms : hasSlot k ms = false -> slot k ms = [].
Proof.
  induction ms as [|[k' items] more IH]; cbn; [reflexivity|].
  intros [H1 H2]%orb_false_elim. rewrite H1, H2. reflexivity.
Qed.

(** [m.breakfast || []] and its like. *)
Lemma getProp_meals (k : string) ms :
  exists v, getProp (Some (mealsJSON ms)) k = Ok v
            /\ orElse v (JArr []) = itemsJSON (slot (u k) ms).
Proof.
  unfold mealsJSON, makeObject. cbn [getProp].
  rewrite getOwn_meals. destruct (hasSlot (u k) ms) eqn:Hs.
  - eexists; split; reflexivity.
  - rewrite (slot_absent _ _ Hs). eexists; split; reflexivity.
Qed.

(** [plan.lifestyleTips || []] *)
Lemma getProp_tips P :
  exists v, getProp (Some (planJSON P)) "lifestyleTips" = Ok v
            /\ orElse v (JArr []) = itemsJSON (default [] (lifestyleTips P)).
Proof.
  unfold planJSON. destruct (lifestyleTips P); eexists; split; reflexivity.
Qed.

(** Steps over a meal block. *)
Ltac meal_block P k :=
  let v := fresh "v" in
  let Hv := fresh "Hv" in
  let Hor := fresh "Hor" in
  destruct (getProp_meals k (meals P)) as (v & Hv & Hor);
  eapply sameRun_trans; [apply pdf_liftR_ok; exact Hv|]; cbn beta;
  rewrite Hor; apply addLines_seq; [apply mealBlock_items|].

(** On a plan of the demanded shape the export is the plain sequence of
    addLine calls on the paragraphs of the document. *)
Lemma exportDocument_planJSON (form : UserProfile) (P : Plan) :
  sameRun (exportDocument E (planJSON P) form)
          (addLines E (documentParagraphs E form P)).
Proof.
  unfold exportDocument, documentParagraphs. cbn [app].
  do 5 apply addLines_cons.
  read_ok. apply addLines_cons. apply addLines_cons.
  do 2 read_ok. apply addLines_cons.
  do 2 read_ok. cbn [forEach].
  apply addLines_seq; [apply forEach_days|]. cbn [app].
  apply addLines_cons.
  do 2 read_ok. apply addLines_cons.
  do 2 read_ok.
  meal_block P "breakfast"%string.
  meal_block P "lunch"%string.
  meal_block P "dinner"%string.
  meal_block P "snacks"%string.
  cbn [app]. apply addLines_cons.
  destruct (getProp_tips P) as (tips & Htips & Htor).
  eapply sameRun_trans; [apply pdf_liftR_ok; exact Htips|]; cbn beta.
  rewrite Htor. cbn [forEach itemsJSON]. apply (forEach_tips 0).
Qed.
End ExportSteps.

Section ExportLines.
Context (E : env) (wrap : Z -> bool -> jsstring -> list jsstring).
Hypothesis Hwrap : wrapsStrings E wrap.

Lemma textLines_app a b : textLines (a ++ b) = textLines a ++ textLines b.
Proof. apply omap_app. Qed.

Lemma putLines_lines size ls y :
  exists ops y', putLines size ls y = Ok (tt, ops, y') /\ textLines ops = ls.
Proof using Type.
  revert y. induction ls as [|l ls IH]; intros y; cbn [putLines].
  - eexists _, _; split; reflexivity.
  - unfold mbind, pdfM_bind, putLine.
    destruct (780 <? y)%Z.
    + destruct (IH (margin + (size + 4))%Z) as (ops & y' & -> & <-).
      eexists _, _; split; reflexivity.
    + destruct (IH (y + (size + 4))%Z) as (ops & y' & -> & <-).
      eexists _, _; split; reflexivity.
Qed.

Lemma addLine_lines t size bold y :
  exists ops y', addLine E (str t) size bold y = Ok (tt, ops, y')
                 /\ textLines ops = wrap size bold t.
Proof using Hwrap.
  unfold addLine, mbind, pdfM_bind, call, liftR, advance. rewrite Hwrap.
  destruct (putLines_lines size (wrap size bold t) y) as (ops & y' & -> & <-).
  eexists _, _; split; [reflexivity|].
  cbn. rewrite app_nil_r. reflexivity.
Qed.

(** The lines of a sequence of paragraphs are the wrapped paragraphs, in
    order. *)
Lemma addLines_lines ps y :
  exists ops y', addLines E ps y = Ok (tt, ops, y')
                 /\ textLines ops = wrapped wrap ps.
Proof using Hwrap.
  revert y. induction ps as [|[[t size] bold] ps IH]; intros y; cbn [addLines fst snd].
  - eexists _, _; split; reflexivity.
  - unfold mbind, pdfM_bind.
    destruct (addLine_lines t size bold y) as (ops & y1 & -> & Hl).
    destruct (IH y1) as (ops' & y' & -> & Hl').
    eexists _, _; split; [reflexivity|].
    rewrite textLines_app, Hl, Hl'. reflexivity.
Qed.

(** exportPDF on a plan of the demanded shape saves the document of its
    paragraphs. *)
Lemma exportPDF_planJSON (s : state) (P : Plan) :
  plan s = planJSON P ->
  exists ops y,
    addLines E (documentParagraphs E (formData s) P) margin = Ok (tt, ops, y)
    /\ exportPDF E s
       = (Ok tt, with_effects (effects s ++ [Save "AI_Fitness_Plan.pdf" ops]) s)
    /\ textLines ops = wrapped wrap (documentParagraphs E (formData s) P).
Proof using Hwrap.
  intros Hp.
  destruct (addLines_lines (documentParagraphs E (formData s) P) margin)
    as (ops & y & Hrun & Hl).
  exists ops, y. split; [exact Hrun|]. split; [|exact Hl].
  cbv [exportPDF gets mbind M_bind emit modify throw mret M_ret].
  rewrite Hp. cbn [negb]. change (truthy (planJSON P)) with true. cbn [negb].
  rewrite exportDocument_planJSON, Hrun. reflexivity.
Qed.
End ExportLines.

Lemma hasSlot_snoc k k' items ms :
  hasSlot k (ms ++ [(k', items)]) = hasSlot k ms || jsstring_eqb k k'.
Proof.
  induction ms as [|[k0 i0] more IH]; cbn; [apply orb_false_r|].
  rewrite IH, orb_assoc. reflexivity.
Qed.

(** An added empty slot changes the items of no slot. *)
Lemma slot_addSlot k (k' : string) ms : slot k (addSlot k' ms) = slot k ms.
Proof.
  unfold addSlot. destruct (hasSlot (u k') ms) eqn:Hs; [reflexivity|].
  induction ms as [|[k0 i0] more IH]; cbn [app slot hasSlot].
  - cbn. destruct (jsstring_eqb k (u k')); reflexivity.
  - cbn in Hs. apply orb_false_elim in Hs as [H0 Hs].
    rewrite hasSlot_snoc, (IH Hs).
    destruct (jsstring_eqb k (u k')) eqn:Hk.
    + apply jsstring_eqb_eq in Hk. subst k.
      rewrite Hs, H0, (slot_absent _ _ Hs). reflexivity.
    + rewrite orb_false_r. reflexivity.
Qed.

Lemma documentParagraphs_withDefaults E form P :
  documentParagraphs E form (withDefaults P) = documentParagraphs E form P.
Proof.
  unfold documentParagraphs, withDefaults. cbn [motivationalQuote workoutOverview
    days dietOverview meals lifestyleTips default].
  rewrite !slot_addSlot. reflexivity.
Qed.

(** C4, as stated, fails even on a jsPDF that never wraps: for a plan whose
    meal mapping lists lunch before breakfast, the document has the
    breakfast item before the lunch item. *)
Lemma export_entries_not_in_mapping_order :
  let E := scripted (Rejected []) offline in
  let s := showing (planJSON lunchFirst) in
  exists ops,
    savedDocument (after (exportPDF E) s) = Some ops
    /\ entryLines ops
       = [exerciseText benchPress; itemText (u "Oats"); itemText (u "Rice");
          itemText (u "Salmon"); itemText (u "Nuts")]
    /\ entriesInPlanOrder lunchFirst
       = [exerciseText benchPress; itemText (u "Rice"); itemText (u "Oats");
          itemText (u "Salmon"); itemText (u "Nuts")]
    /\ entryLines ops <> entriesInPlanOrder lunchFirst.
Proof.
  eexists. split; [vm_compute; reflexivity|].
  split; [vm_compute; reflexivity|].
  split; [vm_compute; reflexivity|].
  vm_compute. discriminate.
Qed.

(** C4, amended.  For a plan of the demanded shape exportPDF saves a
    document whose lines are the paragraphs of [documentParagraphs], each
    wrapped by jsPDF into its lines, in order: after each day heading one
    paragraph per exercise of the day, in the order of the day list and of
    the exercise lists; after each of the headings Breakfast, Lunch, Dinner
    and Snacks, in this fixed order, one paragraph per item of that slot,
    in the order of its item list.  No exercise and no item of these four
    slots is left out. *)
Theorem exportPDF_lines (E : env) (wrap : Z -> bool -> jsstring -> list jsstring)
    (s : state) (P : Plan) :
  wrapsStrings E wrap ->
  plan s = planJSON P ->
  exists ops,
    savedDocument (after (exportPDF E) s) = Some ops
    /\ textLines ops = wrapped wrap (documentParagraphs E (formData s) P).
Proof.
  intros Hwrap Hp.
  destruct (exportPDF_planJSON E wrap Hwrap s P Hp) as (ops & y & _ & Hrun & Hl).
  exists ops. split; [|exact Hl].
  unfold after, savedDocument. rewrite Hrun. cbn [snd effects with_effects].
  rewrite last_snoc. reflexivity.
Qed.

(** C9.  A plan that lacks any of the breakfast, lunch, dinner and snacks
    slots, or the tips, is exported all the same: exportPDF returns
    normally and saves a document whose lines are the wrapped paragraphs of
    [documentParagraphs], where a missing slot gives its heading and no
    items, and missing tips give the tips heading and no tips.  It is the
    very document exportPDF saves for the plan completed with empty slots
    and an empty list of tips. *)
Theorem exportPDF_tolerates_missing (E : env)
    (wrap : Z -> bool -> jsstring -> list jsstring) (s : state) (P : Plan) :
  wrapsStrings E wrap ->
  plan s = planJSON P ->
  exists ops,
    (exportPDF E s).1 = Ok tt
    /\ savedDocument (after (exportPDF E) s) = Some ops
    /\ textLines ops = wrapped wrap (documentParagraphs E (formData s) P)
    /\ savedDocument (after (exportPDF E) (with_plan (planJSON (withDefaults P)) s))
       = Some ops.
Proof.
  intros Hwrap Hp.
  destruct (exportPDF_planJSON E wrap Hwrap s P Hp)
    as (ops & y & Hdoc & Hrun & Hlines).
  destruct (exportPDF_planJSON E wrap Hwrap
              (with_plan (planJSON (withDefaults P)) s) (withDefaults P) eq_refl)
    as (ops' & y' & Hdoc' & Hrun' & _).
  cbn [formData with_plan] in Hdoc'.
  rewrite documentParagraphs_withDefaults, Hdoc in Hdoc'.
  injection Hdoc' as <- <-.
  exists ops. unfold after, savedDocument. rewrite Hrun, Hrun'.
  cbn [fst snd effects with_effects with_plan]. rewrite !last_snoc.
  repeat split. exact Hlines.
Qed.

(** ** Where the code falls short of its specification *)

(** C2.  The strip of generatePlan removes a fence tagged json, and only
    the closing half of a fence without a tag: of the same plan text the
    bare and the tagged form are parsed and shown, the untagged fence ends
    in the failure alert. *)
Lemma generatePlan_untagged_fence :
  let bare := after (generatePlan (answering planText)) keyed in
  let tagged := after (generatePlan (answering (taggedFence planText))) keyed in
  let untagged := after (generatePlan (answering (bareFence planText))) keyed in
  (plan bare = planJSON lunchFirst /\ currentStep bare = PlanStep)
  /\ (plan tagged = planJSON lunchFirst /\ currentStep tagged = PlanStep)
  /\ stripFence (trim (bareFence planText)) = fence ++ lineFeed ++ planText
  /\ JSON_parse (fence ++ lineFeed ++ planText) = PErr
  /\ plan untagged = JNull
  /\ currentStep untagged = FormStep
  /\ last (effects untagged)
     = Some (planFailure (answering (bareFence planText))
               (SyntaxError (fence ++ lineFeed ++ planText))).
Proof. vm_compute. repeat split; reflexivity. Qed.

(** C7.  When the speech service answers with an HTTP error status, the
    fetch resolves and nothing is thrown: speakSection takes the error body
    for audio and returns, and the native synthesizer is not used.  When
    the fetch is rejected, the same text is spoken natively. *)
Lemma speakSection_http_error_no_fallback :
  let s := showing (planJSON lunchFirst) in
  let refused := after (speakSection (scripted (Rejected []) unauthorized)
                                     (u "workout")) s in
  let failed := after (speakSection (scripted (Rejected []) offline)
                                    (u "workout")) s in
  filter (fun e => isSpeak e = true) (effects refused) = []
  /\ audioBlobUrl refused = Some (u "blob:audio")
  /\ last (effects refused) = Some (PlayLater 200)
  /\ filter (fun e => isSpeak e = true) (effects failed)
     = [Speak (JStr (u "Push")) 1].
Proof. vm_compute. repeat split; reflexivity. Qed.

(** *** speakSection, case by case *)

#[local] Arguments speechBody : simpl never.

(** Without a speech key the native synthesizer speaks the section, and
    nothing reaches the network. *)
Lemma speakSection_native_without_key (E : env) (s : state) (section : jsstring) :
  truthy (plan s) = true ->
  elevenKey s = [] ->
  after (speakSection E section) s
  = with_isPlaying true
      (with_effects (effects s ++ [Speak (sectionText (plan s) section) 1]) s).
Proof.
  intros Hp Hk%nonEmpty_false. run_handler. rewrite Hp. cbn. rewrite Hk. reflexivity.
Qed.

(** When the request or the reading of its body is rejected, the same text
    is spoken natively; the user sees no alert, the console a warning. *)
Lemma speakSection_fallback_on_rejection (E : env) (s : state)
    (section m : jsstring) :
  truthy (plan s) = true ->
  nonEmpty (elevenKey s) = true ->
  speechAnswer E s section = Rejected m
  \/ (exists st, speechAnswer E s section
                 = Resolved {| status := st; body := Rejected m |}) ->
  let s' := after (speakSection E section) s in
  effects s' = effects s ++ [speechRequest s section; speechWarning m;
                             Speak (sectionText (plan s) section) 1]
  /\ isPlaying s' = true
  /\ ttsLoading s' = false.
Proof.
  intros Hp Hk Hans. unfold speechAnswer, speechBody in Hans.
  run_handler. rewrite Hp. cbn. rewrite Hk. cbn.
  destruct Hans as [Hans|[st Hans]]; rewrite Hans; cbn;
    rewrite <- !app_assoc; auto.
Qed.

(** When the request resolves and its body is read, whatever the HTTP
    status, speakSection keeps the body as audio and returns: the native
    synthesizer stays silent. *)
Lemma speakSection_silent_when_resolved (E : env) (s : state)
    (section : jsstring) (st : N) (b : blob) :
  truthy (plan s) = true ->
  nonEmpty (elevenKey s) = true ->
  speechAnswer E s section = Resolved {| status := st; body := Resolved b |} ->
  let s' := after (speakSection E section) s in
  effects s' = effects s ++ [speechRequest s section; PlayLater 200]
  /\ audioBlobUrl s' = Some (createObjectURL E b)
  /\ isPlaying s' = isPlaying s.
Proof.
  intros Hp Hk Hans. unfold speechAnswer, speechBody in Hans.
  run_handler. rewrite Hp. cbn. rewrite Hk. cbn. rewrite Hans. cbn.
  rewrite <- !app_assoc. auto.
Qed.

(** ** The daily quote *)

(** When the oracle fails, the quote on display and the stored quote stay;
    the failure goes to the console only. *)
Lemma generateDailyQuote_failure_keeps_quote (E : env) (s : state) (m : jsstring) :
  nonEmpty (apiKey s) = true ->
  generateContent E "gemini-2.5-flash" (TextPrompt quotePrompt) = Rejected m ->
  let s' := after (generateDailyQuote E) s in
  dailyQuote s' = dailyQuote s
  /\ localStorage s' = localStorage s
  /\ effects s' = effects s ++ [Request "gemini-2.5-flash" (TextPrompt quotePrompt);
                                ConsoleError (Rejection m)].
Proof.
  intros Hk Hrej. run_handler. rewrite Hk. cbn. rewrite Hk. cbn.
  rewrite Hrej. cbn. rewrite <- !app_assoc. auto.
Qed.

(** ** The fence strip on a fence tagged json *)

Lemma skipWhiteSpace_split s :
  exists w, s = w ++ skipWhiteSpace s
            /\ Forall (fun c => isWhiteSpace c = true) w
            /\ match skipWhiteSpace s with
               | [] => True
               | c :: _ => isWhiteSpace c = false
               end.
Proof.
  induction s as [|c s (w & Hs & Hw & Hhead)]; [exists []; repeat split; constructor|].
  cbn [skipWhiteSpace]. destruct (isWhiteSpace c) eqn:Hc.
  - exists (c :: w). repeat split; [cbn; congruence|constructor; assumption|exact Hhead].
  - exists []. repeat split; [constructor|exact Hc].
Qed.

Lemma skipWhiteSpace_white w t :
  Forall (fun c => isWhiteSpace c = true) w ->
  skipWhiteSpace (w ++ t) = skipWhiteSpace t.
Proof.
  induction 1 as [|c w Hc _ IH]; [reflexivity|]. cbn [app skipWhiteSpace].
  rewrite Hc. exact IH.
Qed.

Lemma skipWhiteSpace_head c t :
  isWhiteSpace c = false -> skipWhiteSpace (c :: t) = c :: t.
Proof. intros H. cbn [skipWhiteSpace]. rewrite H. reflexivity. Qed.

(** A string that neither starts nor ends with white space is its own
    trim. *)
Lemma trim_tight c m d :
  isWhiteSpace c = false -> isWhiteSpace d = false ->
  trim (c :: m ++ [d]) = c :: m ++ [d].
Proof.
  intros Hc Hd. unfold trim. rewrite (skipWhiteSpace_head _ _ Hc).
  change (c :: m ++ [d]) with ((c :: m) ++ [d]). rewrite rev_app_distr.
  cbn [rev app]. rewrite (skipWhiteSpace_head _ _ Hd).
  change (d :: rev m ++ [c]) with ([d] ++ rev (c :: m)).
  rewrite rev_app_distr, rev_involutive. reflexivity.
Qed.

(** The trim of [s] and the white space after it. *)
Lemma trim_split s :
  exists w, skipWhiteSpace s = trim s ++ w
            /\ Forall (fun c => isWhiteSpace c = true) w
            /\ (trim s = [] \/ exists m d, trim s = m ++ [d] /\ isWhiteSpace d = false).
Proof.
  unfold trim. set (a := skipWhiteSpace s).
  destruct (skipWhiteSpace_split (rev a)) as (w & Hs & Hw & Hhead).
  exists (rev w). split; [|split].
  - rewrite <- rev_app_distr, <- Hs, rev_involutive. reflexivity.
  - apply Forall_rev, Hw.
  - destruct (skipWhiteSpace (rev a)) as [|d t]; [left; reflexivity|].
    right. exists (rev t), d. split; [reflexivity|exact Hhead].
Qed.

(** Where a visible code unit is ahead, the closing alternative does not
    match. *)
Lemma match_close_body b t :
  (exists m d, b = m ++ [d] /\ isWhiteSpace d = false) ->
  (3 <= length t)%nat ->
  match_close (b ++ t) = false.
Proof.
  intros (m & d & -> & Hd) Ht. unfold match_close.
  assert (length t < length (skipWhiteSpace ((m ++ [d]) ++ t)))%nat as Hlen.
  { induction m as [|c m IH]; cbn [app].
    - rewrite (skipWhiteSpace_head _ _ Hd). cbn. lia.
    - cbn [skipWhiteSpace]. destruct (isWhiteSpace c); [exact IH|].
      cbn [length]. rewrite !length_app. lia. }
  destruct (jsstring_eqb (skipWhiteSpace ((m ++ [d]) ++ t)) fence) eqn:He;
    [|reflexivity].
  apply jsstring_eqb_eq in He. rewrite He in Hlen. cbn in Hlen. lia.
Qed.

(** The scan keeps a body that ends visibly and deletes the white space
    and the fence after it. *)
Lemma strip_close_body b w :
  (b = [] \/ exists m d, b = m ++ [d] /\ isWhiteSpace d = false) ->
  Forall (fun c => isWhiteSpace c = true) w ->
  strip_close (b ++ w ++ fence) = b.
Proof.
  intros Hb Hw. induction b as [|c b IH].
  - cbn [app]. destruct (w ++ fence) as [|x t] eqn:Hwt.
    { destruct w; discriminate. }
    cbn [strip_close]. rewrite <- Hwt. unfold match_close.
    rewrite (skipWhiteSpace_white _ _ Hw). reflexivity.
  - destruct Hb as [|Hb]; [discriminate|].
    cbn [app strip_close].
    change (c :: b ++ w ++ fence) with ((c :: b) ++ w ++ fence).
    rewrite (match_close_body _ _ Hb) by (rewrite length_app; cbn; lia).
    f_equal. apply IH.
    destruct Hb as ([|c' m] & d & Heq & Hd).
    + left. destruct b; [reflexivity|]. destruct b; discriminate.
    + right. exists m, d. split; [|exact Hd]. cbn [app] in Heq. congruence.
Qed.

(** Of a response in a fence tagged json, the strip of generatePlan leaves
    the trimmed text between the fence lines, whatever that text is. *)
Lemma stripFence_tagged r : stripFence (trim (taggedFence r)) = trim r.
Proof.
  assert (trim (taggedFence r) = taggedFence r) as ->.
  { assert (taggedFence r
            = backtick :: (backtick :: backtick :: u "json" ++ lineFeed ++ r
                           ++ lineFeed ++ [backtick; backtick]) ++ [backtick]) as ->.
    { unfold taggedFence, fence. cbn [app]. do 3 f_equal.
      rewrite <- !app_assoc. reflexivity. }
    apply trim_tight; reflexivity. }
  unfold stripFence, match_open, taggedFence.
  assert (strip_prefix (fence ++ u "json")
            (fence ++ u "json" ++ lineFeed ++ r ++ lineFeed ++ fence)
          = Some (lineFeed ++ r ++ lineFeed ++ fence)) as -> by reflexivity.
  cbn [fmap option_fmap option_map].
  change (lineFeed ++ r ++ lineFeed ++ fence) with (10%N :: r ++ lineFeed ++ fence).
  cbn [skipWhiteSpace]. change (isWhiteSpace 10) with true. cbv iota.
  destruct (skipWhiteSpace_split r) as (w0 & Hr & Hw0 & _).
  destruct (trim_split r) as (w & Ha & Hw & Hb).
  rewrite Hr at 1. rewrite <- app_assoc, (skipWhiteSpace_white _ _ Hw0).
  destruct (skipWhiteSpace r) as [|c a] eqn:Hskip.
  - assert (trim r = []) as -> by (destruct (trim r); [reflexivity|discriminate]).
    reflexivity.
  - assert (skipWhiteSpace ((c :: a) ++ lineFeed ++ fence)
            = (c :: a) ++ lineFeed ++ fence) as ->.
    { destruct (skipWhiteSpace_split r) as (w1 & _ & _ & Hc). rewrite Hskip in Hc.
      apply (skipWhiteSpace_head _ _ Hc). }
    rewrite Ha, <- app_assoc, app_assoc with (l := w).
    apply strip_close_body; [exact Hb|].
    apply Forall_app. split; [exact Hw|repeat constructor].
Qed.

(** ** JSON texts and values *)

#[local] Arguments JSON_stringify : simpl nomatch.
#[local] Arguments JSON_parse : simpl nomatch.

(** Induction on JSON values, with the property for the items of an array
    and the values of an object. *)
Lemma json_ind (P : json -> Prop) :
  P JNull -> (forall b, P (JBool b)) -> (forall x, P (JNum x)) ->
  (forall s, P (JStr s)) ->
  (forall items, Forall P items -> P (JArr items)) ->
  (forall props, Forall (fun kv : jsstring * json => P kv.2) props -> P (JObj props)) ->
  forall v, P v.
Proof.
  intros Hnull Hbool Hnum Hstr Harr Hobj.
  fix IH 1. intros [| b | x | s | items | props].
  - apply Hnull.
  - apply Hbool.
  - apply Hnum.
  - apply Hstr.
  - apply Harr. induction items as [|x items IHl]; constructor; [apply IH|apply IHl].
  - apply Hobj. induction props as [|kv props IHl]; constructor; [apply IH|apply IHl].
Qed.

(** *** Strings *)

Lemma hexValue_hexDigit d : (d < 16)%N -> hexValue (hexDigit d) = Some d.
Proof.
  intros Hd.
  assert (d = 0 \/ d = 1 \/ d = 2 \/ d = 3 \/ d = 4 \/ d = 5 \/ d = 6 \/ d = 7
          \/ d = 8 \/ d = 9 \/ d = 10 \/ d = 11 \/ d = 12 \/ d = 13 \/ d = 14
          \/ d = 15)%N as H by lia.
  repeat (destruct H as [->|H]; [reflexivity|]). subst. reflexivity.
Qed.

Lemma hex_digits_value c :
  (c < 65536)%N ->
  ((((c / 4096 mod 16) * 16 + c / 256 mod 16) * 16 + c / 16 mod 16) * 16
   + c mod 16 = c)%N.
Proof.
  intros Hc.
  pose proof (N.div_mod c 16 ltac:(discriminate)).
  pose proof (N.div_mod (c / 16) 16 ltac:(discriminate)).
  pose proof (N.div_mod (c / 16 / 16) 16 ltac:(discriminate)).
  replace (c / 256)%N with (c / 16 / 16)%N by (rewrite N.Div0.div_div; reflexivity).
  replace (c / 4096)%N with (c / 16 / 16 / 16)%N by (rewrite !N.Div0.div_div; reflexivity).
  assert (c / 16 / 16 / 16 < 16)%N.
  { rewrite !N.Div0.div_div. apply N.Div0.div_lt_upper_bound. exact Hc. }
  rewrite (N.mod_small (c / 16 / 16 / 16) 16) by assumption.
  lia.
Qed.

(** Reading back an escape written by [unicodeEscape]. *)
Lemma parse_unicodeEscape c r :
  (c < 65536)%N ->
  forall str rest, parseStringBody r = Some (str, rest) ->
  parseStringBody (unicodeEscape c ++ r) = Some (c :: str, rest).
Proof.
  intros Hc str rest Hr. unfold unicodeEscape.
  cbn [app parseStringBody N.eqb Pos.eqb].
  rewrite !hexValue_hexDigit by (apply N.mod_lt; discriminate).
  rewrite Hr, hex_digits_value by exact Hc. reflexivity.
Qed.

Lemma parse_literal_unit c r :
  c <> 34%N -> c <> 92%N -> (32 <= c)%N ->
  parseStringBody (c :: r)
  = match parseStringBody r with
    | Some (str, rest) => Some (c :: str, rest)
    | None => None
    end.
Proof.
  intros H1 H2 H3. cbn [parseStringBody].
  rewrite (proj2 (N.eqb_neq c 34) H1), (proj2 (N.eqb_neq c 92) H2).
  rewrite (proj2 (N.ltb_ge c 32) H3). reflexivity.
Qed.

Lemma shortEscape_escapeValue c e :
  shortEscape c = Some e -> (e =? 117)%N = false /\ escapeValue e = Some c.
Proof.
  unfold shortEscape.
  repeat match goal with
         | |- context [(c =? ?n)%N] => destruct (N.eqb_spec c n); [subst|]
         end; intros [= <-]; split; reflexivity.
Qed.

Lemma shortEscape_none c :
  shortEscape c = None -> c <> 34%N /\ c <> 92%N.
Proof.
  unfold shortEscape.
  repeat match goal with
         | |- context [(c =? ?n)%N] => destruct (N.eqb_spec c n); [subst|]
         end; try discriminate. auto.
Qed.

(** Reading back the characters written by [quoteBody], up to the closing
    quote. *)
Lemma parse_quoteBody s rest :
  parseStringBody (quoteBody s ++ 34%N :: rest) = Some (s, rest).
Proof.
  remember (length s) as n eqn:Hn.
  revert s Hn. induction n as [n IH] using lt_wf_ind. intros s Hn.
  destruct s as [|c r]; [reflexivity|].
  cbn [quoteBody].
  assert (Hr : parseStringBody (quoteBody r ++ 34%N :: rest) = Some (r, rest)).
  { apply (IH (length r)); [subst; cbn; lia|reflexivity]. }
  destruct (isLeadingSurrogate c) eqn:Hlead.
  { unfold isLeadingSurrogate in Hlead.
    apply andb_true_iff in Hlead as [H1%N.leb_le H2%N.leb_le].
    destruct r as [|d r'].
    - apply parse_unicodeEscape; [lia|reflexivity].
    - destruct (isTrailingSurrogate d) eqn:Htrail.
      + unfold isTrailingSurrogate in Htrail.
        apply andb_true_iff in Htrail as [H3%N.leb_le H4%N.leb_le].
        cbn [app]. rewrite !parse_literal_unit by lia.
        rewrite (IH (length r')); [reflexivity|subst; cbn; lia|reflexivity].
      + rewrite <- app_assoc. apply parse_unicodeEscape; [lia|exact Hr]. }
  destruct (isTrailingSurrogate c) eqn:Htrail.
  { unfold isTrailingSurrogate in Htrail.
    apply andb_true_iff in Htrail as [H3%N.leb_le H4%N.leb_le].
    rewrite <- app_assoc. apply parse_unicodeEscape; [lia|exact Hr]. }
  destruct (shortEscape c) as [e|] eqn:Hesc.
  { destruct (shortEscape_escapeValue c e Hesc) as [Hu Hv].
    cbn [app parseStringBody N.eqb Pos.eqb]. rewrite Hu, Hv, Hr. reflexivity. }
  destruct (shortEscape_none c Hesc) as [H34 H92].
  destruct (N.ltb_spec c 32).
  - rewrite <- app_assoc. apply parse_unicodeEscape; [lia|exact Hr].
  - cbn [app]. rewrite parse_literal_unit, Hr by assumption. reflexivity.
Qed.

(** *** Numbers *)

Lemma number_eqb_eq x y : number_eqb x y = true -> x = y.
Proof.
  destruct x as [a m e|a], y as [b n f|b]; cbn; try discriminate.
  - rewrite !andb_true_iff, !Z.eqb_eq. intros [[Ha Hm] He].
    apply eqb_prop in Ha. congruence.
  - intros Ha. apply eqb_prop in Ha. congruence.
Qed.

Lemma delimited_head c rest :
  delimited (c :: rest) ->
  isDigit c = false /\ (c =? 45)%N = false /\ (c =? 46)%N = false
  /\ (c =? 101)%N = false /\ (c =? 69)%N = false /\ (c =? 43)%N = false.
Proof. intros [-> | [-> | ->]]; repeat split; reflexivity. Qed.

Lemma spanDigits_app s rest :
  delimited rest ->
  spanDigits (s ++ rest) = ((spanDigits s).1, (spanDigits s).2 ++ rest).
Proof.
  intros Hd. induction s as [|c s IH]; cbn [app spanDigits].
  - destruct rest as [|d rest]; [reflexivity|].
    cbn [spanDigits]. destruct (delimited_head d rest Hd) as [-> _]. reflexivity.
  - destruct (isDigit c); [|reflexivity].
    rewrite IH. destruct (spanDigits s). reflexivity.
Qed.

Lemma parseSign_app s rest :
  delimited rest ->
  parseSign 45 (s ++ rest) = ((parseSign 45 s).1, (parseSign 45 s).2 ++ rest).
Proof.
  intros Hd. destruct s as [|c s]; cbn [app parseSign].
  - destruct rest as [|d rest]; [reflexivity|].
    cbn [parseSign]. destruct (delimited_head d rest Hd) as (_ & -> & _). reflexivity.
  - destruct (c =? 45)%N; reflexivity.
Qed.

Lemma parseInteger_app s rest ds r :
  delimited rest ->
  parseInteger s = Some (ds, r) ->
  parseInteger (s ++ rest) = Some (ds, r ++ rest).
Proof.
  intros Hd. destruct s as [|c s]; [discriminate|].
  cbn [app parseInteger]. destruct (c =? 48)%N; [intros [= <- <-]; reflexivity|].
  destruct (isDigit c) eqn:Hc; [|discriminate].
  change (c :: s ++ rest) with ((c :: s) ++ rest).
  rewrite (spanDigits_app _ _ Hd).
  destruct (spanDigits (c :: s)) as [ds' r']. intros [= <- <-]. reflexivity.
Qed.

Lemma parseFraction_app s rest ds r :
  delimited rest ->
  parseFraction s = Some (ds, r) ->
  parseFraction (s ++ rest) = Some (ds, r ++ rest).
Proof.
  intros Hd. destruct s as [|c s]; cbn [app parseFraction].
  - intros [= <- <-]. destruct rest as [|d rest]; [reflexivity|].
    cbn [parseFraction]. destruct (delimited_head d rest Hd) as (_ & _ & -> & _).
    reflexivity.
  - destruct (c =? 46)%N; [|intros [= <- <-]; reflexivity].
    rewrite (spanDigits_app _ _ Hd). destruct (spanDigits s) as [[|f fds] r'];
      [discriminate|]. intros [= <- <-]. reflexivity.
Qed.

Lemma parseExponent_app s rest e r :
  delimited rest ->
  parseExponent s = Some (e, r) ->
  parseExponent (s ++ rest) = Some (e, r ++ rest).
Proof.
  intros Hd. destruct s as [|c s]; cbn [app parseExponent].
  - intros [= <- <-]. destruct rest as [|d rest]; [reflexivity|].
    cbn [parseExponent].
    destruct (delimited_head d rest Hd) as (_ & _ & _ & -> & -> & _). reflexivity.
  - destruct ((c =? 101)%N || (c =? 69)%N); [|intros [= <- <-]; reflexivity].
    destruct s as [|d s]; cbn [app].
    + cbn [spanDigits]. discriminate.
    + destruct (d =? 43)%N; [|destruct (d =? 45)%N].
      * rewrite (spanDigits_app _ _ Hd). destruct (spanDigits s) as [[|x eds] r'];
          [discriminate|]. intros [= <- <-]. reflexivity.
      * rewrite (spanDigits_app _ _ Hd). destruct (spanDigits s) as [[|x eds] r'];
          [discriminate|]. intros [= <- <-]. reflexivity.
      * change (d :: s ++ rest) with ((d :: s) ++ rest).
        rewrite (spanDigits_app _ _ Hd). destruct (spanDigits (d :: s)) as [[|x eds] r'];
          [discriminate|]. intros [= <- <-]. reflexivity.
Qed.

(** A numeric literal is read the same before a delimiter. *)
Lemma parseNumber_app s rest y r :
  delimited rest ->
  parseNumber s = Some (y, r) ->
  parseNumber (s ++ rest) = Some (y, r ++ rest).
Proof.
  intros Hd. unfold parseNumber. rewrite (parseSign_app _ _ Hd).
  destruct (parseSign 45 s) as [neg s1]. cbn [fst snd].
  destruct (parseInteger s1) as [[ids s2]|] eqn:Hi; [|discriminate].
  rewrite (parseInteger_app _ _ _ _ Hd Hi). cbn [mbind option_bind].
  destruct (parseFraction s2) as [[fds s3]|] eqn:Hf; [|discriminate].
  rewrite (parseFraction_app _ _ _ _ Hd Hf). cbn [mbind option_bind].
  destruct (parseExponent s3) as [[e10 s4]|] eqn:He; [|discriminate].
  rewrite (parseExponent_app _ _ _ _ Hd He). cbn [mbind option_bind].
  intros [= <- <-]. reflexivity.
Qed.

(** A numeric literal opens with a minus sign or a digit. *)
Lemma parseNumber_head s y r :
  parseNumber s = Some (y, r) ->
  exists c s', s = c :: s' /\ (c = 45%N \/ isDigit c = true).
Proof.
  unfold parseNumber. destruct s as [|c s]; [discriminate|].
  intros H. exists c, s. split; [reflexivity|].
  cbn [parseSign] in H. destruct (N.eqb_spec c 45); [auto|].
  cbn [parseInteger] in H. destruct (N.eqb_spec c 48); [subst; auto|].
  destruct (isDigit c); [auto|discriminate].
Qed.

(** *** Values *)

Lemma wfJSON_arr items : wfJSON (JArr items) <-> Forall wfJSON items.
Proof.
  cbn [wfJSON]. induction items as [|x items IH].
  - split; [constructor|trivial].
  - rewrite Forall_cons, IH. reflexivity.
Qed.

Lemma wfJSON_obj props :
  wfJSON (JObj props)
  <-> canonical props /\ Forall (fun kv : jsstring * json => wfJSON kv.2) props.
Proof.
  cbn [wfJSON]. apply and_iff_compat_l. induction props as [|kv props IH].
  - split; [constructor|trivial].
  - rewrite Forall_cons, IH. reflexivity.
Qed.

Lemma numbersSurvive_arr items :
  numbersSurvive (JArr items) = true
  <-> Forall (fun x => numbersSurvive x = true) items.
Proof.
  cbn [numbersSurvive]. induction items as [|x items IH]; cbn [forallb].
  - split; [constructor|trivial].
  - rewrite andb_true_iff, Forall_cons, IH. reflexivity.
Qed.

Lemma numbersSurvive_obj props :
  numbersSurvive (JObj props) = true
  <-> Forall (fun kv : jsstring * json => numbersSurvive kv.2 = true) props.
Proof.
  cbn [numbersSurvive]. induction props as [|kv props IH]; cbn [forallb].
  - split; [constructor|trivial].
  - rewrite andb_true_iff, Forall_cons, IH. reflexivity.
Qed.

Lemma depth_arr items f :
  (depth (JArr items) <= S f)%nat <-> Forall (fun x => (depth x <= f)%nat) items.
Proof.
  cbn [depth]. induction items as [|x items IH]; cbn [foldr].
  - split; [constructor|lia].
  - rewrite Forall_cons, <- IH. lia.
Qed.

Lemma depth_obj props f :
  (depth (JObj props) <= S f)%nat
  <-> Forall (fun kv : jsstring * json => (depth kv.2 <= f)%nat) props.
Proof.
  cbn [depth]. induction props as [|kv props IH]; cbn [foldr].
  - split; [constructor|lia].
  - rewrite Forall_cons, <- IH. lia.
Qed.

Lemma opensValue_stringify v :
  numbersSurvive v = true -> opensValue (JSON_stringify v).
Proof.
  destruct v as [| [|] | [neg m e|neg] | s | items | props]; cbn [numbersSurvive];
    intros Hn; try discriminate;
    try (eexists _, _; split; [reflexivity|]; repeat split; reflexivity).
  unfold numberSurvives in Hn.
  change (JSON_stringify (JNum (Finite neg m e)))
    with (numberToString (Finite neg m e)).
  destruct (parseNumber (numberToString (Finite neg m e))) as [[y r]|] eqn:Hp;
    [|discriminate].
  destruct (parseNumber_head _ _ _ Hp) as (c & s' & -> & Hc).
  exists c, s'. split; [reflexivity|].
  destruct Hc as [->|Hc]; [repeat split; reflexivity|].
  unfold isDigit in Hc. apply andb_true_iff in Hc as [H1%N.leb_le H2%N.leb_le].
  unfold isJSONWhiteSpace.
  repeat split; repeat (apply orb_false_iff; split); apply N.eqb_neq; lia.
Qed.

Lemma opensValue_app s rest : opensValue s -> opensValue (s ++ rest).
Proof. intros (c & r & -> & H). exists c, (r ++ rest). split; [reflexivity|exact H]. Qed.

Lemma opensValue_skip s : opensValue s -> skipJSONWhiteSpace s = s.
Proof. intros (c & r & -> & H & _). cbn. rewrite H. reflexivity. Qed.

Lemma opensValue_length s : opensValue s -> (1 <= length s)%nat.
Proof. intros (c & r & -> & _). cbn. lia. Qed.

Lemma joinComma_cons2 (p q : jsstring) (more : list jsstring) :
  joinComma (p :: q :: more) = p ++ 44%N :: joinComma (q :: more).
Proof. reflexivity. Qed.

Lemma joinComma_opens (parts : list jsstring) :
  parts <> [] -> Forall opensValue parts -> opensValue (joinComma parts).
Proof.
  destruct parts as [|p [|q more]]; [congruence| |]; intros _ H;
    apply Forall_cons in H as [Hp _]; [exact Hp|].
  rewrite joinComma_cons2. apply opensValue_app, Hp.
Qed.

Lemma joinComma_length (parts : list jsstring) :
  Forall opensValue parts -> (length parts <= length (joinComma parts))%nat.
Proof.
  induction parts as [|p [|q more] IH]; intros H; [cbn; lia| |].
  - apply Forall_cons in H as [Hp%opensValue_length _]. cbn. lia.
  - apply Forall_cons in H as [Hp%opensValue_length H].
    rewrite joinComma_cons2, length_app. specialize (IH H).
    cbn [length] in *. lia.
Qed.

(** The elements of a non-empty array, read back up to the closing
    bracket. *)
Lemma parseElements_stringify f items rest :
  items <> [] ->
  Forall (readsBack f) items ->
  Forall (fun x => opensValue (JSON_stringify x)) items ->
  forall n, (length items <= n)%nat ->
  parseElements (parseValue f) n
    (joinComma (map JSON_stringify items) ++ 93%N :: rest) = POk items rest.
Proof.
  induction items as [|x [|y more] IH]; [congruence| |];
    intros _ Hread Hopen n Hn; (destruct n as [|n]; [cbn in Hn; lia|]).
  - apply Forall_cons in Hread as [Hx _].
    unfold parseElements. cbn [map joinComma parseList].
    rewrite Hx by (cbn; auto). reflexivity.
  - apply Forall_cons in Hread as [Hx Hread].
    apply Forall_cons in Hopen as [_ Hopen].
    unfold parseElements in *. cbn [map]. rewrite joinComma_cons2, <- app_assoc. cbn [app parseList].
    rewrite Hx by (cbn; auto).
    unfold parseMore. cbn [skipJSONWhiteSpace isJSONWhiteSpace N.eqb Pos.eqb orb].
    rewrite opensValue_skip.
    2:{ apply opensValue_app, joinComma_opens; [discriminate|].
        change (Forall opensValue (map JSON_stringify (y :: more))).
        rewrite Forall_map. exact Hopen. }
    change (JSON_stringify y :: map JSON_stringify more)
      with (map JSON_stringify (y :: more)).
    rewrite IH; [reflexivity|discriminate|exact Hread|exact Hopen|cbn in *; lia].
Qed.

(** *** Objects *)

Lemma arrayIndex_digits k i : arrayIndex k = Some i -> k = digits i.
Proof.
  unfold arrayIndex.
  destruct (forallb isDigit k); [|discriminate].
  destruct (jsstring_eqb (digits (decimalValue k)) k) eqn:Hk; [|discriminate].
  destruct (decimalValue k <? 2 ^ 32 - 1)%Z; [|discriminate].
  cbn. intros [= <-]. symmetry. apply jsstring_eqb_eq, Hk.
Qed.

Lemma hasKey_elem k props : hasKey k props = true <-> k ∈ map fst props.
Proof.
  induction props as [|[k0 v0] r IH]; cbn [hasKey map fst].
  - split; [discriminate|]. intros H. inversion H.
  - rewrite orb_true_iff, jsstring_eqb_eq, IH, elem_of_cons. reflexivity.
Qed.

(** A new array index larger than all the keys goes last. *)
Lemma insertIndex_last i k v props :
  Forall (fun x => keyBefore x k) (map fst props) ->
  arrayIndex k = Some i ->
  insertIndex i k v props = props ++ [(k, v)].
Proof.
  intros Hall Hk. induction props as [|[k0 v0] r IH]; [reflexivity|].
  cbn [map fst] in Hall. apply Forall_cons in Hall as [[_ H0] Hall].
  cbn [insertIndex app]. rewrite Hk in H0.
  destruct (arrayIndex k0) as [j|]; [|contradiction].
  rewrite (proj2 (Z.ltb_ge i j)) by lia. rewrite (IH Hall). reflexivity.
Qed.

(** Defining the properties of a canonical list one after the other gives
    that list. *)
Lemma foldl_defineOwn_canonical acc props :
  canonical (acc ++ props) -> foldl defineOwn acc props = acc ++ props.
Proof.
  revert acc. induction props as [|[k v] r IH]; intros acc Hc; cbn [foldl].
  - rewrite app_nil_r. reflexivity.
  - assert (Hbefore : Forall (fun x => keyBefore x k) (map fst acc)).
    { unfold canonical in Hc. rewrite map_app in Hc.
      apply Forall_forall. intros x Hx.
      apply (StronglySorted_app_1_elem_of _ _ _ x k Hc); [exact Hx|].
      cbn. left. }
    assert (Hnew : hasKey k acc = false).
    { destruct (hasKey k acc) eqn:Hh; [|reflexivity].
      apply hasKey_elem in Hh. rewrite Forall_forall in Hbefore.
      destruct (Hbefore k Hh) as [Hne _]. congruence. }
    assert (Hdef : defineOwn acc (k, v) = acc ++ [(k, v)]).
    { unfold defineOwn. rewrite Hnew.
      destruct (arrayIndex k) as [i|] eqn:Hk; [|reflexivity].
      apply insertIndex_last; assumption. }
    rewrite Hdef, IH; rewrite <- app_assoc; [reflexivity|exact Hc].
Qed.

Lemma makeObject_canonical props : canonical props -> makeObject props = JObj props.
Proof.
  intros Hc. unfold makeObject. rewrite foldl_defineOwn_canonical; [reflexivity|exact Hc].
Qed.

Lemma quoteJSONString_app k r :
  quoteJSONString k ++ r = 34%N :: quoteBody k ++ 34%N :: r.
Proof. unfold quoteJSONString. cbn [app]. rewrite <- app_assoc. reflexivity. Qed.

Lemma parseMember_stringify f kv rest :
  readsBack f kv.2 -> opensValue (JSON_stringify kv.2) -> delimited rest ->
  parseMember (parseValue f) (memberText kv ++ rest) = POk kv rest.
Proof.
  destruct kv as [k v]. cbn [fst snd]. intros Hv Hopen Hd.
  unfold memberText. cbn [fst snd].
  rewrite <- app_assoc, quoteJSONString_app. cbn [app parseMember N.eqb Pos.eqb].
  rewrite parse_quoteBody.
  cbn [skipJSONWhiteSpace isJSONWhiteSpace N.eqb Pos.eqb orb].
  rewrite opensValue_skip by (apply opensValue_app, Hopen).
  rewrite Hv by exact Hd. reflexivity.
Qed.

Lemma memberText_opens kv : opensValue (memberText kv).
Proof.
  unfold memberText. rewrite quoteJSONString_app.
  eexists _, _. split; [reflexivity|]. repeat split; reflexivity.
Qed.

(** The members of a non-empty object, read back up to the closing
    brace. *)
Lemma parseMembers_stringify f props rest :
  props <> [] ->
  Forall (fun kv : jsstring * json => readsBack f kv.2) props ->
  Forall (fun kv : jsstring * json => opensValue (JSON_stringify kv.2)) props ->
  forall n, (length props <= n)%nat ->
  parseMembers (parseValue f) n
    (joinComma (map memberText props) ++ 125%N :: rest) = POk props rest.
Proof.
  induction props as [|x [|y more] IH]; [congruence| |];
    intros _ Hread Hopen n Hn; (destruct n as [|n]; [cbn in Hn; lia|]).
  - apply Forall_cons in Hread as [Hx _]. apply Forall_cons in Hopen as [Ho _].
    unfold parseMembers. cbn [map joinComma parseList].
    rewrite parseMember_stringify by (cbn; auto). reflexivity.
  - apply Forall_cons in Hread as [Hx Hread].
    apply Forall_cons in Hopen as [Ho Hopen].
    unfold parseMembers in *. cbn [map]. rewrite joinComma_cons2, <- app_assoc. cbn [app parseList].
    rewrite parseMember_stringify by (cbn; auto).
    unfold parseMore. cbn [skipJSONWhiteSpace isJSONWhiteSpace N.eqb Pos.eqb orb].
    rewrite opensValue_skip.
    2:{ apply opensValue_app, joinComma_opens; [discriminate|].
        change (Forall opensValue (map memberText (y :: more))).
        rewrite Forall_map. apply Forall_forall. intros kv _. apply memberText_opens. }
    change (memberText y :: map memberText more) with (map memberText (y :: more)).
    rewrite IH; [reflexivity|discriminate|exact Hread|exact Hopen|cbn in *; lia].
Qed.

Lemma stringify_obj props :
  JSON_stringify (JObj props) = 123%N :: joinComma (map memberText props) ++ [125%N].
Proof.
  cbn [JSON_stringify]. do 3 f_equal. apply map_ext. intros [k v]. reflexivity.
Qed.

(** *** Reading back what JSON.stringify wrote *)

Lemma strip_prefix_mismatch (a : ascii) (p : string) c s :
  (c =? N_of_ascii a)%N = false ->
  strip_prefix (u (String a p)) (c :: s) = None.
Proof.
  intros H. change (u (String a p)) with (N_of_ascii a :: u p).
  cbn [strip_prefix]. rewrite N.eqb_sym, H. reflexivity.
Qed.

Lemma readsBack_number f x :
  numberSurvives x = true -> readsBack (S f) (JNum x).
Proof.
  intros Hs rest Hd. unfold numberSurvives in Hs.
  destruct x as [neg m e|neg]; [|discriminate].
  change (JSON_stringify (JNum (Finite neg m e)))
    with (numberToString (Finite neg m e)).
  destruct (parseNumber (numberToString (Finite neg m e))) as [[y [|c r]]|] eqn:Hp;
    try discriminate.
  apply number_eqb_eq in Hs. subst y.
  pose proof (parseNumber_app _ rest _ _ Hd Hp) as Happ. cbn [app] in Happ.
  destruct (parseNumber_head _ _ _ Hp) as (c & s' & Heq & Hc).
  rewrite Heq in *. cbn [app parseValue].
  assert (isDigit c = true -> (48 <= c <= 57)%N) as Hdigit.
  { unfold isDigit. intros [H1%N.leb_le H2%N.leb_le]%andb_true_iff. lia. }
  assert ((c =? 123)%N = false /\ (c =? 91)%N = false /\ (c =? 34)%N = false
          /\ (c =? 110)%N = false /\ (c =? 116)%N = false /\ (c =? 102)%N = false)
    as (-> & -> & -> & Hn & Ht & Hf).
  { destruct Hc as [->|Hc%Hdigit]; [repeat split; reflexivity|].
    repeat split; apply N.eqb_neq; lia. }
  unfold parseLiteral.
  rewrite (strip_prefix_mismatch "n" "ull") by exact Hn.
  rewrite (strip_prefix_mismatch "t" "rue") by exact Ht.
  rewrite (strip_prefix_mismatch "f" "alse") by exact Hf.
  change (c :: s' ++ rest) with ((c :: s') ++ rest). rewrite Happ. reflexivity.
Qed.

(** What JSON.stringify writes of a well-formed value whose numbers
    survive, JSON.parse reads back as that value. *)
Lemma parseValue_stringify v :
  wfJSON v -> numbersSurvive v = true ->
  forall fuel, (depth v <= fuel)%nat -> readsBack fuel v.
Proof.
  induction v as [| b | x | s | items IH | props IH] using json_ind;
    intros Hwf Hnum fuel Hfuel; (destruct fuel as [|f]; [cbn in Hfuel; lia|]).
  - intros rest _. reflexivity.
  - intros rest _. destruct b; reflexivity.
  - apply readsBack_number, Hnum.
  - intros rest _. cbn [JSON_stringify]. unfold quoteJSONString.
    cbn [app parseValue N.eqb Pos.eqb]. rewrite <- app_assoc. cbn [app].
    rewrite parse_quoteBody. reflexivity.
  - intros rest _. apply wfJSON_arr in Hwf. apply numbersSurvive_arr in Hnum.
    apply depth_arr in Hfuel.
    assert (Hread : Forall (readsBack f) items).
    { rewrite Forall_forall in *. intros x Hx. apply IH; auto. }
    assert (Hopen : Forall (fun x => opensValue (JSON_stringify x)) items).
    { rewrite Forall_forall in *. intros x Hx. apply opensValue_stringify; auto. }
    cbn [JSON_stringify app parseValue N.eqb Pos.eqb]. rewrite <- app_assoc.
    change ([93%N] ++ rest) with (93%N :: rest).
    destruct items as [|x items]; [reflexivity|].
    assert (Ho : opensValue (joinComma (map JSON_stringify (x :: items))
                             ++ 93%N :: rest)).
    { apply opensValue_app, joinComma_opens; [discriminate|].
      rewrite Forall_map. exact Hopen. }
    rewrite (opensValue_skip _ Ho).
    destruct Ho as (c & r & Heq & _ & H93 & _). rewrite Heq, H93, <- Heq.
    rewrite parseElements_stringify; [reflexivity|discriminate|assumption..|].
    rewrite length_app.
    pose proof (joinComma_length (map JSON_stringify (x :: items))) as Hlen.
    rewrite Forall_map, length_map in Hlen. specialize (Hlen Hopen). lia.
  - intros rest _. apply wfJSON_obj in Hwf as [Hcan Hwf].
    apply numbersSurvive_obj in Hnum. apply depth_obj in Hfuel.
    assert (Hread : Forall (fun kv : jsstring * json => readsBack f kv.2) props).
    { rewrite Forall_forall in *. intros x Hx. apply IH; auto. }
    assert (Hopen : Forall (fun kv : jsstring * json =>
                              opensValue (JSON_stringify kv.2)) props).
    { rewrite Forall_forall in *. intros x Hx. apply opensValue_stringify; auto. }
    rewrite stringify_obj. cbn [app parseValue N.eqb Pos.eqb]. rewrite <- app_assoc.
    change ([125%N] ++ rest) with (125%N :: rest).
    destruct props as [|x props]; [reflexivity|].
    assert (Ho : opensValue (joinComma (map memberText (x :: props))
                             ++ 125%N :: rest)).
    { apply opensValue_app, joinComma_opens; [discriminate|].
      rewrite Forall_map. apply Forall_forall. intros kv _. apply memberText_opens. }
    rewrite (opensValue_skip _ Ho).
    destruct Ho as (c & r & Heq & _ & _ & H125 & _). rewrite Heq, H125, <- Heq.
    rewrite parseMembers_stringify; [|discriminate|assumption..|].
    + rewrite makeObject_canonical by exact Hcan. reflexivity.
    + rewrite length_app.
      pose proof (joinComma_length (map memberText (x :: props))) as Hlen.
      rewrite length_map in Hlen.
      assert (Forall opensValue (map memberText (x :: props))) as Hall.
      { rewrite Forall_map. apply Forall_forall. intros kv _. apply memberText_opens. }
      specialize (Hlen Hall). lia.
Qed.

(** *** JSON.parse builds canonical objects *)

Lemma replaceOwn_keys k v props :
  map fst (replaceOwn k v props) = map fst props.
Proof.
  induction props as [|[k0 v0] r IH]; [reflexivity|].
  cbn [replaceOwn]. destruct (jsstring_eqb k k0); cbn [map fst]; [reflexivity|].
  rewrite IH. reflexivity.
Qed.

Lemma insertIndex_keys (Q : jsstring -> Prop) i k v props :
  Q k -> Forall Q (map fst props) -> Forall Q (map fst (insertIndex i k v props)).
Proof.
  intros Hk. induction props as [|[k0 v0] r IH]; intros Hall; cbn [insertIndex].
  - repeat constructor. exact Hk.
  - destruct (arrayIndex k0) as [j|]; [destruct (i <? j)%Z|];
      cbn [map fst] in *; try (constructor; assumption).
    apply Forall_cons in Hall as [H0 Hall]. constructor; [exact H0|apply IH, Hall].
Qed.

Lemma insertIndex_canonical i k v props :
  canonical props -> hasKey k props = false -> arrayIndex k = Some i ->
  canonical (insertIndex i k v props).
Proof.
  unfold canonical. intros Hc Hnew Hk.
  induction props as [|[k0 v0] r IH]; cbn [insertIndex].
  - cbn. repeat constructor.
  - cbn [map fst] in Hc. apply StronglySorted_cons in Hc as [H0 Hc].
    cbn [hasKey] in Hnew. apply orb_false_elim in Hnew as [Hne Hnew].
    assert (k <> k0) as Hkk0.
    { intros ->. rewrite jsstring_eqb_refl in Hne. discriminate. }
    assert (Forall (fun x => k <> x) (map fst r)) as Hfresh.
    { apply Forall_forall. intros x Hx ->.
      apply hasKey_elem in Hx. congruence. }
    destruct (arrayIndex k0) as [j|] eqn:Hk0.
    + destruct (Z.ltb_spec i j).
      * cbn [map fst]. apply StronglySorted_cons. split.
        -- constructor.
           ++ split; [exact Hkk0|]. rewrite Hk, Hk0. assumption.
           ++ rewrite Forall_forall in *. intros x Hx.
              destruct (H0 x Hx) as [_ Hx0]. split; [apply Hfresh, Hx|].
              rewrite Hk. rewrite Hk0 in Hx0.
              destruct (arrayIndex x); [lia|exact I].
        -- apply StronglySorted_cons. split; assumption.
      * cbn [map fst]. apply StronglySorted_cons. split.
        -- apply insertIndex_keys; [|exact H0].
           split; [exact (not_eq_sym Hkk0)|]. rewrite Hk0, Hk.
           assert (i <> j).
           { intros ->. apply arrayIndex_digits in Hk, Hk0. congruence. }
           lia.
        -- apply IH; assumption.
    + cbn [map fst]. apply StronglySorted_cons. split.
      * constructor.
        -- split; [exact Hkk0|]. rewrite Hk, Hk0. exact I.
        -- rewrite Forall_forall in *. intros x Hx.
           destruct (H0 x Hx) as [_ Hx0]. split; [apply Hfresh, Hx|].
           rewrite Hk. rewrite Hk0 in Hx0.
           destruct (arrayIndex x); [contradiction|exact I].
      * apply StronglySorted_cons. split; assumption.
Qed.

Lemma snoc_canonical k v props :
  canonical props -> hasKey k props = false -> arrayIndex k = None ->
  canonical (props ++ [(k, v)]).
Proof.
  unfold canonical. intros Hc Hnew Hk. rewrite map_app.
  apply StronglySorted_app. split; [|split; [exact Hc|repeat constructor]].
  intros x1 x2 H1 ->%list_elem_of_singleton. split.
  - intros ->. apply hasKey_elem in H1. cbn [fst] in H1. congruence.
  - cbn [fst]. rewrite Hk. destruct (arrayIndex x1); exact I.
Qed.

(** CreateDataProperty keeps an object canonical. *)
Lemma defineOwn_canonical props kv :
  canonical props -> canonical (defineOwn props kv).
Proof.
  intros Hc. destruct kv as [k v]. unfold defineOwn.
  destruct (hasKey k props) eqn:Hh.
  - unfold canonical. rewrite replaceOwn_keys. exact Hc.
  - destruct (arrayIndex k) as [i|] eqn:Hk.
    + apply insertIndex_canonical; assumption.
    + apply snoc_canonical; assumption.
Qed.

Lemma replaceOwn_values (P : json -> Prop) k v props :
  P v -> Forall (fun kv : jsstring * json => P kv.2) props ->
  Forall (fun kv : jsstring * json => P kv.2) (replaceOwn k v props).
Proof.
  intros Hv. induction props as [|[k0 v0] r IH]; intros Hall; cbn [replaceOwn];
    [constructor|].
  apply Forall_cons in Hall as [H0 Hall].
  destruct (jsstring_eqb k k0); constructor; auto.
Qed.

Lemma insertIndex_values (P : json -> Prop) i k v props :
  P v -> Forall (fun kv : jsstring * json => P kv.2) props ->
  Forall (fun kv : jsstring * json => P kv.2) (insertIndex i k v props).
Proof.
  intros Hv. induction props as [|[k0 v0] r IH]; intros Hall; cbn [insertIndex].
  - repeat constructor. exact Hv.
  - destruct (arrayIndex k0) as [j|]; [destruct (i <? j)%Z|];
      try (constructor; assumption).
    apply Forall_cons in Hall as [H0 Hall]. constructor; [exact H0|apply IH, Hall].
Qed.

Lemma defineOwn_values (P : json -> Prop) props kv :
  P kv.2 -> Forall (fun kv : jsstring * json => P kv.2) props ->
  Forall (fun kv : jsstring * json => P kv.2) (defineOwn props kv).
Proof.
  destruct kv as [k v]. cbn [snd]. intros Hv Hall. unfold defineOwn.
  destruct (hasKey k props).
  - apply replaceOwn_values; assumption.
  - destruct (arrayIndex k).
    + apply insertIndex_values; assumption.
    + apply Forall_app. split; [exact Hall|]. repeat constructor. exact Hv.
Qed.

Lemma makeObject_wf members :
  Forall (fun kv : jsstring * json => wfJSON kv.2) members ->
  wfJSON (makeObject members).
Proof.
  intros Hall. unfold makeObject. apply wfJSON_obj.
  assert (forall acc,
            canonical acc /\ Forall (fun kv : jsstring * json => wfJSON kv.2) acc ->
            canonical (foldl defineOwn acc members)
            /\ Forall (fun kv : jsstring * json => wfJSON kv.2)
                      (foldl defineOwn acc members)) as H.
  { induction Hall as [|kv ms Hkv _ IH]; intros acc [Hc Hv]; cbn [foldl].
    - auto.
    - apply IH. split; [apply defineOwn_canonical, Hc|].
      apply defineOwn_values; assumption. }
  apply H. split; [constructor|constructor].
Qed.

(** *** JSON.parse always ends, on a well-formed value or a syntax error *)

Lemma skipJSONWhiteSpace_length s :
  (length (skipJSONWhiteSpace s) <= length s)%nat.
Proof.
  induction s as [|c s IH]; cbn [skipJSONWhiteSpace]; [lia|].
  destruct (isJSONWhiteSpace c); cbn [length] in *; lia.
Qed.

Lemma parseStringBody_length s str r :
  parseStringBody s = Some (str, r) -> (length r < length s)%nat.
Proof.
  assert (forall n s, (length s <= n)%nat -> forall str r,
            parseStringBody s = Some (str, r) -> (length r < length s)%nat) as H.
  { clear. induction n as [|n IH]; intros s Hn str r.
    { destruct s; [discriminate|cbn in Hn; lia]. }
    destruct s as [|c s1]; [discriminate|]. cbn [parseStringBody length] in *.
    destruct (c =? 34)%N; [intros [= <- <-]; lia|].
    destruct (c =? 92)%N.
    - destruct s1 as [|e s2]; [discriminate|].
      destruct (e =? 117)%N.
      + destruct s2 as [|h1 [|h2 [|h3 [|h4 s3]]]]; try discriminate.
        destruct (hexValue h1), (hexValue h2), (hexValue h3), (hexValue h4);
          try discriminate.
        destruct (parseStringBody s3) as [[str' r']|] eqn:Hs; [|discriminate].
        intros [= <- <-]. cbn [length] in *.
        pose proof (IH s3 ltac:(lia) _ _ Hs). lia.
      + destruct (escapeValue e); [|discriminate].
        destruct (parseStringBody s2) as [[str' r']|] eqn:Hs; [|discriminate].
        intros [= <- <-]. cbn [length] in *.
        pose proof (IH s2 ltac:(lia) _ _ Hs). lia.
    - destruct (c <? 32)%N; [discriminate|].
      destruct (parseStringBody s1) as [[str' r']|] eqn:Hs; [|discriminate].
      intros [= <- <-].
      pose proof (IH s1 ltac:(lia) _ _ Hs). lia. }
  apply (H (length s)). lia.
Qed.

Lemma strip_prefix_length p s r :
  strip_prefix p s = Some r -> length s = (length p + length r)%nat.
Proof.
  revert s. induction p as [|x p IH]; intros [|y s]; cbn [strip_prefix];
    try discriminate.
  - intros [= <-]. reflexivity.
  - intros [= <-]. reflexivity.
  - destruct (N.eqb x y); [|discriminate]. intros H%IH. cbn [length]. lia.
Qed.

Lemma parseNumber_length s y r :
  parseNumber s = Some (y, r) -> (length r < length s)%nat.
Proof.
  intros H. destruct (parseNumber_head _ _ _ H) as (c & s' & -> & _).
  assert (forall t, (length (spanDigits t).2 <= length t)%nat) as Hspan.
  { induction t as [|d t IH]; cbn [spanDigits]; [cbn; lia|].
    destruct (isDigit d); [|cbn; lia].
    destruct (spanDigits t). cbn [snd length] in *. lia. }
  unfold parseNumber in H.
  assert (length (parseSign 45 (c :: s')).2 <= length (c :: s'))%nat as Hsign.
  { cbn [parseSign]. destruct (c =? 45)%N; cbn; lia. }
  destruct (parseSign 45 (c :: s')) as [neg s1]. cbn [snd] in Hsign.
  destruct (parseInteger s1) as [[ids s2]|] eqn:Hi; [|discriminate].
  assert (length s2 < length s1)%nat as H2.
  { destruct s1 as [|d s1]; [discriminate|]. cbn [parseInteger] in Hi.
    destruct (d =? 48)%N; [injection Hi as <- <-; cbn; lia|].
    destruct (isDigit d) eqn:Hd; [|discriminate].
    injection Hi as Hi. cbn [spanDigits] in Hi. rewrite Hd in Hi.
    pose proof (Hspan s1). destruct (spanDigits s1).
    injection Hi as <- <-. cbn [snd length] in *. lia. }
  cbn [mbind option_bind] in H.
  destruct (parseFraction s2) as [[fds s3]|] eqn:Hf; [|discriminate].
  assert (length s3 <= length s2)%nat as H3.
  { destruct s2 as [|d s2]; [injection Hf as <- <-; lia|]. cbn [parseFraction] in Hf.
    destruct (d =? 46)%N; [|injection Hf as <- <-; lia].
    pose proof (Hspan s2). destruct (spanDigits s2) as [[|x fds'] r']; [discriminate|].
    injection Hf as <- <-. cbn [snd length] in *. lia. }
  cbn [mbind option_bind] in H.
  destruct (parseExponent s3) as [[e10 s4]|] eqn:He; [|discriminate].
  assert (length s4 <= length s3)%nat as H4.
  { destruct s3 as [|d s3]; [injection He as <- <-; lia|]. cbn [parseExponent] in He.
    destruct ((d =? 101)%N || (d =? 69)%N); [|injection He as <- <-; lia].
    destruct s3 as [|x s3].
    - cbn [spanDigits] in He. discriminate.
    - destruct (x =? 43)%N; [|destruct (x =? 45)%N].
      + pose proof (Hspan s3). destruct (spanDigits s3) as [[|z eds] r']; [discriminate|].
        injection He as <- <-. cbn [snd length] in *. lia.
      + pose proof (Hspan s3). destruct (spanDigits s3) as [[|z eds] r']; [discriminate|].
        injection He as <- <-. cbn [snd length] in *. lia.
      + pose proof (Hspan (x :: s3)).
        destruct (spanDigits (x :: s3)) as [[|z eds] r']; [discriminate|].
        injection He as <- <-. cbn [snd length] in *. lia. }
  cbn [mbind option_bind] in H. injection H as _ <-. lia.
Qed.

Section ListFacts.
Context {A : Type} (item : jsstring -> presult A) (close : N).
Context (good : A -> Prop) (limit : nat).
Hypothesis item_ok :
  forall s x r, item s = POk x r -> good x /\ (length r < length s)%nat.
Hypothesis item_fuel : forall s, (length s <= limit)%nat -> item s <> PFuel.

Lemma parseList_ok n s xs r :
  parseList item close n s = POk xs r ->
  Forall good xs /\ (length r < length s)%nat.
Proof using item_ok.
  revert s xs r. induction n as [|n IH]; intros s xs r; cbn [parseList];
    [discriminate|].
  destruct (item s) as [x r0| |] eqn:Hx; try discriminate.
  destruct (item_ok _ _ _ Hx) as [Hgood Hlen].
  unfold parseMore. pose proof (skipJSONWhiteSpace_length r0) as Hskip.
  destruct (skipJSONWhiteSpace r0) as [|c r1]; [discriminate|].
  destruct (c =? 44)%N.
  - pose proof (skipJSONWhiteSpace_length r1) as Hskip1.
    destruct (parseList item close n (skipJSONWhiteSpace r1)) as [ys r2| |] eqn:Hl;
      try discriminate.
    intros [= <- <-]. destruct (IH _ _ _ Hl) as [Hall Hlen2].
    split; [constructor; assumption|]. cbn [length] in *. lia.
  - destruct (c =? close)%N; [|discriminate].
    intros [= <- <-]. split; [repeat constructor; assumption|].
    cbn [length] in *. lia.
Qed.

Lemma parseList_fuel n s :
  (length s < n)%nat -> (length s <= limit)%nat ->
  parseList item close n s <> PFuel.
Proof using item_ok item_fuel.
  revert s. induction n as [|n IH]; intros s Hn Hl; [lia|]. cbn [parseList].
  destruct (item s) as [x r0| |] eqn:Hx; [|discriminate|].
  - destruct (item_ok _ _ _ Hx) as [_ Hlen].
    unfold parseMore. pose proof (skipJSONWhiteSpace_length r0) as Hskip.
    destruct (skipJSONWhiteSpace r0) as [|c r1]; [discriminate|].
    destruct (c =? 44)%N; [|destruct (c =? close)%N; discriminate].
    pose proof (skipJSONWhiteSpace_length r1) as Hskip1.
    cbn [length] in *.
    specialize (IH (skipJSONWhiteSpace r1) ltac:(lia) ltac:(lia)).
    destruct (parseList item close n (skipJSONWhiteSpace r1)); congruence.
  - destruct (item_fuel s Hl). exact Hx.
Qed.
End ListFacts.

Section MemberFacts.
Context (parseNested : jsstring -> presult json) (limit : nat).
Hypothesis nested_ok :
  forall s x r, parseNested s = POk x r -> wfJSON x /\ (length r < length s)%nat.
Hypothesis nested_fuel :
  forall s, (length s <= limit)%nat -> parseNested s <> PFuel.

Lemma parseMember_ok s m r :
  parseMember parseNested s = POk m r ->
  wfJSON m.2 /\ (length r < length s)%nat.
Proof using nested_ok.
  unfold parseMember. destruct s as [|q r0]; [discriminate|].
  destruct (q =? 34)%N; [|discriminate].
  destruct (parseStringBody r0) as [[k r1]|] eqn:Hk; [|discriminate].
  apply parseStringBody_length in Hk.
  pose proof (skipJSONWhiteSpace_length r1) as Hs1.
  destruct (skipJSONWhiteSpace r1) as [|c r2]; [discriminate|].
  destruct (c =? 58)%N; [|discriminate].
  pose proof (skipJSONWhiteSpace_length r2) as Hs2.
  destruct (parseNested (skipJSONWhiteSpace r2)) as [v r3| |] eqn:Hv; try discriminate.
  intros [= <- <-]. destruct (nested_ok _ _ _ Hv) as [Hwf Hlen].
  split; [exact Hwf|]. cbn [length] in *. lia.
Qed.

Lemma parseMember_fuel s :
  (length s <= S limit)%nat -> parseMember parseNested s <> PFuel.
Proof using nested_fuel.
  unfold parseMember. intros Hl. destruct s as [|q r0]; [discriminate|].
  destruct (q =? 34)%N; [|discriminate].
  destruct (parseStringBody r0) as [[k r1]|] eqn:Hk; [|discriminate].
  apply parseStringBody_length in Hk.
  pose proof (skipJSONWhiteSpace_length r1) as Hs1.
  destruct (skipJSONWhiteSpace r1) as [|c r2]; [discriminate|].
  destruct (c =? 58)%N; [|discriminate].
  pose proof (skipJSONWhiteSpace_length r2) as Hs2.
  cbn [length] in *.
  pose proof (nested_fuel (skipJSONWhiteSpace r2) ltac:(lia)).
  destruct (parseNested (skipJSONWhiteSpace r2)); congruence.
Qed.
End MemberFacts.

Lemma parseLiteral_ok s v r :
  parseLiteral s = POk v r -> wfJSON v /\ (length r < length s)%nat.
Proof.
  unfold parseLiteral.
  destruct (strip_prefix (u "null") s) as [r0|] eqn:H1.
  { intros [= <- <-]. apply strip_prefix_length in H1. split; [exact I|].
    rewrite H1. cbv [u length]. lia. }
  destruct (strip_prefix (u "true") s) as [r0|] eqn:H2.
  { intros [= <- <-]. apply strip_prefix_length in H2. split; [exact I|].
    rewrite H2. cbv [u length]. lia. }
  destruct (strip_prefix (u "false") s) as [r0|] eqn:H3.
  { intros [= <- <-]. apply strip_prefix_length in H3. split; [exact I|].
    rewrite H3. cbv [u length]. lia. }
  destruct (parseNumber s) as [[x r0]|] eqn:H4; [|discriminate].
  intros [= <- <-]. split; [exact I|]. apply (parseNumber_length _ _ _ H4).
Qed.

Lemma parseLiteral_fuel s : parseLiteral s <> PFuel.
Proof.
  unfold parseLiteral.
  destruct (strip_prefix (u "null") s); [discriminate|].
  destruct (strip_prefix (u "true") s); [discriminate|].
  destruct (strip_prefix (u "false") s); [discriminate|].
  destruct (parseNumber s) as [[x r0]|]; discriminate.
Qed.

(** A value that parseValue returns is well-formed, and some input was
    read for it. *)
Lemma parseValue_ok f s v r :
  parseValue f s = POk v r -> wfJSON v /\ (length r < length s)%nat.
Proof.
  revert s v r. induction f as [|f IH]; intros s v r; cbn [parseValue];
    [discriminate|].
  destruct s as [|c r0]; [discriminate|].
  pose proof (skipJSONWhiteSpace_length r0) as Hskip.
  destruct (c =? 123)%N; [|destruct (c =? 91)%N; [|destruct (c =? 34)%N]].
  - destruct (skipJSONWhiteSpace r0) as [|d r1]; [discriminate|].
    destruct (d =? 125)%N.
    + intros [= <- <-]. split; [|cbn [length] in *; lia].
      apply wfJSON_obj. split; constructor.
    + unfold parseMembers.
      destruct (parseList (parseMember (parseValue f)) 125 (S (length r0)) (d :: r1))
        as [ms r2| |] eqn:Hl; try discriminate.
      intros [= <- <-].
      destruct (parseList_ok (parseMember (parseValue f)) 125
                  (fun m : jsstring * json => wfJSON m.2)
                  (parseMember_ok (parseValue f) IH) _ _ _ _ Hl) as [Hall Hlen].
      split; [apply makeObject_wf, Hall|]. cbn [length] in *. lia.
  - destruct (skipJSONWhiteSpace r0) as [|d r1]; [discriminate|].
    destruct (d =? 93)%N.
    + intros [= <- <-]. split; [exact I|cbn [length] in *; lia].
    + unfold parseElements.
      destruct (parseList (parseValue f) 93 (S (length r0)) (d :: r1))
        as [vs r2| |] eqn:Hl; try discriminate.
      intros [= <- <-].
      destruct (parseList_ok (parseValue f) 93 wfJSON IH _ _ _ _ Hl) as [Hall Hlen].
      split; [apply wfJSON_arr, Hall|]. cbn [length] in *. lia.
  - destruct (parseStringBody r0) as [[str r1]|] eqn:Hs; [|discriminate].
    intros [= <- <-]. split; [exact I|].
    apply parseStringBody_length in Hs. cbn [length]. lia.
  - apply parseLiteral_ok.
Qed.

(** The fuel of parseValue lasts for every input shorter than it. *)
Lemma parseValue_fuel f s : (length s < f)%nat -> parseValue f s <> PFuel.
Proof.
  revert s. induction f as [|f IH]; intros s Hf; [lia|]. cbn [parseValue].
  destruct s as [|c r0]; [discriminate|]. cbn [length] in Hf.
  pose proof (skipJSONWhiteSpace_length r0) as Hskip.
  assert (forall t, (length t <= f - 1)%nat -> parseValue f t <> PFuel) as Hnested.
  { intros t Ht. apply IH. lia. }
  destruct (c =? 123)%N; [|destruct (c =? 91)%N; [|destruct (c =? 34)%N]].
  - destruct (skipJSONWhiteSpace r0) as [|d r1]; [discriminate|].
    destruct (d =? 125)%N; [discriminate|].
    unfold parseMembers.
    pose proof (parseList_fuel (parseMember (parseValue f)) 125
                  (fun m : jsstring * json => wfJSON m.2) f
                  (parseMember_ok (parseValue f) (parseValue_ok f))) as Hl.
    specialize (Hl ltac:(intros t Ht; apply (parseMember_fuel _ (f - 1) Hnested); lia)
                   (S (length r0)) (d :: r1) ltac:(lia) ltac:(lia)).
    destruct (parseList (parseMember (parseValue f)) 125 (S (length r0)) (d :: r1));
      congruence.
  - destruct (skipJSONWhiteSpace r0) as [|d r1]; [discriminate|].
    destruct (d =? 93)%N; [discriminate|].
    unfold parseElements.
    pose proof (parseList_fuel (parseValue f) 93 wfJSON (f - 1)
                  (parseValue_ok f) Hnested
                  (S (length r0)) (d :: r1) ltac:(lia) ltac:(lia)) as Hl.
    destruct (parseList (parseValue f) 93 (S (length r0)) (d :: r1)); congruence.
  - destruct (parseStringBody r0) as [[str r1]|]; discriminate.
  - apply parseLiteral_fuel.
Qed.

(** JSON.parse returns a value or throws: its fuel never runs out. *)
Lemma JSON_parse_total text : JSON_parse text <> PFuel.
Proof.
  unfold JSON_parse, parseText.
  pose proof (skipJSONWhiteSpace_length text) as Hskip.
  pose proof (parseValue_fuel (S (length text)) (skipJSONWhiteSpace text)
                ltac:(lia)) as Hf.
  destruct (parseValue (S (length text)) (skipJSONWhiteSpace text)) as [v r| |];
    [|discriminate|congruence].
  destruct (skipJSONWhiteSpace r); discriminate.
Qed.

(** The value of a JSON text is well-formed. *)
Lemma JSON_parse_wf text v r : JSON_parse text = POk v r -> wfJSON v /\ r = [].
Proof.
  unfold JSON_parse, parseText.
  destruct (parseValue (S (length text)) (skipJSONWhiteSpace text))
    as [v' r'| |] eqn:Hp; try discriminate.
  destruct (skipJSONWhiteSpace r'); [|discriminate].
  intros [= <- <-]. split; [|reflexivity]. apply (parseValue_ok _ _ _ _ Hp).
Qed.

Lemma depth_items (parts : list jsstring) (ds : list nat) :
  Forall2 (fun d p => d <= length p)%nat ds parts ->
  (foldr Nat.max 0 ds <= length (joinComma parts))%nat.
Proof.
  induction 1 as [|d p ds parts Hd Hall IH]; [cbn; lia|].
  destruct parts as [|q more].
  - inversion Hall; subst. cbn. lia.
  - rewrite joinComma_cons2, length_app. cbn [foldr length] in *.
    unfold jsstring in *. lia.
Qed.

(** The text of a value is at least as long as the value is deep. *)
Lemma depth_le_length v :
  numbersSurvive v = true -> (depth v <= length (JSON_stringify v))%nat.
Proof.
  induction v as [| b | x | s | items IH | props IH] using json_ind; intros Hn;
    try (apply opensValue_length, opensValue_stringify, Hn).
  - apply numbersSurvive_arr in Hn. cbn [depth JSON_stringify length].
    rewrite length_app. cbn [length].
    assert (foldr (fun x d => Nat.max (depth x) d) 0 items
            = foldr Nat.max 0 (map depth items))%nat as ->.
    { induction items as [|x items IHl]; [reflexivity|]. cbn [foldr map].
      rewrite IHl; [reflexivity| |]; [eapply Forall_inv_tail; eauto..]. }
    pose proof (depth_items (map JSON_stringify items) (map depth items)) as Hd.
    assert (Forall2 (fun d p => d <= length p)%nat
                    (map depth items) (map JSON_stringify items)) as H2.
    { clear Hd. induction items as [|x items IHl]; [constructor|]. cbn [map].
      apply Forall_cons in IH as [Hx IH]. apply Forall_cons in Hn as [Hnx Hn].
      constructor; [apply Hx, Hnx|apply IHl; assumption]. }
    specialize (Hd H2). lia.
  - apply numbersSurvive_obj in Hn. rewrite stringify_obj.
    cbn [depth length]. rewrite length_app. cbn [length].
    assert (foldr (fun (kv : jsstring * json) d => Nat.max (depth kv.2) d) 0 props
            = foldr Nat.max 0 (map (fun kv : jsstring * json => depth kv.2) props))%nat
      as ->.
    { clear. induction props as [|x props IHl]; [reflexivity|]. cbn [foldr map].
      rewrite IHl. reflexivity. }
    pose proof (depth_items (map memberText props)
                  (map (fun kv : jsstring * json => depth kv.2) props)) as Hd.
    assert (Forall2 (fun d p => d <= length p)%nat
                    (map (fun kv : jsstring * json => depth kv.2) props)
                    (map memberText props)) as H2.
    { clear Hd. induction props as [|x props IHl]; [constructor|]. cbn [map].
      apply Forall_cons in IH as [Hx IH]. apply Forall_cons in Hn as [Hnx Hn].
      constructor; [|apply IHl; assumption].
      specialize (Hx Hnx). unfold memberText. rewrite length_app. cbn [length]. lia. }
    specialize (Hd H2). lia.
Qed.

(** JSON.parse of JSON.stringify: a well-formed value whose numbers survive
    comes back as it was. *)
Lemma JSON_parse_stringify v :
  wfJSON v -> numbersSurvive v = true ->
  JSON_parse (JSON_stringify v) = POk v [].
Proof.
  intros Hwf Hn. unfold JSON_parse, parseText.
  rewrite (opensValue_skip _ (opensValue_stringify v Hn)).
  pose proof (parseValue_stringify v Hwf Hn (S (length (JSON_stringify v)))
                ltac:(pose proof (depth_le_length v Hn); lia) [] I) as Hp.
  rewrite app_nil_r in Hp. rewrite Hp. reflexivity.
Qed.

(** ** Persisting and reloading the plan *)

(** C6, as stated, fails: the oracle's plan gives an exercise [1e999]
    sets.  JSON.parse reads the literal as Infinity, JSON.stringify writes
    Infinity as [null], and after a reload the number of sets is [null]. *)
Lemma reload_loses_overflowing_number :
  let s := after (generatePlan (answering overflowText)) keyed in
  currentStep s = PlanStep
  /\ plan s = overflowPlan (JNum (Infinite false))
  /\ plan (reload s) = overflowPlan JNull
  /\ plan (reload s) <> plan s.
Proof.
  vm_compute. repeat split; try reflexivity. discriminate.
Qed.

(** C6, amended.  After a successful generation the held plan is the value
    of the stripped response, it is stored as its JSON text, and reloading
    the application gives the same value again, provided every Number in
    it survives serialisation: it is finite and JSON.stringify writes a
    literal that denotes it (not so for negative zero and for the
    infinities that overflowing literals denote).  Strings, booleans,
    [null], arrays and objects always survive, with the order of the
    properties. *)
Theorem plan_survives_reload (E : env) (s : state) (res : response) (v : json) :
  nonEmpty (apiKey s) = true ->
  generateContent E "gemini-2.5-flash" (PlanPrompt (formData s)) = Resolved res ->
  JSON_parse (stripFence (responseText res)) = POk v [] ->
  numbersSurvive v = true ->
  let s' := after (generatePlan E) s in
  plan s' = v
  /\ currentStep s' = PlanStep
  /\ localStorage s' !! "fitness_plan"%string = Some (JSON_stringify v)
  /\ plan (reload s') = v.
Proof.
  intros Hk Hres Hp Hn.
  destruct (JSON_parse_wf _ _ _ Hp) as [Hwf _].
  assert (Hrun : after (generatePlan E) s
                 = with_loading false
                     (with_currentStep PlanStep
                        (with_localStorage
                           (<["fitness_plan"%string := JSON_stringify v]> (localStorage s))
                           (with_plan v
                              (with_effects
                                 (effects s ++ [Request "gemini-2.5-flash"
                                                  (PlanPrompt (formData s))])
                                 (with_loading true s)))))).
  { run_handler. rewrite Hk. cbn. rewrite Hk. cbn. rewrite Hres. cbn.
    rewrite Hp. reflexivity. }
  cbv zeta. rewrite Hrun. unfold reload.
  cbn [plan currentStep localStorage with_loading with_currentStep
       with_localStorage with_plan with_effects initialState].
  repeat split.
  - apply lookup_insert_eq.
  - unfold initialPlan. rewrite lookup_insert_eq.
    destruct (opensValue_stringify v Hn) as (c & r & Heq & _).
    rewrite Heq at 1. change (nonEmpty (c :: r)) with true. cbv iota.
    rewrite JSON_parse_stringify by assumption. reflexivity.
Qed.

(** ** The user data in the prompt *)

Lemma skipJSONWhiteSpace_indent (ws r : jsstring) (c : N) :
  Forall (fun x => isJSONWhiteSpace x = true) ws ->
  isJSONWhiteSpace c = false ->
  skipJSONWhiteSpace (ws ++ c :: r) = c :: r.
Proof.
  intros Hws Hc. induction Hws as [|x ws Hx _ IH]; cbn [app skipJSONWhiteSpace].
  - rewrite Hc. reflexivity.
  - rewrite Hx. exact IH.
Qed.

Lemma skip_stop (c : N) (r : jsstring) :
  isJSONWhiteSpace c = false -> skipJSONWhiteSpace (c :: r) = c :: r.
Proof. intros Hc. cbn [skipJSONWhiteSpace]. rewrite Hc. reflexivity. Qed.

Lemma skip_go (c : N) (r : jsstring) :
  isJSONWhiteSpace c = true ->
  skipJSONWhiteSpace (c :: r) = skipJSONWhiteSpace r.
Proof. intros Hc. cbn [skipJSONWhiteSpace]. rewrite Hc. reflexivity. Qed.

Lemma parseValue_string (f : nat) (r : jsstring) :
  parseValue (S f) (34%N :: r)
  = match parseStringBody r with
    | Some (str, r') => POk (JStr str) r'
    | None => PErr
    end.
Proof. reflexivity. Qed.

(** A member written with a gap reads back. *)
Lemma parseMember_gap (f : nat) (kv : jsstring * jsstring) (rest : jsstring) :
  parseMember (parseValue (S f)) (stringMember kv ++ rest)
  = POk (kv.1, JStr kv.2) rest.
Proof.
  destruct kv as [k s]. unfold stringMember, quoteJSONString. cbn [fst snd].
  cbn [app parseMember]. change (34 =? 34)%N with true. cbv iota.
  rewrite <- !app_assoc. cbn [app]. rewrite (parse_quoteBody k).
  rewrite skip_stop by reflexivity. change (58 =? 58)%N with true. cbv iota.
  rewrite skip_go by reflexivity. rewrite skip_stop by reflexivity.
  rewrite parseValue_string. rewrite <- app_assoc. cbn [app].
  rewrite (parse_quoteBody s). reflexivity.
Qed.

(** The members of an object of strings, each on a line of its own, read
    back up to the closing brace. *)
Lemma parseMembers_gap (f n : nat) (indent stepback : jsstring)
    (kvs : list (jsstring * jsstring)) (rest : jsstring) :
  Forall (fun x => isJSONWhiteSpace x = true) indent ->
  Forall (fun x => isJSONWhiteSpace x = true) stepback ->
  kvs <> [] ->
  (length kvs <= n)%nat ->
  parseMembers (parseValue (S f)) n
    (joinWith (44%N :: 10%N :: indent) (map stringMember kvs)
     ++ 10%N :: stepback ++ 125%N :: rest)
  = POk (map (fun kv : jsstring * jsstring => (kv.1, JStr kv.2)) kvs) rest.
Proof.
  intros Hin Hout. unfold parseMembers. revert n.
  induction kvs as [|kv kvs IH]; intros n Hne Hn; [congruence|].
  destruct n as [|n]; [cbn in Hn; lia|].
  destruct kvs as [|kv' kvs].
  - cbn [parseList map joinWith]. rewrite parseMember_gap. unfold parseMore.
    rewrite skip_go by reflexivity.
    rewrite skipJSONWhiteSpace_indent; [|exact Hout|reflexivity].
    reflexivity.
  - assert (joinWith (44%N :: 10%N :: indent)
              (map stringMember (kv :: kv' :: kvs))
            = stringMember kv ++ (44%N :: 10%N :: indent)
              ++ joinWith (44%N :: 10%N :: indent)
                   (map stringMember (kv' :: kvs))) as -> by reflexivity.
    assert (exists r, joinWith (44%N :: 10%N :: indent)
                        (map stringMember (kv' :: kvs)) = 34%N :: r)
      as [r Hr].
    { cbn [map]. destruct (map stringMember kvs); cbn [joinWith];
        unfold stringMember at 1, quoteJSONString; cbn [app]; eauto. }
    pose proof (IH n ltac:(discriminate) ltac:(cbn [length] in *; lia)) as IH'.
    rewrite Hr in IH' |- *. cbn [app] in IH'.
    cbn [parseList map]. rewrite <- !app_assoc. rewrite parseMember_gap.
    unfold parseMore. cbn [app]. rewrite skip_stop by reflexivity.
    change (44 =? 44)%N with true. cbv iota.
    rewrite skip_go by reflexivity.
    rewrite skipJSONWhiteSpace_indent; [|exact Hin|reflexivity].
    cbn [map] in IH'. rewrite IH'. reflexivity.
Qed.

Lemma parseValue_object (f : nat) (r : jsstring) (d : N) (r' : jsstring) :
  skipJSONWhiteSpace r = d :: r' ->
  (d =? 125)%N = false ->
  parseValue (S f) (123%N :: r)
  = match parseMembers (parseValue f) (S (length r)) (d :: r') with
    | POk ms r'' => POk (makeObject ms) r''
    | PErr => PErr
    | PFuel => PFuel
    end.
Proof.
  intros Hskip Hd. cbn [parseValue]. change (123 =? 123)%N with true.
  cbv iota. rewrite Hskip, Hd. reflexivity.
Qed.

Lemma joinWith_length (sep : jsstring) (parts : list jsstring) :
  Forall (fun p => (1 <= length p)%nat) parts ->
  (length parts <= length (joinWith sep parts))%nat.
Proof.
  induction 1 as [|p parts Hp _ IH]; [reflexivity|].
  destruct parts as [|q parts]; cbn [joinWith length] in *; [lia|].
  rewrite !length_app. lia.
Qed.

Lemma stringMember_length (kv : jsstring * jsstring) :
  (1 <= length (stringMember kv))%nat.
Proof. unfold stringMember, quoteJSONString. cbn [app length]. lia. Qed.

(** An object of strings, written with a gap of two spaces, reads back,
    when its properties are in the order the engine keeps them in. *)
Lemma stringObject_parses (kvs : list (jsstring * jsstring)) :
  let props := map (fun kv : jsstring * jsstring => (kv.1, JStr kv.2)) kvs in
  kvs <> [] ->
  makeObject props = JObj props ->
  JSON_parse (stringifyIndented (u "  ") [] (JObj props)) = POk (JObj props) [].
Proof.
  intros props Hne Hcanon.
  set (sep := [44%N; 10%N; 32%N; 32%N]).
  assert (stringifyIndented (u "  ") [] (JObj props)
          = 123%N :: 10%N :: 32%N :: 32%N
            :: joinWith sep (map stringMember kvs)
            ++ 10%N :: [] ++ 125%N :: []) as ->.
  { unfold props. destruct kvs as [|kv kvs]; [congruence|].
    cbn [map stringifyIndented]. rewrite map_map. reflexivity. }
  assert (exists r0, joinWith sep (map stringMember kvs) = 34%N :: r0)
    as [r0 Hr0].
  { destruct kvs as [|kv kvs]; [congruence|]. cbn [map].
    destruct (map stringMember kvs); cbn [joinWith];
      unfold stringMember at 1, quoteJSONString; cbn [app]; eauto. }
  assert (length kvs <= length (joinWith sep (map stringMember kvs)))%nat
    as Hlen.
  { rewrite <- (length_map stringMember kvs). apply joinWith_length.
    apply Forall_map, Forall_forall. intros kv _. apply stringMember_length. }
  unfold JSON_parse, parseText. rewrite skip_stop by reflexivity.
  set (tail := 10%N :: [] ++ 125%N :: []).
  change (length (123%N :: ?r)) with (S (length r)).
  rewrite (parseValue_object _ _ 34%N (r0 ++ tail));
    [|rewrite !skip_go by reflexivity; rewrite Hr0; apply skip_stop;
      reflexivity|reflexivity].
  change (34%N :: r0 ++ tail) with ((34%N :: r0) ++ tail).
  rewrite <- Hr0. unfold tail, sep.
  rewrite (parseMembers_gap _ _ [32%N; 32%N] [] kvs []);
    [|repeat constructor|constructor|exact Hne
     |cbn [length]; rewrite length_app; unfold sep in Hlen; lia].
  fold props. rewrite Hcanon. reflexivity.
Qed.

(** The block of user data in the prompt is a JSON text, and it denotes
    the form as it stands: the eleven fields with the strings the user
    entered, whatever characters they hold. *)
Theorem dataBlock_denotes_form (f : UserProfile) :
  JSON_parse (dataBlock f) = POk (formObject f) [].
Proof.
  unfold dataBlock, formObject.
  apply (stringObject_parses (formFields f)).
  - discriminate.
  - reflexivity.
Qed.

(** The prompt tells the forms apart: two prompts are the same text only
    when all eleven fields are the same. *)
Theorem promptText_tells_forms_apart (f g : UserProfile) :
  promptText f = promptText g -> f = g.
Proof.
  unfold promptText. intros Heq.
  repeat apply app_inv_head in Heq. apply app_inv_tail in Heq.
  assert (formObject f = formObject g) as Hobj.
  { pose proof (stringObject_parses (formFields f) ltac:(discriminate) eq_refl)
      as Hf.
    pose proof (stringObject_parses (formFields g) ltac:(discriminate) eq_refl)
      as Hg.
    cbv zeta in Hf, Hg. fold (formObject f) in Hf. fold (formObject g) in Hg.
    fold (dataBlock f) in Hf. fold (dataBlock g) in Hg.
    rewrite Heq in Hf. congruence. }
  destruct f, g. unfold formObject, formFields in Hobj. cbn in Hobj.
  congruence.
Qed.

(** ** What the handlers leave alone *)

Section Leaves.
Context {B : Type} (f : state -> B).

Lemma leaves_ret {A} (a : A) : leaves f (mret a).
Proof. intros s. reflexivity. Qed.

Lemma leaves_gets {A} (g : state -> A) : leaves f (gets g).
Proof. intros s. reflexivity. Qed.

Lemma leaves_throw {A} (e : exn) : leaves f (@throw A e).
Proof. intros s. reflexivity. Qed.

Lemma leaves_await {A} (p : outcome A) : leaves f (await p).
Proof. intros s. destruct p; reflexivity. Qed.

Lemma leaves_modify (g : state -> state) :
  (forall s, f (g s) = f s) -> leaves f (modify g).
Proof. intros Hg s. apply Hg. Qed.

Lemma leaves_bind {A C} (m : M A) (k : A -> M C) :
  leaves f m -> (forall a, leaves f (k a)) -> leaves f (m ≫= k).
Proof.
  intros Hm Hk s. unfold after, mbind, M_bind.
  specialize (Hm s). unfold after in Hm.
  destruct (m s) as [[a|e] s1]; cbn [snd] in *.
  - rewrite <- Hm. apply Hk.
  - exact Hm.
Qed.

Lemma leaves_try {A} (body : M A) (handler : exn -> M A) (final : M unit) :
  leaves f body -> (forall e, leaves f (handler e)) -> leaves f final ->
  leaves f (tryCatchFinally body handler final).
Proof.
  intros Hb Hh Hf s. unfold after, tryCatchFinally.
  specialize (Hb s). unfold after in Hb.
  destruct (body s) as [[a|e] s1]; cbn [snd] in Hb.
  - specialize (Hf s1). unfold after in Hf.
    destruct (final s1) as [[[]|e] s2]; cbn [snd] in *; congruence.
  - specialize (Hh e s1). unfold after in Hh.
    destruct (handler e s1) as [r s2]; cbn [snd] in Hh.
    specialize (Hf s2). unfold after in Hf.
    destruct (final s2) as [[[]|e'] s3]; cbn [snd] in *; congruence.
Qed.

End Leaves.

(** Opens a handler up to its binds. *)
Ltac open_handler :=
  unfold perform, click, quoteEffect;
  unfold generatePlan, generateImage, generateDailyQuote,
    speakSection, speakNative, exportPDF, regenerate, closeImage, toggleDay,
    toggleMeal, themeEffect, saveKeys, getGemini, askOracle,
    alert, emit, setLoading, setImageLoading, setTtsLoading, setPlan,
    setCurrentStep, setExpandedDay, setExpandedMeal, setSelectedImage,
    setAudioBlobUrl, setIsPlaying, setDarkMode, setDailyQuote,
    setQuoteLoading, setApiKey, setElevenKey, setElevenVoiceId, setFormData,
    setItem, removeItem;
  cbv zeta.

(** Walks through a handler; [leaf] settles the state updates. *)
Ltac walk leaf :=
  repeat first
    [ match goal with
      | |- leaves _ (if ?b then _ else _) => destruct b
      | |- leaves _ (match ?x with _ => _ end) => destruct x
      end
    | simple apply leaves_ret | simple apply leaves_gets
    | simple apply leaves_throw | simple apply leaves_await
    | simple apply leaves_bind; [|intros ?]
    | simple apply leaves_try; [|intros ?|]
    | simple apply leaves_modify; intros ?; leaf ].

(** Reads the fields of an updated state. *)
Ltac read_state :=
  cbn [fst snd darkMode loading imageLoading ttsLoading plan currentStep
       expandedDay expandedMeal dailyQuote quoteLoading selectedImage apiKey
       elevenKey elevenVoiceId audioBlobUrl isPlaying formData localStorage
       effects
       with_darkMode with_loading with_imageLoading with_ttsLoading with_plan
       with_currentStep with_expandedDay with_expandedMeal with_dailyQuote
       with_quoteLoading with_selectedImage with_apiKey with_elevenKey
       with_elevenVoiceId with_audioBlobUrl with_isPlaying with_formData
       with_localStorage with_effects] in *.

(** Splits a handler that has been run into the ways it can go: the
    conditions it tests and the answers it awaits, innermost first. *)
Ltac is_plain t :=
  lazymatch t with
  | context [match _ with _ => _ end] => fail
  | _ => idtac
  end.

Ltac all_cases :=
  repeat match goal with
         | |- context [match ?scrutinee with _ => _ end] =>
             is_plain scrutinee; destruct scrutinee eqn:?; read_state
         end.

Lemma filter_snoc_other {A} (P : A -> bool) (l : list A) (e : A) :
  P e = false ->
  filter (fun x => P x = true) (l ++ [e]) = filter (fun x => P x = true) l.
Proof.
  intros He. rewrite filter_app, (filter_cons_False _ e) by congruence.
  apply app_nil_r.
Qed.

(** Outside the entries [writes] names, an action leaves the storage as it
    was, whatever the oracle and the speech service answer. *)
Theorem storage_footprint (E : env) (a : action) (s : state) (k : string) :
  k ∉ writes a ->
  localStorage (after (perform E a) s) !! k = localStorage s !! k.
Proof.
  intros Hk. revert s.
  change (leaves (fun s => localStorage s !! k) (perform E a)).
  destruct a; cbn [writes] in Hk; open_handler;
    walk ltac:(read_state;
               first [ reflexivity
                     | apply lookup_insert_ne; intros <-; apply Hk; set_solver
                     | apply lookup_delete_ne; intros <-; apply Hk; set_solver ]).
Qed.

(** While the key field is empty no action reaches the oracle. *)
Theorem oracle_needs_key (E : env) (a : action) (s : state) :
  keyInForce a s = [] ->
  requests (after (perform E a) s) = requests s.
Proof.
  intros Hk. unfold requests.
  destruct a; cbn [keyInForce] in Hk; try subst k;
    try (apply nonEmpty_false in Hk);
    run_handler; rewrite ?Hk, ?andb_false_r; cbn [negb]; read_state;
    all_cases; read_state;
    repeat (rewrite filter_snoc_other by reflexivity); try reflexivity.
Qed.

Lemma others_leave_fetches (E : env) (a : action) :
  (forall section, a <> SpeakSection section) ->
  leaves fetches (perform E a).
Proof.
  intros Hne.
  destruct a; try (destruct (Hne _ eq_refl)); open_handler;
    walk ltac:(unfold fetches; read_state;
               first [ reflexivity
                     | apply filter_snoc_other; reflexivity ]).
Qed.

(** The speech service is reached by speakSection alone, and only with a
    speech key and a plan. *)
Theorem fetch_only_to_speak (E : env) (a : action) (s : state) :
  fetches (after (perform E a) s) <> fetches s ->
  exists section,
    a = SpeakSection section
    /\ nonEmpty (elevenKey s) = true /\ truthy (plan s) = true.
Proof.
  intros Hf.
  assert (exists section, a = SpeakSection section) as [section ->].
  { destruct a; eauto; exfalso; apply Hf;
      apply (others_leave_fetches E); discriminate. }
  exists section. split; [reflexivity|].
  destruct (truthy (plan s)) eqn:Hp, (nonEmpty (elevenKey s)) eqn:Hk;
    try (split; reflexivity); exfalso; apply Hf; unfold fetches;
    run_handler; rewrite Hp; cbn; rewrite ?Hk; cbn;
    repeat (rewrite filter_snoc_other by reflexivity); reflexivity.
Qed.

(** No handler leaves its busy flag set, however it ends: between the
    actions all four flags are off. *)
Theorem reachable_idle (E : env) (ls : gmap string jsstring) (s : state) :
  reachable E ls s -> idle s.
Proof.
  induction 1 as [|s a _ (Hl & Hi & Ht & Hq)]; [repeat split|].
  unfold idle.
  destruct a; run_handler; all_cases; read_state; auto.
Qed.

(** A plan that is held is on display: the form is up only while there is
    no plan. *)
Theorem reachable_plan_on_display (E : env) (ls : gmap string jsstring)
    (s : state) :
  reachable E ls s -> truthy (plan s) = true -> currentStep s = PlanStep.
Proof.
  induction 1 as [|s a _ IH].
  - cbn. unfold initialStep. intros ->. reflexivity.
  - destruct a; run_handler; all_cases; read_state; auto; discriminate.
Qed.

(** ** What survives a reload *)

Lemma orDefault_empty (x : jsstring) : orDefault (Some x) [] = x.
Proof.
  unfold orDefault. destruct (nonEmpty x) eqn:Hx; [reflexivity|].
  apply nonEmpty_false in Hx. congruence.
Qed.

(** saveKeys stores the three fields trimmed, and a reload starts with
    them: the two keys as stored, and for a voice field that was blank the
    default voice.  The stored plan is not touched. *)
Theorem saveKeys_reload (s : state) :
  let s' := reload (after saveKeys s) in
  apiKey s' = trim (apiKey s)
  /\ elevenKey s' = trim (elevenKey s)
  /\ elevenVoiceId s'
     = (if nonEmpty (trim (elevenVoiceId s)) then trim (elevenVoiceId s)
        else defaultVoice)
  /\ plan s' = plan (reload s).
Proof.
  unfold reload. run_handler. unfold initialState, initialPlan.
  cbn [apiKey elevenKey elevenVoiceId plan].
  repeat first [ rewrite lookup_insert_eq
               | rewrite lookup_insert_ne by discriminate ].
  rewrite !orDefault_empty. repeat split.
Qed.

(** The theme on display is the theme a reload starts with: after the
    first rendering, and after every switch. *)
Theorem theme_survives_reload (E : env) (s : state) :
  darkMode (reload (after (perform E ToggleDarkMode) s)) = negb (darkMode s)
  /\ darkMode (reload (after (perform E Mount) s)) = darkMode s.
Proof.
  unfold reload, initialState. cbn [darkMode]. split.
  - run_handler. rewrite lookup_insert_eq.
    destruct (darkMode s); vm_compute; reflexivity.
  - run_handler. all_cases; read_state;
      repeat first [ rewrite lookup_insert_eq
                   | rewrite lookup_insert_ne by discriminate ];
      vm_compute; reflexivity.
Qed.

(** The Regenerate button drops the plan from the state and from the
    storage, and the other entries stay: a reload starts on the form. *)
Theorem regenerate_forgets_plan (s : state) :
  let s' := after regenerate s in
  plan s' = JNull /\ currentStep s' = FormStep
  /\ plan (reload s') = JNull /\ currentStep (reload s') = FormStep
  /\ (forall k, k <> "fitness_plan"%string ->
        localStorage s' !! k = localStorage s !! k).
Proof.
  unfold reload. run_handler. unfold initialState, initialPlan.
  cbn [plan currentStep]. rewrite lookup_delete_eq.
  repeat split. intros k Hk. apply lookup_delete_ne. congruence.
Qed.

(** ** The daily quote, when the oracle answers *)

Lemma nonEmpty_quoteOf (res : response) : nonEmpty (quoteOf res) = true.
Proof.
  unfold quoteOf. destruct (nonEmpty (responseText res)) eqn:Hq; [exact Hq|].
  reflexivity.
Qed.

(** The answer, trimmed, becomes the quote on display and the stored
    quote, stamped with the day; an empty answer gives the fixed quote.
    A reload shows the same quote, and for the rest of the day the effect
    on the key asks for no other. *)
Theorem generateDailyQuote_success (E : env) (s : state) (res : response) :
  nonEmpty (apiKey s) = true ->
  generateContent E "gemini-2.5-flash" (TextPrompt quotePrompt) = Resolved res ->
  let s' := after (generateDailyQuote E) s in
  dailyQuote s' = quoteOf res
  /\ localStorage s' !! "daily_quote"%string = Some (quoteOf res)
  /\ localStorage s' !! "daily_quote_date"%string = Some (today E)
  /\ dailyQuote (reload s') = quoteOf res
  /\ after (quoteEffect E) s' = s'.
Proof.
  intros Hk Hres. unfold reload. run_handler. rewrite Hk. cbn. rewrite Hk. cbn.
  rewrite Hres. cbn.
  change (if nonEmpty (responseText res) then responseText res
          else u "Stay consistent!") with (quoteOf res).
  repeat first [ rewrite lookup_insert_eq
               | rewrite lookup_insert_ne by discriminate ].
  rewrite bool_decide_eq_false_2 by (intros Hne; apply Hne; reflexivity).
  cbn [andb].
  unfold orDefault. rewrite nonEmpty_quoteOf. repeat split.
Qed.

(** ** Image generation, when the oracle answers *)

Lemma findImage_first (before rest : list part) (p : part) (d : inlineData) :
  Forall (fun q => inline q = None) before ->
  inline p = Some d ->
  findImage (before ++ p :: rest)
  = Some (u "data:image/png;base64," ++ default (u "undefined") (data d)).
Proof.
  intros Hb Hp. induction Hb as [|q before Hq _ IH]; cbn [app findImage].
  - rewrite Hp. reflexivity.
  - rewrite Hq. exact IH.
Qed.

(** The image shown is the first inline payload of the response, as a PNG
    data URL under the name asked for; the parts before it that carry none
    and all parts after it are passed over.  Nothing is reported. *)
Theorem generateImage_first_payload (E : env) (s : state) (name : value)
    (type prompt : jsstring) (res : response) (before rest : list part)
    (p : part) (d : inlineData) :
  nonEmpty (apiKey s) = true ->
  imagePrompt name type = Ok prompt ->
  generateContent E "gemini-2.5-flash-image" (TextPrompt prompt) = Resolved res ->
  responseParts res = Some (before ++ p :: rest) ->
  Forall (fun q => inline q = None) before ->
  inline p = Some d ->
  let s' := after (generateImage E name type) s in
  selectedImage s'
  = Some {| imageName := name;
            dataUrl := u "data:image/png;base64,"
                       ++ default (u "undefined") (data d) |}
  /\ effects s' = effects s
                  ++ [Request "gemini-2.5-flash-image" (TextPrompt prompt)]
  /\ imageLoading s' = false.
Proof.
  intros Hk Hprompt Hres Hparts Hb Hp.
  run_handler. rewrite Hk. cbn. rewrite Hk. cbn.
  rewrite Hprompt. cbn. rewrite Hres. cbn. rewrite Hparts. cbn [from_option id].
  rewrite (findImage_first before rest p d Hb Hp). cbn.
  repeat split.
Qed.

(** ** The quote effect on the key field *)

(** Until a quote has been stored for the day, every edit that leaves the
    key field non-empty sends one quote request, whatever the oracle
    answers: the effect runs on each change of the key. *)
Theorem key_edit_asks_for_quote (E : env) (s : state) (k : jsstring) :
  nonEmpty k = true ->
  localStorage s !! "daily_quote_date"%string <> Some (today E) ->
  requests (after (perform E (TypeApiKey k)) s)
  = requests s ++ [Request "gemini-2.5-flash" (TextPrompt quotePrompt)].
Proof.
  intros Hk Hdate. unfold requests. run_handler.
  rewrite (bool_decide_eq_true_2 _ Hdate), !Hk. cbn [andb negb].
  all_cases; try (rewrite Hk in *; discriminate);
    repeat (rewrite filter_snoc_other by reflexivity);
    rewrite filter_app; reflexivity.
Qed.

(** ** The pages of the document *)

Section Pages.
Context (E : env).

Lemma paginates_ret {A} (a : A) : paginates (mret a : pdfM A).
Proof. intros y a' ops y' Hy [= <- <- <-]. split; [constructor|exact Hy]. Qed.

Lemma paginates_bind {A B} (m : pdfM A) (k : A -> pdfM B) :
  paginates m -> (forall a, paginates (k a)) -> paginates (m ≫= k).
Proof.
  intros Hm Hk y b ops y' Hy. unfold mbind, pdfM_bind.
  destruct (m y) as [[[a ops1] y1]|e] eqn:Hrun; [|discriminate].
  destruct (Hm _ _ _ _ Hy Hrun) as [Hops1 Hy1].
  destruct (k a y1) as [[[b' ops2] y2]|e] eqn:Hrun2; [|discriminate].
  intros [= <- <- <-].
  destruct (Hk a _ _ _ _ Hy1 Hrun2) as [Hops2 Hy2].
  split; [apply Forall_app; split; assumption|exact Hy2].
Qed.

Lemma paginates_liftR {A} (r : result A) : paginates (liftR r).
Proof.
  intros y a ops y' Hy. destruct r; [|discriminate].
  intros [= <- <- <-]. split; [constructor|exact Hy].
Qed.

Lemma paginates_setFontSize (size : Z) : paginates (call (SetFontSize size)).
Proof.
  intros y a ops y' Hy [= <- <- <-]. split; [repeat constructor|exact Hy].
Qed.

Lemma paginates_setFont (family style : string) :
  paginates (call (SetFont family style)).
Proof.
  intros y a ops y' Hy [= <- <- <-]. split; [repeat constructor|exact Hy].
Qed.

Lemma paginates_advance (dy : Z) : (0 <= dy)%Z -> paginates (advance dy).
Proof.
  intros Hdy y a ops y' Hy [= <- <- <-]. split; [constructor|lia].
Qed.

(** The one place where text is put: past the bound the line opens a new
    page at the top margin. *)
Lemma paginates_putLine (fontSize : Z) (line : jsstring) :
  (0 <= fontSize)%Z -> paginates (putLine fontSize line).
Proof.
  intros Hsize y a ops y' Hy. unfold putLine, margin in *.
  destruct (780 <? y)%Z eqn:Hpast; intros [= <- <- <-]; cbn [app].
  - split; [|lia]. constructor; [exact I|].
    constructor; [|constructor]. cbn [onPage]. unfold margin. lia.
  - apply Z.ltb_ge in Hpast. split; [|lia].
    constructor; [|constructor]. cbn [onPage]. unfold margin. lia.
Qed.

Lemma paginates_putLines (fontSize : Z) (lines : list jsstring) :
  (0 <= fontSize)%Z -> paginates (putLines fontSize lines).
Proof.
  intros Hsize. induction lines as [|line lines IH]; cbn [putLines].
  - apply paginates_ret.
  - apply paginates_bind; [apply paginates_putLine; exact Hsize|intros _; exact IH].
Qed.

Lemma paginates_addLine (txt : value) (fontSize : Z) (bold : bool) :
  (0 <= fontSize)%Z -> paginates (addLine E txt fontSize bold).
Proof.
  intros Hsize. unfold addLine.
  apply paginates_bind; [apply paginates_setFontSize|intros _].
  apply paginates_bind; [apply paginates_setFont|intros _].
  apply paginates_bind; [apply paginates_liftR|intros lines].
  apply paginates_bind; [apply paginates_putLines; exact Hsize|intros _].
  apply paginates_advance. lia.
Qed.

Lemma paginates_forEachFrom (i : nat) (items : list json)
    (f : json -> nat -> pdfM unit) :
  (forall x j, paginates (f x j)) -> paginates (forEachFrom i items f).
Proof.
  intros Hf. revert i. induction items as [|x items IH]; intros i;
    cbn [forEachFrom].
  - apply paginates_ret.
  - apply paginates_bind; [apply Hf|intros _; apply IH].
Qed.

Lemma paginates_forEach (arr : value) (f : json -> nat -> pdfM unit) :
  (forall x j, paginates (f x j)) -> paginates (forEach arr f).
Proof.
  intros Hf. unfold forEach.
  destruct arr as [[]|]; try apply paginates_liftR.
  apply paginates_forEachFrom, Hf.
Qed.

Lemma paginates_mealBlock (title : string) (arr : json) :
  paginates (mealBlock E title arr).
Proof.
  unfold mealBlock.
  apply paginates_bind; [apply paginates_addLine; lia|intros _].
  apply paginates_forEach. intros x j.
  apply paginates_bind; [apply paginates_liftR|intros line].
  apply paginates_addLine; lia.
Qed.

(** Walks through the statements of the export. *)
Ltac pages :=
  repeat first
    [ simple apply paginates_ret
    | simple apply paginates_liftR
    | simple apply paginates_addLine; lia
    | simple apply paginates_mealBlock
    | simple apply paginates_forEach; intros ? ?
    | simple apply paginates_bind; [|intros ?] ].

Lemma paginates_exportDocument (p : json) (form : UserProfile) :
  paginates (exportDocument E p form).
Proof. unfold exportDocument. pages. Qed.

End Pages.

(** Every line of the saved document lies on its page: at the left margin,
    and between the top margin and the bound at which addLine opens a new
    page; this for every plan and whatever lines jsPDF splits a text
    into. *)
Theorem exportPDF_on_page (E : env) (s : state) :
  truthy (plan s) = true ->
  (exportPDF E s).1 = Ok tt ->
  exists ops,
    effects (after (exportPDF E) s)
    = effects s ++ [Save "AI_Fitness_Plan.pdf" ops]
    /\ Forall onPage ops.
Proof.
  intros Hp. run_handler. rewrite Hp. cbn [negb].
  destruct (exportDocument E (plan s) (formData s) margin)
    as [[[[] ops] y]|e] eqn:Hdoc; cbn [fst snd]; [intros _|discriminate].
  exists ops. split; [reflexivity|].
  eapply (paginates_exportDocument E); [|exact Hdoc]. reflexivity.
Qed.

(** ** Plans the export cannot read *)

Lemma throws_bind {A B} (m : pdfM A) (k : A -> pdfM B) (y : Z) :
  (forall a ops y1, m y = Ok (a, ops, y1) -> exists e, k a y1 = Throw e) ->
  exists e, (m ≫= k) y = Throw e.
Proof.
  intros Hk. unfold mbind, pdfM_bind.
  destruct (m y) as [[[a ops] y1]|e]; [|eauto].
  destruct (Hk a ops y1 eq_refl) as [e ->]. eauto.
Qed.

Lemma liftR_Ok {A} (r : result A) (y : Z) (a : A) (ops : list docOp) (y1 : Z) :
  liftR r y = Ok (a, ops, y1) -> r = Ok a.
Proof. destruct r; [intros [= -> _ _]; reflexivity|discriminate]. Qed.

Lemma getProp_Ok (v : value) (k : string) (x : value) :
  getProp v k = Ok x -> x = getOpt v k.
Proof. destruct v as [[]|]; cbn; congruence. Qed.

Lemma forEach_Ok (arr : value) (f : json -> nat -> pdfM unit) (y : Z)
    (r : unit * list docOp * Z) :
  forEach arr f y = Ok r -> exists items, arr = Some (JArr items).
Proof. destruct arr as [[]|]; try discriminate. eauto. Qed.

Lemma exportDocument_needs (E : env) (p : json) (form : UserProfile) (y : Z) :
  lacksRequired p -> exists e, exportDocument E p form y = Throw e.
Proof.
  intros Hlacks. unfold exportDocument.
  repeat (simple apply throws_bind; intros ? ? ? ?;
          try match goal with
              | H : liftR (getProp _ _) _ = Ok _ |- _ =>
                  apply liftR_Ok in H; pose proof (getProp_Ok _ _ _ H); subst
              end).
  exfalso. destruct Hlacks as [Hdays|Hmeals].
  - match goal with
    | H : forEach (getOpt _ "days") _ _ = Ok _ |- _ =>
        apply forEach_Ok in H as [items Hitems]; exact (Hdays items Hitems)
    end.
  - match goal with
    | H : getProp (getOpt _ "meals") "breakfast" = Ok _ |- _ =>
        destruct Hmeals as [Hmeals|Hmeals]; rewrite Hmeals in H; discriminate H
    end.
Qed.

(** A plan whose days are no array, or that has no meal mapping, is not
    exported: the handler ends in an exception before the document is
    saved, and the state is as before. *)
Theorem exportPDF_needs_days_and_meals (E : env) (s : state) :
  truthy (plan s) = true ->
  lacksRequired (plan s) ->
  (exists e, (exportPDF E s).1 = Throw e) /\ after (exportPDF E) s = s.
Proof.
  intros Hp Hlacks. run_handler. rewrite Hp. cbn [negb].
  destruct (exportDocument_needs E (plan s) (formData s) margin Hlacks)
    as [e ->].
  split; [exists e|]; reflexivity.
Qed.

(** ** The view *)

Lemma generatePlan_accepts (E : env) (s : state) (res : response) (v : json)
    (rest : jsstring) :
  nonEmpty (apiKey s) = true ->
  generateContent E "gemini-2.5-flash" (PlanPrompt (formData s)) = Resolved res ->
  JSON_parse (stripFence (responseText res)) = POk v rest ->
  after (generatePlan E) s = accepted v s.
Proof.
  intros Hk Hres Hp. run_handler. rewrite Hk. cbn. rewrite Hk. cbn.
  rewrite Hres. cbn. rewrite Hp. reflexivity.
Qed.

(** *** Rendering throws nothing but TypeError *)

Lemma only_Ok {A} (a : A) : onlyTypeError (Ok a).
Proof. intros e. discriminate. Qed.

Lemma only_TypeError {A} : onlyTypeError (@Throw A TypeError).
Proof. intros e [= <-]. reflexivity. Qed.

Lemma only_bindR {A B} (r : result A) (k : A -> result B) :
  onlyTypeError r -> (forall a, onlyTypeError (k a)) ->
  onlyTypeError (bindR r k).
Proof.
  intros Hr Hk e. destruct r as [a|e']; cbn.
  - apply Hk.
  - intros [= <-]. apply Hr. reflexivity.
Qed.

Lemma only_getProp (v : value) (k : string) : onlyTypeError (getProp v k).
Proof.
  destruct v as [[]|]; cbn; first [apply only_Ok|apply only_TypeError].
Qed.

Lemma only_toStringJSON (v : json) : onlyTypeError (toStringJSON v).
Proof.
  induction v as [|b|x|s|items IH|props IH] using json_ind;
    cbn [toStringJSON]; try apply only_Ok.
  - destruct b; apply only_Ok.
  - induction IH as [|x items Hx _ IHitems]; [apply only_Ok|].
    apply only_bindR.
    + destruct x; first [apply only_Ok|exact Hx].
    + intros sx. destruct items; [apply only_Ok|].
      apply only_bindR; [exact IHitems|intros; apply only_Ok].
  - destruct (hasKey (u "toString") props);
      [apply only_TypeError|apply only_Ok].
Qed.

Lemma only_toStringValue (v : value) : onlyTypeError (toStringValue v).
Proof. destruct v; [apply only_toStringJSON|apply only_Ok]. Qed.

Lemma only_mapFrom {A B} (i : nat) (items : list A) (f : A -> nat -> result B) :
  (forall x j, onlyTypeError (f x j)) -> onlyTypeError (mapFrom i items f).
Proof.
  intros Hf. revert i. induction items as [|x items IH]; intros i;
    cbn [mapFrom]; [apply only_Ok|].
  apply only_bindR; [apply Hf|intros y].
  apply only_bindR; [apply IH|intros; apply only_Ok].
Qed.

Lemma only_mapArray {B} (arr : value) (f : json -> nat -> result B) :
  (forall x j, onlyTypeError (f x j)) -> onlyTypeError (mapArray arr f).
Proof.
  intros Hf. destruct arr as [[]|]; cbn [mapArray];
    try apply only_TypeError. apply only_mapFrom, Hf.
Qed.

Lemma only_entries (v : value) : onlyTypeError (entries v).
Proof.
  destruct v as [[]|]; cbn; first [apply only_Ok|apply only_TypeError].
Qed.

(** Walks through the expressions of the view. *)
Ltac only_steps :=
  repeat first
    [ simple apply only_Ok
    | simple apply only_TypeError
    | simple apply only_getProp
    | simple apply only_toStringValue
    | simple apply only_entries
    | simple apply only_mapArray; intros ? ?
    | simple apply only_mapFrom; intros ? ?
    | simple apply only_bindR; [|intros ?]
    | match goal with
      | |- onlyTypeError (if ?b then _ else _) => destruct b
      | |- onlyTypeError (let '(_, _) := ?x in _) => destruct x
      end ].

Lemma only_renderExercise (ex : json) (i : nat) :
  onlyTypeError (renderExercise ex i).
Proof. unfold renderExercise. only_steps. Qed.

Lemma only_renderDay (open : option nat) (day : json) (idx : nat) :
  onlyTypeError (renderDay open day idx).
Proof. unfold renderDay. only_steps. apply only_renderExercise. Qed.

Lemma only_renderMeal (open : option jsstring) (entry : jsstring * json)
    (i : nat) :
  onlyTypeError (renderMeal open entry i).
Proof. unfold renderMeal. only_steps. Qed.

Lemma only_renderPlan (s : state) : onlyTypeError (renderPlan s).
Proof.
  unfold renderPlan. cbv zeta. only_steps;
    first [apply only_renderDay|apply only_renderMeal].
Qed.

Lemma bindR_Ok {A B} (r : result A) (k : A -> result B) (b : B) :
  bindR r k = Ok b -> exists a, r = Ok a /\ k a = Ok b.
Proof. destruct r as [a|e]; [eauto|discriminate]. Qed.

Lemma renderPlan_needs_tips (s : state) :
  lacksTips (plan s) -> renderPlan s = Throw TypeError.
Proof.
  intros Htips.
  destruct (renderPlan s) as [v|e] eqn:Hr.
  - exfalso. unfold renderPlan in Hr. cbv zeta in Hr.
    repeat (apply bindR_Ok in Hr as (? & ? & Hr)).
    match goal with
    | H : getProp _ "lifestyleTips" = Ok ?tips,
      H' : mapArray ?tips _ = Ok _ |- _ =>
        apply getProp_Ok in H; subst tips;
        destruct (getOpt (Some (plan s)) "lifestyleTips") as [[]|] eqn:Hg;
        try discriminate H'; exact (Htips _ Hg)
    end.
  - f_equal. exact (only_renderPlan s e Hr).
Qed.

(** A plan whose tips are missing, or are no array, cannot be shown: with
    the plan step up the rendering ends in a TypeError, whichever panels
    are open.  (exportPDF reads the same list guarded.) *)
Theorem render_needs_tips (s : state) :
  currentStep s = PlanStep ->
  truthy (plan s) = true ->
  lacksTips (plan s) ->
  render s = Throw TypeError.
Proof.
  intros Hstep Hp Htips. unfold render. rewrite Hstep, Hp.
  rewrite (renderPlan_needs_tips s Htips). reflexivity.
Qed.

(** *** The view of a plan of the demanded shape *)

Lemma mapFrom_exercises (i : nat) (exs : list Exercise) :
  mapFrom i (map exerciseJSON exs) renderExercise
  = Ok (imap (fun j => rowOf (i + j)) exs).
Proof.
  revert i. induction exs as [|ex exs IH]; intros i; cbn [map mapFrom imap].
  - reflexivity.
  - change (renderExercise (exerciseJSON ex) i) with (Ok (rowOf i ex)).
    cbn [bindR]. rewrite IH. cbn [bindR]. rewrite Nat.add_0_r.
    do 2 f_equal. apply imap_ext. intros j x _. unfold compose.
    f_equal. lia.
Qed.

Lemma renderDay_dayJSON (open : option nat) (d : Day) (idx : nat) :
  renderDay open (dayJSON d) idx = Ok (dayPanelOf open idx d).
Proof.
  unfold renderDay, dayPanelOf.
  change (getProp (Some (dayJSON d)) "day") with (Ok (str (dayLabel d))).
  change (getProp (Some (dayJSON d)) "focus") with (Ok (str (dayFocus d))).
  change (getProp (Some (dayJSON d)) "exercises")
    with (Ok (Some (JArr (map exerciseJSON (dayExercises d))))).
  cbn [bindR toStringValue toStringJSON str mapArray].
  destruct (bool_decide (open = Some idx)); [|reflexivity].
  rewrite mapFrom_exercises. reflexivity.
Qed.

Lemma mapFrom_days (open : option nat) (i : nat) (ds : list Day) :
  mapFrom i (map dayJSON ds) (renderDay open)
  = Ok (imap (fun j => dayPanelOf open (i + j)) ds).
Proof.
  revert i. induction ds as [|d ds IH]; intros i; cbn [map mapFrom imap].
  - reflexivity.
  - rewrite renderDay_dayJSON. cbn [bindR]. rewrite IH. cbn [bindR].
    rewrite Nat.add_0_r. do 2 f_equal. apply imap_ext. intros j x _.
    unfold compose. f_equal. lia.
Qed.

Lemma mapFrom_items (meal : jsstring) (i : nat) (items : list jsstring) :
  mapFrom i (map JStr items)
    (fun item j => Ok {| itemKey := meal ++ u "-" ++ natToString j;
                         shownItem := item |})
  = Ok (imap (fun j item => {| itemKey := meal ++ u "-" ++ natToString (i + j);
                               shownItem := JStr item |}) items).
Proof.
  revert i. induction items as [|item items IH]; intros i;
    cbn [map mapFrom imap bindR].
  - reflexivity.
  - rewrite IH. cbn [bindR]. rewrite Nat.add_0_r. do 2 f_equal.
    apply imap_ext. intros j x _. unfold compose.
    replace (S i + j)%nat with (i + S j)%nat by lia. reflexivity.
Qed.

(** A canonical object has one property of a name. *)
Lemma getOwn_canonical (props : list (jsstring * json)) (k : jsstring) (v : json) :
  canonical props -> (k, v) ∈ props -> getOwn k props = Some v.
Proof.
  unfold canonical. induction props as [|[k0 v0] r IH]; cbn [map getOwn fst].
  - intros _ Hin. inversion Hin.
  - intros Hs Hin. apply StronglySorted_inv in Hs as [Hr Hall].
    apply elem_of_cons in Hin as [[= -> ->]|Hin].
    + rewrite jsstring_eqb_refl. reflexivity.
    + assert (jsstring_eqb k k0 = false) as ->.
      { destruct (jsstring_eqb k k0) eqn:Hk; [|reflexivity].
        apply jsstring_eqb_eq in Hk. subst k0.
        rewrite Forall_forall in Hall.
        destruct (Hall k) as [Hne _]; [|congruence].
        apply (list_elem_of_fmap_2 fst r (k, v)). exact Hin. }
      apply IH; assumption.
Qed.

Lemma foldl_defineOwn_sorted (acc members : list (jsstring * json)) :
  canonical acc -> canonical (foldl defineOwn acc members).
Proof.
  revert acc. induction members as [|kv ms IH]; intros acc Hc; cbn [foldl];
    [exact Hc|].
  apply IH, defineOwn_canonical, Hc.
Qed.

Lemma mealSlots_items (P : Plan) (kv : jsstring * json) :
  kv ∈ mealSlots P -> kv.2 = itemsJSON (slot kv.1 (meals P)).
Proof.
  intros Hin. destruct kv as [k v]. cbn [fst snd].
  assert (canonical (mealSlots P)) as Hc.
  { apply foldl_defineOwn_sorted. constructor. }
  pose proof (getOwn_canonical _ _ _ Hc Hin) as Hget.
  unfold mealSlots in Hget. rewrite getOwn_meals in Hget.
  destruct (hasSlot k (meals P)); [congruence|discriminate].
Qed.

Lemma mapFrom_meals (P : Plan) (open : option jsstring) (i : nat)
    (slots : list (jsstring * json)) :
  Forall (fun kv => kv.2 = itemsJSON (slot kv.1 (meals P))) slots ->
  mapFrom i slots (renderMeal open)
  = Ok (map (mealPanelOf P open) (map fst slots)).
Proof.
  intros Hall. revert i. induction Hall as [|[k v] slots Hkv _ IH]; intros i;
    cbn [map mapFrom fst].
  - reflexivity.
  - cbn [fst snd] in Hkv. subst v. unfold renderMeal at 1, mealPanelOf at 1.
    destruct (bool_decide (open = Some k)); cbn [bindR mapArray itemsJSON].
    + rewrite mapFrom_items. cbn [bindR]. rewrite IH. reflexivity.
    + rewrite IH. reflexivity.
Qed.

Lemma mapFrom_tips (i : nat) (tips : list jsstring) :
  mapFrom i (map JStr tips) (fun tip j => Ok ((j + 1)%nat, tip))
  = Ok (imap (fun j tip => ((i + j + 1)%nat, JStr tip)) tips).
Proof.
  revert i. induction tips as [|tip tips IH]; intros i;
    cbn [map mapFrom imap bindR].
  - reflexivity.
  - rewrite IH. cbn [bindR]. rewrite Nat.add_0_r. do 2 f_equal.
    apply imap_ext. intros j x _. unfold compose.
    replace (S i + j + 1)%nat with (i + S j + 1)%nat by lia. reflexivity.
Qed.

(** A plan of the demanded shape that has its tips is shown in full: a
    panel for every day in the order of the list, with the exercises of the
    open day; a panel for every meal slot in the order the engine
    enumerates the mapping, with the items of the open slot; the tips
    numbered from one. *)
Theorem render_planJSON (s : state) (P : Plan) :
  currentStep s = PlanStep ->
  plan s = planJSON P ->
  is_Some (lifestyleTips P) ->
  render s = Ok (PlanView (planViewOf s P)).
Proof.
  intros Hstep Hplan [tips Htips]. unfold render. rewrite Hstep, Hplan.
  change (truthy (planJSON P)) with true. cbv iota.
  unfold renderPlan. rewrite Hplan. cbv zeta.
  change (getProp (Some (planJSON P)) "motivationalQuote")
    with (Ok (str (motivationalQuote P))).
  change (getProp (Some (planJSON P)) "workoutPlan")
    with (Ok (Some (JObj [(u "overview", JStr (workoutOverview P));
                          (u "days", JArr (map dayJSON (days P)))]))).
  change (getProp (Some (planJSON P)) "dietPlan")
    with (Ok (Some (JObj [(u "overview", JStr (dietOverview P));
                          (u "meals", mealsJSON (meals P))]))).
  cbn [bindR].
  change (getProp (Some (JObj [(u "overview", JStr (workoutOverview P));
                               (u "days", JArr (map dayJSON (days P)))]))
            "overview") with (Ok (str (workoutOverview P))).
  change (getProp (Some (JObj [(u "overview", JStr (workoutOverview P));
                               (u "days", JArr (map dayJSON (days P)))]))
            "days") with (Ok (Some (JArr (map dayJSON (days P))))).
  change (getProp (Some (JObj [(u "overview", JStr (dietOverview P));
                               (u "meals", mealsJSON (meals P))]))
            "overview") with (Ok (str (dietOverview P))).
  change (getProp (Some (JObj [(u "overview", JStr (dietOverview P));
                               (u "meals", mealsJSON (meals P))]))
            "meals") with (Ok (Some (mealsJSON (meals P)))).
  cbn [bindR mapArray]. rewrite mapFrom_days. cbn [bindR].
  change (entries (Some (mealsJSON (meals P)))) with (Ok (mealSlots P)).
  cbn [bindR].
  rewrite (mapFrom_meals P) by (apply Forall_forall; apply mealSlots_items).
  cbn [bindR].
  assert (getProp (Some (planJSON P)) "lifestyleTips"
          = Ok (Some (itemsJSON tips))) as ->.
  { unfold planJSON. rewrite Htips. reflexivity. }
  cbn [bindR mapArray itemsJSON]. rewrite mapFrom_tips. cbn [bindR].
  unfold planViewOf. rewrite Htips. reflexivity.
Qed.

(** *** Answers that are accepted and cannot be shown *)

Lemma alerts_accepted (v : json) (s : state) : alerts (accepted v s) = alerts s.
Proof.
  unfold alerts, accepted. read_state. apply filter_snoc_other. reflexivity.
Qed.

Lemma falsy_stays_falsy (v : json) (ls : gmap string jsstring) :
  truthy v = false ->
  truthy (initialPlan (<["fitness_plan"%string := JSON_stringify v]> ls)) = false.
Proof.
  intros Hv. unfold initialPlan. rewrite lookup_insert_eq.
  destruct v as [|[]|[neg m e|neg]|s| |]; try discriminate Hv.
  - vm_compute. reflexivity.
  - vm_compute. reflexivity.
  - unfold truthy, isZero in Hv. apply negb_false_iff, Z.eqb_eq in Hv.
    subst m. vm_compute. reflexivity.
  - unfold truthy in Hv. apply negb_false_iff, jsstring_eqb_eq in Hv.
    subst s. vm_compute. reflexivity.
Qed.

(** An answer that is a JSON text for a falsy value ([null], [false], [0],
    the empty string) counts as a success: nothing is reported, the plan
    step is up, and the main area holds neither the form nor a plan view.
    A reload brings the form back. *)
Theorem generatePlan_falsy_answer (E : env) (s : state) (res : response)
    (v : json) :
  nonEmpty (apiKey s) = true ->
  generateContent E "gemini-2.5-flash" (PlanPrompt (formData s)) = Resolved res ->
  JSON_parse (stripFence (responseText res)) = POk v [] ->
  truthy v = false ->
  let s' := after (generatePlan E) s in
  alerts s' = alerts s
  /\ render s' = Ok (Child v)
  /\ render (reload s') = Ok (FormView initialFormData false).
Proof.
  intros Hk Hres Hp Hv. cbv zeta.
  rewrite (generatePlan_accepts E s res v [] Hk Hres Hp).
  split; [apply alerts_accepted|]. split.
  - unfold render, accepted. read_state. rewrite Hv. reflexivity.
  - unfold render, reload, accepted, initialState. read_state.
    unfold initialStep. rewrite (falsy_stays_falsy v _ Hv). reflexivity.
Qed.

Lemma accepted_reload (v : json) (s : state) :
  wfJSON v -> numbersSurvive v = true ->
  plan (reload (accepted v s)) = v.
Proof.
  intros Hwf Hn. unfold reload, accepted, initialState. read_state.
  unfold initialPlan. rewrite lookup_insert_eq.
  destruct (opensValue_stringify v Hn) as (c & r & Heq & _).
  rewrite Heq at 1. change (nonEmpty (c :: r)) with true. cbv iota.
  rewrite JSON_parse_stringify by assumption. reflexivity.
Qed.

(** generatePlan checks no more of the answer than that it is a JSON text.
    A plan without a list of tips is accepted without a report, stored,
    and cannot be shown: the rendering ends in a TypeError, and so it does
    on every reload, from the stored plan. *)
Theorem unshowable_plan_is_kept (E : env) (s : state) (res : response)
    (v : json) :
  nonEmpty (apiKey s) = true ->
  generateContent E "gemini-2.5-flash" (PlanPrompt (formData s)) = Resolved res ->
  JSON_parse (stripFence (responseText res)) = POk v [] ->
  truthy v = true ->
  numbersSurvive v = true ->
  lacksTips v ->
  let s' := after (generatePlan E) s in
  alerts s' = alerts s
  /\ render s' = Throw TypeError
  /\ render (reload s') = Throw TypeError.
Proof.
  intros Hk Hres Hp Hv Hn Htips. cbv zeta.
  destruct (JSON_parse_wf _ _ _ Hp) as [Hwf _].
  rewrite (generatePlan_accepts E s res v [] Hk Hres Hp).
  split; [apply alerts_accepted|]. split.
  - unfold render. change (currentStep (accepted v s)) with PlanStep.
    change (plan (accepted v s)) with v. rewrite Hv.
    rewrite renderPlan_needs_tips; [reflexivity|exact Htips].
  - pose proof (accepted_reload v s Hwf Hn) as Hplan.
    unfold render.
    assert (currentStep (reload (accepted v s)) = PlanStep) as ->.
    { unfold reload, initialState. cbn [currentStep].
      change (initialPlan (localStorage (accepted v s)))
        with (plan (reload (accepted v s))).
      rewrite Hplan. unfold initialStep. rewrite Hv. reflexivity. }
    rewrite Hplan, Hv.
    rewrite renderPlan_needs_tips; [reflexivity|rewrite Hplan; exact Htips].
Qed.

(** ** Responses without a fence *)

Lemma skipWhiteSpace_suffix (s : jsstring) (c : N) :
  c ∈ skipWhiteSpace s -> c ∈ s.
Proof.
  induction s as [|x s IH]; cbn [skipWhiteSpace]; [auto|].
  destruct (isWhiteSpace x); [|auto].
  intros Hin. apply elem_of_cons. right. auto.
Qed.

Lemma match_close_plain (s : jsstring) : backtick ∉ s -> match_close s = false.
Proof.
  intros Hs. unfold match_close.
  destruct (jsstring_eqb (skipWhiteSpace s) fence) eqn:Heq; [|reflexivity].
  apply jsstring_eqb_eq in Heq. destruct Hs.
  apply skipWhiteSpace_suffix. rewrite Heq. unfold fence. apply elem_of_cons.
  left. reflexivity.
Qed.

Lemma strip_close_plain (s : jsstring) : backtick ∉ s -> strip_close s = s.
Proof.
  induction s as [|c s IH]; intros Hs.
  - reflexivity.
  - cbn [strip_close]. rewrite (match_close_plain _ Hs).
    rewrite IH; [reflexivity|].
    intros Hin. apply Hs, elem_of_cons. right. exact Hin.
Qed.

(** A response in which no backtick occurs reaches JSON.parse as it is. *)
Theorem stripFence_plain (s : jsstring) : backtick ∉ s -> stripFence s = s.
Proof.
  intros Hs. unfold stripFence.
  assert (match_open s = None) as ->.
  { unfold match_open. destruct s as [|c s]; [reflexivity|].
    unfold fence, backtick. cbn [app strip_prefix].
    destruct (96 =? c)%N eqn:Hc; [|reflexivity].
    apply N.eqb_eq in Hc. destruct Hs. apply elem_of_cons. left.
    exact Hc. }
  apply strip_close_plain, Hs.
Qed.

(** ** The theorems at concrete inputs *)

Lemma generatePlan_missing_credential_witness :
  apiKey (initialState ∅) = []
  /\ let s' := after (generatePlan (answering planText)) (initialState ∅) in
     effects s' = effects (initialState ∅)
                  ++ [Alert (u "Enter your Gemini API key first!")]
     /\ filter (fun e => isNetwork e = true) (effects s')
        = filter (fun e => isNetwork e = true) (effects (initialState ∅))
     /\ plan s' = plan (initialState ∅)
     /\ localStorage s' = localStorage (initialState ∅)
     /\ currentStep s' = currentStep (initialState ∅).
Proof.
  split; [reflexivity|].
  apply (generatePlan_missing_credential (answering planText) (initialState ∅)).
  reflexivity.
Defined.

Lemma generatePlan_failure_preserves_witness :
  let E := answering (u "Sorry, no plan today.") in
  let e := SyntaxError (u "Sorry, no plan today.") in
  nonEmpty (apiKey keyed) = true
  /\ attemptFails E keyed e
  /\ let s' := after (generatePlan E) keyed in
     effects s' = effects keyed
                  ++ [Request "gemini-2.5-flash" (PlanPrompt (formData keyed));
                      ConsoleError e; planFailure E e]
     /\ plan s' = plan keyed
     /\ localStorage s' = localStorage keyed
     /\ currentStep s' = currentStep keyed.
Proof.
  assert (attemptFails (answering (u "Sorry, no plan today.")) keyed
            (SyntaxError (u "Sorry, no plan today."))) as Hfail.
  { apply (fails_malformed _ _ (textResponse (u "Sorry, no plan today."))).
    - reflexivity.
    - intros v r. vm_compute. discriminate. }
  split; [reflexivity|]. split; [exact Hfail|].
  apply (generatePlan_failure_preserves _ keyed _); [reflexivity|exact Hfail].
Defined.

Lemma generateImage_no_payload_witness :
  let E := answering (u "I cannot draw.") in
  let res := textResponse (u "I cannot draw.") in
  nonEmpty (apiKey keyed) = true
  /\ imagePrompt (str (u "Bench Press")) (u "exercise") = Ok benchPressPrompt
  /\ generateContent E "gemini-2.5-flash-image" (TextPrompt benchPressPrompt)
     = Resolved res
  /\ Forall (fun p => inline p = None) (default [] (responseParts res))
  /\ let s' := after (generateImage E (str (u "Bench Press")) (u "exercise")) keyed in
     selectedImage s' = selectedImage keyed
     /\ effects s' = effects keyed ++
          [Request "gemini-2.5-flash-image" (TextPrompt benchPressPrompt);
           Alert (crossMark ++ u " Image generation failed: No image data returned.")].
Proof.
  assert (Forall (fun p => inline p = None)
            (default [] (responseParts (textResponse (u "I cannot draw."))))) as Hnone.
  { repeat constructor. }
  split; [reflexivity|]. split; [reflexivity|]. split; [reflexivity|].
  split; [exact Hnone|].
  apply (generateImage_no_payload (answering (u "I cannot draw.")) keyed
           (str (u "Bench Press")) (u "exercise") benchPressPrompt
           (textResponse (u "I cannot draw."))); try reflexivity.
  exact Hnone.
Defined.


Lemma exportPDF_lines_witness :
  let E := answering planText in
  let wrap := fun (_ : Z) (_ : bool) (t : jsstring) => [t] in
  let s := showing (planJSON lunchFirst) in
  wrapsStrings E wrap
  /\ plan s = planJSON lunchFirst
  /\ exists ops,
       savedDocument (after (exportPDF E) s) = Some ops
       /\ textLines ops = wrapped wrap (documentParagraphs E (formData s) lunchFirst).
Proof.
  split; [intros size bold t; reflexivity|]. split; [reflexivity|].
  apply (exportPDF_lines (answering planText) (fun _ _ t => [t])
           (showing (planJSON lunchFirst)) lunchFirst).
  - intros size bold t. reflexivity.
  - reflexivity.
Defined.

Lemma exportPDF_tolerates_missing_witness :
  let E := answering planText in
  let wrap := fun (_ : Z) (_ : bool) (t : jsstring) => [t] in
  let s := showing (planJSON sparsePlan) in
  wrapsStrings E wrap
  /\ plan s = planJSON sparsePlan
  /\ exists ops,
       (exportPDF E s).1 = Ok tt
       /\ savedDocument (after (exportPDF E) s) = Some ops
       /\ textLines ops
          = wrapped wrap (documentParagraphs E (formData s) sparsePlan)
       /\ savedDocument
            (after (exportPDF E) (with_plan (planJSON (withDefaults sparsePlan)) s))
          = Some ops.
Proof.
  split; [intros size bold t; reflexivity|]. split; [reflexivity|].
  apply (exportPDF_tolerates_missing (answering planText) (fun _ _ t => [t])
           (showing (planJSON sparsePlan)) sparsePlan).
  - intros size bold t. reflexivity.
  - reflexivity.
Defined.

Lemma plan_survives_reload_witness :
  let E := answering numericText in
  nonEmpty (apiKey keyed) = true
  /\ generateContent E "gemini-2.5-flash" (PlanPrompt (formData keyed))
     = Resolved (textResponse numericText)
  /\ JSON_parse (stripFence (responseText (textResponse numericText)))
     = POk numericPlan []
  /\ numbersSurvive numericPlan = true
  /\ let s' := after (generatePlan E) keyed in
     plan s' = numericPlan
     /\ currentStep s' = PlanStep
     /\ localStorage s' !! "fitness_plan"%string = Some (JSON_stringify numericPlan)
     /\ plan (reload s') = numericPlan.
Proof.
  split; [reflexivity|]. split; [reflexivity|].
  split; [vm_compute; reflexivity|]. split; [vm_compute; reflexivity|].
  apply (plan_survives_reload (answering numericText) keyed
           (textResponse numericText) numericPlan).
  - reflexivity.
  - reflexivity.
  - vm_compute. reflexivity.
  - vm_compute. reflexivity.
Defined.

Lemma speakSection_native_without_key_witness :
  let E := answering planText in
  let s := with_elevenKey [] (showing (planJSON lunchFirst)) in
  truthy (plan s) = true
  /\ elevenKey s = []
  /\ after (speakSection E (u "diet")) s
     = with_isPlaying true
         (with_effects (effects s ++ [Speak (sectionText (plan s) (u "diet")) 1]) s).
Proof.
  split; [reflexivity|]. split; [reflexivity|].
  apply (speakSection_native_without_key (answering planText)
           (with_elevenKey [] (showing (planJSON lunchFirst))) (u "diet"));
    reflexivity.
Defined.

Lemma speakSection_fallback_on_rejection_witness :
  let E := scripted (Rejected []) brokenBody in
  let s := showing (planJSON lunchFirst) in
  let m := u "network error" in
  truthy (plan s) = true
  /\ nonEmpty (elevenKey s) = true
  /\ (speechAnswer E s (u "workout") = Rejected m
      \/ (exists st, speechAnswer E s (u "workout")
                     = Resolved {| status := st; body := Rejected m |}))
  /\ let s' := after (speakSection E (u "workout")) s in
     effects s' = effects s ++ [speechRequest s (u "workout"); speechWarning m;
                                Speak (sectionText (plan s) (u "workout")) 1]
     /\ isPlaying s' = true
     /\ ttsLoading s' = false.
Proof.
  assert (speechAnswer (scripted (Rejected []) brokenBody)
            (showing (planJSON lunchFirst)) (u "workout")
          = Rejected (u "network error")
          \/ (exists st, speechAnswer (scripted (Rejected []) brokenBody)
                           (showing (planJSON lunchFirst)) (u "workout")
                         = Resolved {| status := st;
                                       body := Rejected (u "network error") |}))
    as Hans.
  { right. exists 200%N. reflexivity. }
  split; [reflexivity|]. split; [reflexivity|]. split; [exact Hans|].
  apply (speakSection_fallback_on_rejection (scripted (Rejected []) brokenBody)
           (showing (planJSON lunchFirst)) (u "workout") (u "network error"));
    [reflexivity|reflexivity|exact Hans].
Defined.

Lemma speakSection_silent_when_resolved_witness :
  let E := scripted (Rejected []) unauthorized in
  let s := showing (planJSON lunchFirst) in
  truthy (plan s) = true
  /\ nonEmpty (elevenKey s) = true
  /\ speechAnswer E s (u "workout")
     = Resolved {| status := 401; body := Resolved (u "invalid_api_key") |}
  /\ let s' := after (speakSection E (u "workout")) s in
     effects s' = effects s ++ [speechRequest s (u "workout"); PlayLater 200]
     /\ audioBlobUrl s' = Some (createObjectURL E (u "invalid_api_key"))
     /\ isPlaying s' = isPlaying s.
Proof.
  split; [reflexivity|]. split; [reflexivity|]. split; [reflexivity|].
  apply (speakSection_silent_when_resolved (scripted (Rejected []) unauthorized)
           (showing (planJSON lunchFirst)) (u "workout") 401%N (u "invalid_api_key"));
    reflexivity.
Defined.

Lemma generateDailyQuote_failure_keeps_quote_witness :
  let E := scripted (Rejected (u "quota exceeded")) offline in
  nonEmpty (apiKey keyed) = true
  /\ generateContent E "gemini-2.5-flash" (TextPrompt quotePrompt)
     = Rejected (u "quota exceeded")
  /\ let s' := after (generateDailyQuote E) keyed in
     dailyQuote s' = dailyQuote keyed
     /\ localStorage s' = localStorage keyed
     /\ effects s' = effects keyed
                     ++ [Request "gemini-2.5-flash" (TextPrompt quotePrompt);
                         ConsoleError (Rejection (u "quota exceeded"))].
Proof.
  split; [reflexivity|]. split; [reflexivity|].
  apply (generateDailyQuote_failure_keeps_quote
           (scripted (Rejected (u "quota exceeded")) offline) keyed
           (u "quota exceeded")); reflexivity.
Defined.

(** ** The further theorems at concrete inputs *)

Lemma storage_footprint_witness :
  let E := answering planText in
  ("gemini_api"%string ∉ writes GeneratePlan)
  /\ localStorage (after (perform E GeneratePlan) keyed) !! "gemini_api"%string
     = localStorage keyed !! "gemini_api"%string.
Proof.
  assert ("gemini_api"%string ∉ writes GeneratePlan) as Hk.
  { cbn [writes]. intros [=]%list_elem_of_singleton. }
  split; [exact Hk|].
  apply (storage_footprint (answering planText) GeneratePlan keyed _ Hk).
Defined.

Lemma oracle_needs_key_witness :
  let E := answering planText in
  let a := GenerateImage (str (u "Plank")) (u "exercise") in
  keyInForce a (initialState ∅) = []
  /\ requests (after (perform E a) (initialState ∅)) = requests (initialState ∅).
Proof.
  split; [reflexivity|].
  apply (oracle_needs_key (answering planText)
           (GenerateImage (str (u "Plank")) (u "exercise")) (initialState ∅)).
  reflexivity.
Defined.

Lemma fetch_only_to_speak_witness :
  let E := scripted (Rejected []) unauthorized in
  let s := showing (planJSON lunchFirst) in
  let a := SpeakSection (u "diet") in
  fetches (after (perform E a) s) <> fetches s
  /\ exists section,
       a = SpeakSection section
       /\ nonEmpty (elevenKey s) = true /\ truthy (plan s) = true.
Proof.
  assert (fetches (after (perform (scripted (Rejected []) unauthorized)
                            (SpeakSection (u "diet")))
                     (showing (planJSON lunchFirst)))
          <> fetches (showing (planJSON lunchFirst))) as Hf.
  { vm_compute. discriminate. }
  split; [exact Hf|].
  apply (fetch_only_to_speak (scripted (Rejected []) unauthorized)
           (SpeakSection (u "diet")) (showing (planJSON lunchFirst)) Hf).
Defined.

Lemma reachable_idle_witness :
  let E := answering (u "Keep moving.") in
  reachable E ∅ (typed E) /\ idle (typed E).
Proof.
  assert (reachable (answering (u "Keep moving.")) ∅
            (typed (answering (u "Keep moving.")))) as Hr.
  { apply reach_step, reach_start. }
  split; [exact Hr|].
  apply (reachable_idle (answering (u "Keep moving.")) ∅ _ Hr).
Defined.

Lemma reachable_plan_on_display_witness :
  let E := answering planText in
  let s := after (perform E GeneratePlan) (typed E) in
  reachable E ∅ s
  /\ truthy (plan s) = true
  /\ currentStep s = PlanStep.
Proof.
  assert (reachable (answering planText) ∅
            (after (perform (answering planText) GeneratePlan)
                   (typed (answering planText)))) as Hr.
  { apply reach_step, reach_step, reach_start. }
  assert (truthy (plan (after (perform (answering planText) GeneratePlan)
                              (typed (answering planText)))) = true) as Hp.
  { vm_compute. reflexivity. }
  split; [exact Hr|]. split; [exact Hp|].
  apply (reachable_plan_on_display (answering planText) ∅ _ Hr Hp).
Defined.

Lemma generateDailyQuote_success_witness :
  let E := answering (u " Keep moving. ") in
  let res := textResponse (u " Keep moving. ") in
  nonEmpty (apiKey keyed) = true
  /\ generateContent E "gemini-2.5-flash" (TextPrompt quotePrompt) = Resolved res
  /\ quoteOf res = u "Keep moving."
  /\ let s' := after (generateDailyQuote E) keyed in
     dailyQuote s' = quoteOf res
     /\ localStorage s' !! "daily_quote"%string = Some (quoteOf res)
     /\ localStorage s' !! "daily_quote_date"%string = Some (today E)
     /\ dailyQuote (reload s') = quoteOf res
     /\ after (quoteEffect E) s' = s'.
Proof.
  split; [reflexivity|]. split; [reflexivity|].
  split; [vm_compute; reflexivity|].
  apply (generateDailyQuote_success (answering (u " Keep moving. ")) keyed
           (textResponse (u " Keep moving. "))); reflexivity.
Defined.

Lemma generateImage_first_payload_witness :
  let E := scripted (Resolved drawing) offline in
  let name := str (u "Bench Press") in
  nonEmpty (apiKey keyed) = true
  /\ imagePrompt name (u "exercise") = Ok benchPressPrompt
  /\ generateContent E "gemini-2.5-flash-image" (TextPrompt benchPressPrompt)
     = Resolved drawing
  /\ responseParts drawing
     = Some ([caption (u "Here it is")] ++ picture (u "iVBORw0KGgo=")
             :: [picture (u "AAAA")])
  /\ Forall (fun q => inline q = None) [caption (u "Here it is")]
  /\ inline (picture (u "iVBORw0KGgo=")) = Some {| data := Some (u "iVBORw0KGgo=") |}
  /\ let s' := after (generateImage E name (u "exercise")) keyed in
     selectedImage s'
     = Some {| imageName := name;
               dataUrl := u "data:image/png;base64,"
                          ++ default (u "undefined") (Some (u "iVBORw0KGgo=")) |}
     /\ effects s' = effects keyed
                     ++ [Request "gemini-2.5-flash-image"
                           (TextPrompt benchPressPrompt)]
     /\ imageLoading s' = false.
Proof.
  assert (Forall (fun q => inline q = None) [caption (u "Here it is")]) as Hb.
  { repeat constructor. }
  split; [reflexivity|]. split; [reflexivity|]. split; [reflexivity|].
  split; [reflexivity|]. split; [exact Hb|]. split; [reflexivity|].
  apply (generateImage_first_payload (scripted (Resolved drawing) offline)
           keyed (str (u "Bench Press")) (u "exercise") benchPressPrompt
           drawing [caption (u "Here it is")] [picture (u "AAAA")]
           (picture (u "iVBORw0KGgo="))
           {| data := Some (u "iVBORw0KGgo=") |});
    first [reflexivity|exact Hb].
Defined.

Lemma exportPDF_on_page_witness :
  let E := answering planText in
  let s := showing (planJSON lunchFirst) in
  truthy (plan s) = true
  /\ (exportPDF E s).1 = Ok tt
  /\ exists ops,
       effects (after (exportPDF E) s)
       = effects s ++ [Save "AI_Fitness_Plan.pdf" ops]
       /\ Forall onPage ops.
Proof.
  split; [reflexivity|]. split; [vm_compute; reflexivity|].
  apply (exportPDF_on_page (answering planText) (showing (planJSON lunchFirst))).
  - reflexivity.
  - vm_compute. reflexivity.
Defined.

Lemma exportPDF_needs_days_and_meals_witness :
  let E := answering planText in
  let s := showing quoteOnly in
  truthy (plan s) = true
  /\ lacksRequired (plan s)
  /\ (exists e, (exportPDF E s).1 = Throw e)
  /\ after (exportPDF E) s = s.
Proof.
  assert (lacksRequired (plan (showing quoteOnly))) as Hlacks.
  { left. intros items. vm_compute. discriminate. }
  split; [reflexivity|]. split; [exact Hlacks|].
  apply (exportPDF_needs_days_and_meals (answering planText)
           (showing quoteOnly)); [reflexivity|exact Hlacks].
Defined.

Lemma render_needs_tips_witness :
  let s := showing (planJSON sparsePlan) in
  currentStep s = PlanStep
  /\ truthy (plan s) = true
  /\ lacksTips (plan s)
  /\ render s = Throw TypeError.
Proof.
  assert (lacksTips (plan (showing (planJSON sparsePlan)))) as Htips.
  { intros items. vm_compute. discriminate. }
  split; [reflexivity|]. split; [reflexivity|]. split; [exact Htips|].
  apply (render_needs_tips (showing (planJSON sparsePlan)));
    [reflexivity|reflexivity|exact Htips].
Defined.

Lemma render_planJSON_witness :
  let s := after (toggleMeal (u "lunch")) (showing (planJSON lunchFirst)) in
  currentStep s = PlanStep
  /\ plan s = planJSON lunchFirst
  /\ is_Some (lifestyleTips lunchFirst)
  /\ mealNames lunchFirst = [u "lunch"; u "breakfast"; u "dinner"; u "snacks"]
  /\ render s = Ok (PlanView (planViewOf s lunchFirst)).
Proof.
  assert (is_Some (lifestyleTips lunchFirst)) as Htips.
  { eexists. reflexivity. }
  split; [reflexivity|]. split; [reflexivity|]. split; [exact Htips|].
  split; [vm_compute; reflexivity|].
  apply (render_planJSON
           (after (toggleMeal (u "lunch")) (showing (planJSON lunchFirst)))
           lunchFirst); [reflexivity|reflexivity|exact Htips].
Defined.

Lemma generatePlan_falsy_answer_witness :
  let E := answering (u "null") in
  let res := textResponse (u "null") in
  nonEmpty (apiKey keyed) = true
  /\ generateContent E "gemini-2.5-flash" (PlanPrompt (formData keyed))
     = Resolved res
  /\ JSON_parse (stripFence (responseText res)) = POk JNull []
  /\ truthy JNull = false
  /\ let s' := after (generatePlan E) keyed in
     alerts s' = alerts keyed
     /\ render s' = Ok (Child JNull)
     /\ render (reload s') = Ok (FormView initialFormData false).
Proof.
  split; [reflexivity|]. split; [reflexivity|].
  split; [vm_compute; reflexivity|]. split; [reflexivity|].
  apply (generatePlan_falsy_answer (answering (u "null")) keyed
           (textResponse (u "null")) JNull);
    first [reflexivity|vm_compute; reflexivity].
Defined.

Lemma unshowable_plan_is_kept_witness :
  let text := JSON_stringify (planJSON sparsePlan) in
  let E := answering text in
  let v := planJSON sparsePlan in
  nonEmpty (apiKey keyed) = true
  /\ generateContent E "gemini-2.5-flash" (PlanPrompt (formData keyed))
     = Resolved (textResponse text)
  /\ JSON_parse (stripFence (responseText (textResponse text))) = POk v []
  /\ truthy v = true
  /\ numbersSurvive v = true
  /\ lacksTips v
  /\ let s' := after (generatePlan E) keyed in
     alerts s' = alerts keyed
     /\ render s' = Throw TypeError
     /\ render (reload s') = Throw TypeError.
Proof.
  assert (lacksTips (planJSON sparsePlan)) as Htips.
  { intros items. vm_compute. discriminate. }
  split; [reflexivity|]. split; [reflexivity|].
  split; [vm_compute; reflexivity|]. split; [reflexivity|].
  split; [vm_compute; reflexivity|]. split; [exact Htips|].
  apply (unshowable_plan_is_kept
           (answering (JSON_stringify (planJSON sparsePlan))) keyed
           (textResponse (JSON_stringify (planJSON sparsePlan)))
           (planJSON sparsePlan));
    first [exact Htips|reflexivity|vm_compute; reflexivity].
Defined.

Lemma stripFence_plain_witness :
  (backtick ∉ planText) /\ stripFence planText = planText.
Proof.
  assert (backtick ∉ planText) as Hs.
  { apply (bool_decide_unpack _). vm_compute. exact I. }
  split; [exact Hs|].
  apply (stripFence_plain planText Hs).
Defined.

Lemma promptText_tells_forms_apart_witness :
  promptText (formData keyed) = promptText initialFormData
  /\ formData keyed = initialFormData.
Proof.
  split; [reflexivity|].
  apply (promptText_tells_forms_apart (formData keyed) initialFormData).
  reflexivity.
Defined.

Lemma key_edit_asks_for_quote_witness :
  let E := scripted (Rejected (u "API key not valid")) offline in
  let s := initialState ∅ in
  nonEmpty (u "A") = true
  /\ localStorage s !! "daily_quote_date"%string <> Some (today E)
  /\ requests (after (perform E (TypeApiKey (u "A"))) s)
     = requests s ++ [Request "gemini-2.5-flash" (TextPrompt quotePrompt)].
Proof.
  assert (localStorage (initialState ∅) !! "daily_quote_date"%string
          <> Some (today (scripted (Rejected (u "API key not valid")) offline)))
    as Hdate.
  { discriminate. }
  split; [reflexivity|]. split; [exact Hdate|].
  apply (key_edit_asks_for_quote
           (scripted (Rejected (u "API key not valid")) offline)
           (initialState ∅) (u "A")); [reflexivity|exact Hdate].
Defined.
